(** * Adversarial patch attack and DeepZ certification: a shallow embedding

    The development follows two modules of the toolbox:

    - [art/estimators/certification/deep_z/pytorch.py]
      ([ConvertedModel.__init__], [PytorchDeepZ.certify]);
    - [art/attacks/evasion/adversarial_patch/adversarial_patch_numpy.py]
      ([AdversarialPatchNumpy]).

    Python floats are idealised as rationals ([Q]); Python exceptions are
    values of [py_error] carried by [result]. *)

From Stdlib Require Import ZArith QArith Qabs Qround Qminmax Qpower Qfield Lia.
From stdpp Require Import gmap strings list.

Local Open Scope Z_scope.

(** ** Python exceptions and fallible computations *)

Inductive py_error : Type :=
| ValueError (msg : string)
| KeyError (key : string)
| IndexError
| AttributeError (name : string)
| TypeError (msg : string)
| ZeroDivisionError.

Inductive result (A : Type) : Type :=
| Ok (a : A)
| Raise (e : py_error).

Arguments Ok {A} a.
Arguments Raise {A} e.

Definition rbind {A B} (m : result A) (k : A -> result B) : result B :=
  match m with
  | Ok a => k a
  | Raise e => Raise e
  end.

#[global] Instance result_ret : MRet result := @Ok.
#[global] Instance result_bind : MBind result := fun A B k m => rbind m k.

(** [for x in xs: s = body(x, s)], aborted by the first exception. *)
Fixpoint for_each {A S} (xs : list A) (body : A -> S -> result S) (s : S)
  : result S :=
  match xs with
  | [] => Ok s
  | x :: xs' => s' ← body x s; for_each xs' body s'
  end.

(** [range(n)] for a Python integer [n] (empty when [n <= 0]). *)
Definition py_range (n : Z) : list Z := seqZ 0 n.

(** [l[i]] for a Python sequence: a negative index counts from the end,
    anything outside [-len, len) raises [IndexError]. *)
Definition py_index {A} (l : list A) (i : Z) : result A :=
  let n := Z.of_nat (length l) in
  let j := if i <? 0 then i + n else i in
  if (0 <=? j) && (j <? n) then
    match l !! Z.to_nat j with
    | Some a => Ok a
    | None => Raise IndexError
    end
  else Raise IndexError.

(** Python's [all] on a list of booleans. *)
Definition py_all (bs : list bool) : bool := forallb id bs.

Definition Qsum (qs : list Q) : Q := foldr Qplus 0%Q qs.

(** [q > 0] as the boolean a comparison of numbers yields. *)
Definition Qpositive (q : Q) : bool :=
  match (0 ?= q)%Q with Lt => true | _ => false end.

(** ** DeepZ: certification *)

Module DeepZ.

(** Modelled from the spec: [ZonoBounds.certify_via_subtraction] is defined
    in [art/estimators/certification/deep_z/deep_z.py], which is not among
    the sources.  Following section 4.6: the zonotope of
    [logit[predicted_class] - logit[k]] is obtained by subtracting centers
    and error-term entries, its interval lower bound is the center minus the
    sum of the absolute error terms, and class [k] passes when that bound
    is [> 0].  [cent] is the vector of logit centers, [eps] holds one row
    per error term. *)
Definition certify_via_subtraction
    (predicted_class class_to_consider : Z) (cent : list Q) (eps : list (list Q))
  : result bool :=
  c_p ← py_index cent predicted_class;
  c_k ← py_index cent class_to_consider;
  diff_in_eps ←
    for_each eps
      (fun row acc =>
         e_p ← py_index row predicted_class;
         e_k ← py_index row class_to_consider;
         Ok (acc ++ [(e_p - e_k)%Q]))
      [];
  let lower := ((c_p - c_k) - Qsum (map Qabs diff_in_eps))%Q in
  Ok (Qpositive lower).

Section Certify.

(** The datapoint arrays handed to the network, and the abstract forward
    pass of the converted model, which yields the final-layer zonotope
    (center, error terms) or raises. *)
Variable ndarray : Type.
Variable forward : ndarray -> ndarray -> result (list Q * list (list Q)).
Variable nb_classes : Z.

(** The per-class helper called by [certify]. *)
Variable certify_via_sub : Z -> Z -> list Q -> list (list Q) -> result bool.

(** [PytorchDeepZ.certify] *)
Definition certify (cent eps : ndarray) (prediction : Z) : result bool :=
  '(cent, eps) ← forward cent eps;
  certification_results ←
    for_each (py_range nb_classes)
      (fun k certification_results =>
         if negb (k =? prediction) then
           cert_via_sub ← certify_via_sub prediction k cent eps;
           Ok (certification_results ++ [cert_via_sub])
         else Ok certification_results)
      [];
  Ok (py_all certification_results).

End Certify.

End DeepZ.

(** ** DeepZ: conversion of a concrete network *)

Module ConvertedModel.

Section Conversion.

(** Weight and bias tensors are copied verbatim; their contents play no
    role in the conversion. *)
Variable tensor : Type.

(** The layer objects recorded by the forward hooks, in firing order. *)
Inductive torch_module : Type :=
| Conv2d (in_channels out_channels : Z)
         (kernel_size stride dilation padding : Z * Z)
         (weight : tensor) (bias : option tensor)
| Linear (in_features out_features : Z) (weight : tensor) (bias : option tensor)
| ReLU
| OtherModule (type_name : string).

Inductive zono_op : Type :=
| ZonoConv (in_channels out_channels : Z)
           (kernel_size stride dilation padding : Z * Z)
           (weight bias : tensor)
| ZonoDenseLayer (in_features out_features : Z) (weight bias : tensor)
| ZonoReLU.

Definition is_ZonoConv (op : zono_op) : bool :=
  match op with ZonoConv _ _ _ _ _ _ _ _ => true | _ => false end.
Definition is_ZonoDenseLayer (op : zono_op) : bool :=
  match op with ZonoDenseLayer _ _ _ _ => true | _ => false end.
Definition is_ZonoReLU (op : zono_op) : bool :=
  match op with ZonoReLU => true | _ => false end.

(** The attributes of a [ConvertedModel]; [reshape_op_num] stays unset
    ([None]) until the second loop assigns it. *)
Record t : Type := {
  forward_mode : string;
  ops : list zono_op;
  reshape_op_num : option Z
}.

(** [module.bias.data] on a layer built without bias. *)
Definition bias_data (bias : option tensor) : result tensor :=
  match bias with
  | Some b => Ok b
  | None => Raise (AttributeError "data")
  end.

Definition unsupported : py_error :=
  ValueError "Supported Operations are Conv2D, Linear, and RelU".

(** Body of the first loop: one abstract layer per recorded module. *)
Definition convert_module (module : torch_module) (ops : list zono_op)
  : result (list zono_op) :=
  match module with
  | Conv2d ic oc ks st dl pd w b =>
      b' ← bias_data b; Ok (ops ++ [ZonoConv ic oc ks st dl pd w b'])
  | Linear fi fo w b =>
      b' ← bias_data b; Ok (ops ++ [ZonoDenseLayer fi fo w b'])
  | ReLU => Ok (ops ++ [ZonoReLU])
  | OtherModule _ => Raise unsupported
  end.

(** Body of the second loop, at position [op_num] holding [op]:
    [self.ops[op_num - 1]] and [self.ops[op_num - 2]] are ordinary
    sequence lookups, so a negative index wraps around. *)
Definition infer_reshape (ops : list zono_op) (entry : Z * zono_op)
    (reshape : option Z) : result (option Z) :=
  let '(op_num, op) := entry in
  if is_ZonoDenseLayer op then
    prev ← py_index ops (op_num - 1);
    let reshape := if is_ZonoConv prev then Some op_num else reshape in
    if is_ZonoReLU prev then
      prev2 ← py_index ops (op_num - 2);
      Ok (if is_ZonoConv prev2 then Some op_num else reshape)
    else Ok reshape
  else Ok reshape.

Definition enumerate {A} (l : list A) : list (Z * A) :=
  imap (fun i a => (Z.of_nat i, a)) l.

(** [ConvertedModel.__init__], from the list [modules] the hooks have
    recorded. *)
Definition __init__ (modules : list torch_module) (channels_first : bool)
  : result t :=
  _ ← (if channels_first then Ok tt
       else Raise (ValueError "Please provide data in channels first format"));
  ops ← for_each modules convert_module [];
  reshape ← for_each (enumerate ops) (infer_reshape ops) None;
  Ok {| forward_mode := "abstract"; ops := ops; reshape_op_num := reshape |}.

End Conversion.

Arguments Conv2d {tensor}.
Arguments Linear {tensor}.
Arguments ReLU {tensor}.
Arguments OtherModule {tensor}.
Arguments ZonoConv {tensor}.
Arguments ZonoDenseLayer {tensor}.
Arguments ZonoReLU {tensor}.
Arguments ops {tensor}.
Arguments reshape_op_num {tensor}.
Arguments forward_mode {tensor}.
Arguments __init__ {tensor}.

End ConvertedModel.

(** ** DeepZ: running a converted network *)

Module ConvertedModelRun.

Import ConvertedModel.

Section Run.

(** [tensor] holds the weights, as in the conversion; [array] is a NumPy
    array handed in by the caller and [data] a torch tensor flowing through
    the layers. *)
Variable tensor : Type.
Variable array : Type.
Variable data : Type.

(** The layers of [deep_z.py], which is not among the sources: [op(x)] and
    [op.concrete_forward(x)]. *)
Variable op_abstract : zono_op tensor -> data -> result data.
Variable op_concrete : zono_op tensor -> data -> result data.

(** [torch.from_numpy(np.concatenate([cent, eps]).astype("float32"))],
    [torch.from_numpy(in_x.astype("float32"))], [x.reshape((x.shape[0], -1))]
    and the pair [x[0, :], x[1:, :]]. *)
Variable concatenate_to_tensor : array -> array -> result data.
Variable from_numpy : array -> data.
Variable reshape : data -> data.
Variable center_and_errors : data -> result (data * data).

(** Reading [self.reshape_op_num], an attribute that exists only once the
    constructor has assigned it. *)
Definition get_reshape_op_num (self : t tensor) : result Z :=
  match reshape_op_num self with
  | Some r => Ok r
  | None => Raise (AttributeError "reshape_op_num")
  end.

(** The loop shared by both passes, with [run] the way a layer is
    applied. *)
Definition forward_loop (self : t tensor)
    (run : zono_op tensor -> data -> result data) (x : data) : result data :=
  for_each (enumerate (ops self))
    (fun '(op_num, op) x =>
       r ← get_reshape_op_num self;
       let x := if r =? op_num then reshape x else x in
       run op x)
    x.

(** [ConvertedModel.abstract_forward] *)
Definition abstract_forward (self : t tensor) (cent eps : array)
  : result (data * data) :=
  x ← concatenate_to_tensor cent eps;
  x ← forward_loop self op_abstract x;
  center_and_errors x.

(** [ConvertedModel.concrete_forward], on an array or on a tensor. *)
Definition concrete_forward (self : t tensor) (in_x : array + data)
  : result data :=
  let x := match in_x with
           | inl a => from_numpy a
           | inr x => x
           end in
  forward_loop self op_concrete x.

(** [ConvertedModel.forward]: the concrete output, or the abstract pair. *)
Definition forward (self : t tensor) (cent : array) (eps : option array)
  : result (data + data * data) :=
  if bool_decide (forward_mode self = "concrete") then
    out ← concrete_forward self (inl cent); Ok (inl out)
  else
    match bool_decide (forward_mode self = "abstract"), eps with
    | true, Some eps => out ← abstract_forward self cent eps; Ok (inr out)
    | _, _ => Raise (ValueError "forward_mode must be set to abstract or concrete")
    end.

(** [PytorchDeepZ.set_forward_mode]; [None] stands for the failed
    [assert]. *)
Definition set_forward_mode (self : t tensor) (mode : string)
  : option (t tensor) :=
  if bool_decide (mode ∈ ["concrete"; "abstract"]) then
    Some {| forward_mode := mode; ops := ops self;
            reshape_op_num := reshape_op_num self |}
  else None.

End Run.

End ConvertedModelRun.

(** ** NumPy arrays *)

Module Np.

(** A three-dimensional array: its shape and its entries.  Entries outside
    the shape are never read by the operations below. *)
Record ndarray : Type := {
  shape : nat * nat * nat;
  item : nat -> nat -> nat -> Q
}.

(** [shape[i]] for [i] in 0, 1, 2. *)
Definition dim (s : nat * nat * nat) (i : nat) : nat :=
  let '(d0, d1, d2) := s in
  match i with 0%nat => d0 | 1%nat => d1 | _ => d2 end.

(** A two-dimensional array (the circular mask before [expand_dims]). *)
Record ndarray2 : Type := {
  shape2 : nat * nat;
  item2 : nat -> nat -> Q
}.

(** [np.round] followed by [int]: rounding to the nearest integer, ties to
    the even one. *)
Definition round_half_even (q : Q) : Z :=
  let f := Qfloor q in
  match (q - inject_Z f ?= 1 # 2)%Q with
  | Lt => f
  | Gt => f + 1
  | Eq => if Z.even f then f else f + 1
  end.

Definition Qclip (q a_min a_max : Q) : Q := Qmin (Qmax q a_min) a_max.

Definition zeros_like (x : ndarray) : ndarray :=
  {| shape := shape x; item := fun _ _ _ => 0%Q |}.

Definition map_items (f : Q -> Q) (x : ndarray) : ndarray :=
  {| shape := shape x; item := fun i j k => f (item x i j k) |}.

(** [np.clip(x, a_min, a_max)] *)
Definition clip (x : ndarray) (a_min a_max : Q) : ndarray :=
  map_items (fun q => Qclip q a_min a_max) x.

Definition shape_error : py_error :=
  ValueError "operands could not be broadcast together".

(** One axis of [np.broadcast_to]: a length equal to the target, or 1. *)
Definition broadcastable (d target : nat) : bool :=
  (d =? target)%nat || (d =? 1)%nat.

Definition bidx (d target i : nat) : nat :=
  if (d =? target)%nat then i else 0%nat.

(** [np.broadcast_to(v, target)], also the rule for the right-hand side of
    a slice assignment and of an in-place operation. *)
Definition broadcast_to (v : ndarray) (target : nat * nat * nat)
  : result ndarray :=
  let '(v0, v1, v2) := shape v in
  let '(t0, t1, t2) := target in
  if broadcastable v0 t0 && broadcastable v1 t1 && broadcastable v2 t2 then
    Ok {| shape := target;
          item := fun i j k => item v (bidx v0 t0 i) (bidx v1 t1 j) (bidx v2 t2 k) |}
  else Raise shape_error.

(** The common extent of two axes under mutual broadcasting. *)
Definition bdim (a b : nat) : result nat :=
  if (a =? b)%nat then Ok a
  else if (a =? 1)%nat then Ok b
  else if (b =? 1)%nat then Ok a
  else Raise shape_error.

(** An elementwise binary operator [a (op) b]. *)
Definition binop (f : Q -> Q -> Q) (a b : ndarray) : result ndarray :=
  let '(a0, a1, a2) := shape a in
  let '(b0, b1, b2) := shape b in
  d0 ← bdim a0 b0; d1 ← bdim a1 b1; d2 ← bdim a2 b2;
  a' ← broadcast_to a (d0, d1, d2);
  b' ← broadcast_to b (d0, d1, d2);
  Ok {| shape := (d0, d1, d2);
        item := fun i j k => f (item a' i j k) (item b' i j k) |}.

(** An in-place operator [a (op)= b]: [b] is broadcast to the shape of [a]. *)
Definition inplace (f : Q -> Q -> Q) (a b : ndarray) : result ndarray :=
  b' ← broadcast_to b (shape a);
  Ok {| shape := shape a; item := fun i j k => f (item a i j k) (item b' i j k) |}.

(** A slice [start:stop]; [None] is an omitted bound. *)
Definition slice : Type := option Z * option Z.
Definition full : slice := (None, None).
Definition sl (start stop : Z) : slice := (Some start, Some stop).

(** Normalisation of one slice bound against an axis of length [len]. *)
Definition slice_bound (len : Z) (default : Z) (b : option Z) : Z :=
  match b with
  | None => default
  | Some i => let i' := if i <? 0 then i + len else i in Z.max 0 (Z.min len i')
  end.

(** First index and number of indices selected by a slice. *)
Definition slice_indices (len : nat) (s : slice) : nat * nat :=
  let n := Z.of_nat len in
  let a := slice_bound n 0 (fst s) in
  let b := slice_bound n n (snd s) in
  (Z.to_nat a, Z.to_nat (b - a)).

(** [x[s0, s1, s2]] *)
Definition getitem (x : ndarray) (s0 s1 s2 : slice) : ndarray :=
  let '(d0, d1, d2) := shape x in
  let '(a0, c0) := slice_indices d0 s0 in
  let '(a1, c1) := slice_indices d1 s1 in
  let '(a2, c2) := slice_indices d2 s2 in
  {| shape := (c0, c1, c2);
     item := fun i j k => item x (a0 + i) (a1 + j) (a2 + k) |}.

Definition within (a c i : nat) : bool := (a <=? i)%nat && (i <? a + c)%nat.

(** [x[s0, s1, s2] = v] *)
Definition setitem (x : ndarray) (s0 s1 s2 : slice) (v : ndarray)
  : result ndarray :=
  let '(d0, d1, d2) := shape x in
  let '(a0, c0) := slice_indices d0 s0 in
  let '(a1, c1) := slice_indices d1 s1 in
  let '(a2, c2) := slice_indices d2 s2 in
  v' ← broadcast_to v (c0, c1, c2);
  Ok {| shape := shape x;
        item := fun i j k =>
          if within a0 c0 i && within a1 c1 j && within a2 c2 k
          then item v' (i - a0) (j - a1) (k - a2)
          else item x i j k |}.

(** [np.linspace(start, stop, num)[k]] *)
Definition linspace (start stop : Q) (num : nat) (k : nat) : Q :=
  if (num <=? 1)%nat then start
  else (start + inject_Z (Z.of_nat k) * ((stop - start) / inject_Z (Z.of_nat num - 1)))%Q.

(** [np.pad(m, ((before0, after0), (before1, after1)), mode="constant")]
    with zero fill; a negative width is rejected. *)
Definition pad (m : ndarray2) (pad0 pad1 : Z * Z) : result ndarray2 :=
  let '(b0, a0) := pad0 in
  let '(b1, a1) := pad1 in
  if (b0 <? 0) || (a0 <? 0) || (b1 <? 0) || (a1 <? 0) then
    Raise (ValueError "index can't contain negative values")
  else
    let '(d0, d1) := shape2 m in
    let '(p0, p1) := (Z.to_nat b0, Z.to_nat b1) in
    Ok {| shape2 := (p0 + d0 + Z.to_nat a0, p1 + d1 + Z.to_nat a1)%nat;
          item2 := fun i j =>
            if within p0 d0 i && within p1 d1 j
            then item2 m (i - p0) (j - p1) else 0%Q |}.

(** [np.expand_dims(m, axis)] of a two-dimensional array, [axis] 0 or 2. *)
Definition expand_dims (m : ndarray2) (axis : Z) : ndarray :=
  let '(d0, d1) := shape2 m in
  if axis =? 0
  then {| shape := (1, d0, d1)%nat; item := fun _ i j => item2 m i j |}
  else {| shape := (d0, d1, 1)%nat; item := fun i j _ => item2 m i j |}.

(** [np.concatenate] along the batch axis of images already expanded by
    [np.expand_dims(_, axis=0)]: the list must be non-empty and the images
    of one shape. *)
Definition concatenate (arrays : list ndarray) : result (list ndarray) :=
  match arrays with
  | [] => Raise (ValueError "need at least one array to concatenate")
  | a :: rest =>
      if forallb (fun b => bool_decide (shape b = shape a)) rest
      then Ok arrays
      else Raise (ValueError "all the input array dimensions must match exactly")
  end.

(** [l[start:stop]] along the batch axis. *)
Definition batch_slice {A} (l : list A) (start stop : Z) : list A :=
  let '(a, c) := slice_indices (length l) (sl start stop) in
  take c (drop a l).

(** [np.rot90(x)] in the plane of the first two axes. *)
Definition rot90 (x : ndarray) : ndarray :=
  let '(d0, d1, d2) := shape x in
  {| shape := (d1, d0, d2);
     item := fun i j k => item x j (d1 - 1 - i) k |}.

End Np.

(** ** The adversarial patch attack *)

Module AdversarialPatchNumpy.

Import Np.

(** Values stored in a transformation dictionary. *)
Inductive value : Type :=
| VFloat (q : Q)
| VTuple (t : list Z).

(** The classifier, as far as the attack reads it. *)
Record estimator_t : Type := {
  input_shape : nat * nat * nat;
  channels_first : bool;
  clip_values : Q * Q;
  nb_classes : Z
}.

(** The attributes of the attack object that stay fixed after
    construction. *)
Record attack : Type := {
  estimator : estimator_t;
  target : Z;
  rotation_max : Q;
  scale_min : Q;
  scale_max : Q;
  learning_rate : Q;
  max_iter : Z;
  batch_size : Z;
  image_shape : nat * nat * nat;
  i_h : nat;
  i_w : nat;
  patch_shape : nat * nat * nat
}.

Definition Qltb (a b : Q) : bool :=
  match (a ?= b)%Q with Lt => true | _ => false end.

Definition check (failed : bool) (msg : string) : result unit :=
  if failed then Raise (ValueError msg) else Ok tt.

(** [_check_params]; the [isinstance] tests are carried by the types of
    the fields. *)
Definition _check_params (rotation_max scale_min scale_max learning_rate : Q)
    (max_iter batch_size : Z) : result unit :=
  _ ← check (Qltb rotation_max 0 || Qltb 180 rotation_max)
        "The maximum rotation of the random patches must be between 0 and 180 degrees.";
  _ ← check (Qltb scale_min 0 || Qltb scale_max scale_min)
        "The minimum scale of the random patched must be greater than 0 and less than the maximum scaling.";
  _ ← check (Qltb 1 scale_max)
        "The maximum scale of the random patched must not be greater than 1.";
  _ ← check (negb (Qltb 0 learning_rate))
        "The learning rate must be greater than 0.0.";
  _ ← check (negb (0 <? max_iter))
        "The number of optimization steps must be greater than 0.";
  check (negb (0 <? batch_size)) "The batch size must be greater than 0.".

(** [__init__]: the fixed attributes and the initial patch. *)
Definition __init__ (classifier : estimator_t) (target : Z)
    (rotation_max scale_min scale_max learning_rate : Q)
    (max_iter batch_size : Z) : result (attack * ndarray) :=
  _ ← _check_params rotation_max scale_min scale_max learning_rate
        max_iter batch_size;
  let image_shape := input_shape classifier in
  let '(i_h, i_w) :=
    if channels_first classifier then (1%nat, 2%nat) else (0%nat, 1%nat) in
  let patch_shape := image_shape in
  let mean_value :=
    ((snd (clip_values classifier) - fst (clip_values classifier)) / 2
     + fst (clip_values classifier))%Q in
  Ok ({| estimator := classifier; target := target;
         rotation_max := rotation_max; scale_min := scale_min;
         scale_max := scale_max; learning_rate := learning_rate;
         max_iter := max_iter; batch_size := batch_size;
         image_shape := image_shape; i_h := i_h; i_w := i_w;
         patch_shape := patch_shape |},
      {| shape := patch_shape; item := fun _ _ _ => (1 * mean_value)%Q |}).

(** [_get_circular_patch_mask] *)
Definition _get_circular_patch_mask (self : attack) : result ndarray :=
  let sharpness := 40 in
  let diameter :=
    Nat.min (dim (patch_shape self) (i_h self)) (dim (patch_shape self) (i_w self)) in
  let x := linspace (-1) 1 diameter in
  let y := linspace (-1) 1 diameter in
  let z_grid i j := ((x j ^ 2 + y i ^ 2) ^ sharpness)%Q in
  let mask :=
    {| shape2 := (diameter, diameter);
       item2 := fun i j => (1 - Qclip (z_grid i j) (-1) 1)%Q |} in
  let mask_shape := [Z.of_nat diameter; Z.of_nat diameter] in
  m_h ← py_index mask_shape (Z.of_nat (i_h self));
  let pad_h_before :=
    Z.quot (Z.of_nat (dim (image_shape self) (i_h self)) - m_h) 2 in
  let pad_h_after :=
    Z.of_nat (dim (image_shape self) (i_h self)) - pad_h_before - m_h in
  m_w ← py_index mask_shape (Z.of_nat (i_w self));
  let pad_w_before :=
    Z.quot (Z.of_nat (dim (image_shape self) (i_w self)) - m_w) 2 in
  let pad_w_after :=
    Z.of_nat (dim (image_shape self) (i_w self)) - pad_w_before - m_w in
  mask ← pad mask (pad_h_before, pad_h_after) (pad_w_before, pad_w_after);
  let channel_index := if channels_first (estimator self) then 1 else 3 in
  let axis := channel_index - 1 in
  let mask := expand_dims mask axis in
  broadcast_to mask (patch_shape self).

Section Transforms.

(** [scipy.ndimage]: [rotate(x, angle, reshape=False, axes, order=1)],
    [shift(x, shift, order=1)] and [zoom(x, zoom, order=1)]. *)
Variable rotate : ndarray -> Q -> nat * nat -> ndarray.
Variable shift : ndarray -> Q * Q * Q -> ndarray.
Variable zoom : ndarray -> Q * Q * Q -> ndarray.

Variable self : attack.

Definition _rotate (x : ndarray) (angle : Q) : ndarray :=
  let axes := (i_h self, i_w self) in
  rotate x angle axes.

Definition _scale (x : ndarray) (scale : Q) : result ndarray :=
  let cf := channels_first (estimator self) in
  let zooms := if cf then (1, scale, scale)%Q else (scale, scale, 1)%Q in
  let '(height, width) :=
    if cf
    then (Z.of_nat (dim (patch_shape self) 1), Z.of_nat (dim (patch_shape self) 2))
    else (Z.of_nat (dim (patch_shape self) 0), Z.of_nat (dim (patch_shape self) 1)) in
  if Qltb scale 1 then
    let scale_h := round_half_even (inject_Z height * scale) in
    let scale_w := round_half_even (inject_Z width * scale) in
    let top := (height - scale_h) / 2 in
    let left := (width - scale_w) / 2 in
    let x_out := zeros_like x in
    x_out ← setitem x_out (sl top (top + scale_h)) (sl left (left + scale_w)) full
               (zoom x zooms);
    if cf then
      setitem x_out full (sl top (top + scale_h)) (sl left (left + scale_w))
        (zoom x zooms)
    else
      setitem x_out (sl top (top + scale_h)) (sl left (left + scale_w)) full
        (zoom x zooms)
  else if Qltb 1 scale then
    let scale_h := round_half_even (inject_Z height / scale) in
    let scale_w := round_half_even (inject_Z width / scale) in
    let top := (height - scale_h) / 2 in
    let left := (width - scale_w) / 2 in
    let x_out :=
      zoom (getitem x (sl top (top + scale_h)) (sl left (left + scale_w)) full)
        zooms in
    let cut_top := (Z.of_nat (dim (shape x_out) (i_h self)) - height) / 2 in
    let cut_left := (Z.of_nat (dim (shape x_out) (i_w self)) - width) / 2 in
    if cf then
      Ok (getitem x_out full (sl cut_top (cut_top + height))
            (sl cut_left (cut_left + width)))
    else
      Ok (getitem x_out (sl cut_top (cut_top + height))
            (sl cut_left (cut_left + width)) full)
  else Ok x.

Definition _shift (x : ndarray) (shift_h shift_w : Q) : ndarray * Q * Q :=
  let shift_hw :=
    if channels_first (estimator self)
    then (0, shift_h, shift_w)%Q else (shift_h, shift_w, 0)%Q in
  let x := shift x shift_hw in
  (x, shift_h, shift_w).

End Transforms.

(** The input handed to [generate]: either feature vectors (a
    two-dimensional array) or a batch of images. *)
Inductive batch : Type :=
| FeatureVectors (rows cols : nat)
| ImageBatch (images : list ndarray).

Section Optimizer.

Variable rotate : ndarray -> Q -> nat * nat -> ndarray.
Variable shift : ndarray -> Q * Q * Q -> ndarray.
Variable zoom : ndarray -> Q * Q * Q -> ndarray.

(** [random.random()]: the value returned by the n-th call. *)
Variable random_random : nat -> Q.

(** The classifier's [loss_gradient] and the type of its labels. *)
Variable label : Type.
Variable loss_gradient : list ndarray -> list label -> list ndarray.

(** What changes while the attack runs: [self.patch], the number of
    draws taken from the random generator, and the batches sent to
    [loss_gradient] so far. *)
Record state : Type := {
  patch : ndarray;
  random_calls : nat;
  gradient_queries : list (list ndarray * list label)
}.

Definition M (A : Type) : Type := state -> result A * state.

#[local] Instance M_ret : MRet M := fun A a s => (Ok a, s).
#[local] Instance M_bind : MBind M := fun A B k m s =>
  match m s with
  | (Ok a, s') => k a s'
  | (Raise e, s') => (Raise e, s')
  end.

Definition lift {A} (r : result A) : M A := fun s => (r, s).

Definition get_patch : M ndarray := fun s => (Ok (patch s), s).

Definition set_patch (p : ndarray) : M unit := fun s =>
  (Ok tt, {| patch := p; random_calls := random_calls s;
             gradient_queries := gradient_queries s |}).

(** [random.uniform(a, b)] is [a + (b - a) * random.random()]. *)
Definition random_uniform (a b : Q) : M Q := fun s =>
  (Ok (a + (b - a) * random_random (random_calls s))%Q,
   {| patch := patch s; random_calls := S (random_calls s);
      gradient_queries := gradient_queries s |}).

Definition call_loss_gradient (x : list ndarray) (y : list label)
  : M (list ndarray) := fun s =>
  (Ok (loss_gradient x y),
   {| patch := patch s; random_calls := random_calls s;
      gradient_queries := gradient_queries s ++ [(x, y)] |}).

Fixpoint for_eachM {A S} (xs : list A) (body : A -> S -> M S) (s : S) : M S :=
  match xs with
  | [] => mret s
  | x :: xs' => s' ← body x s; for_eachM xs' body s'
  end.

Variable self : attack.

Definition _random_transformation (patch : ndarray) (scale : option Q)
  : M (ndarray * ndarray * gmap string value) :=
  patch_mask ← lift (_get_circular_patch_mask self);
  let transformation : gmap string value := ∅ in
  (* rotate *)
  angle ← random_uniform (- rotation_max self) (rotation_max self);
  let transformation := <["rotate" := VFloat angle]> transformation in
  let patch := _rotate rotate self patch angle in
  let patch_mask := _rotate rotate self patch_mask angle in
  (* scale *)
  scale ← match scale with
          | None => random_uniform (scale_min self) (scale_max self)
          | Some scale => mret scale
          end;
  patch ← lift (_scale zoom self patch scale);
  patch_mask ← lift (_scale zoom self patch_mask scale);
  let transformation := <["scale" := VFloat scale]> transformation in
  (* shift *)
  let shift_max_h :=
    ((inject_Z (Z.of_nat (dim (input_shape (estimator self)) (i_h self)))
      - inject_Z (Z.of_nat (dim (patch_shape self) (i_h self))) * scale) / 2)%Q in
  let shift_max_w :=
    ((inject_Z (Z.of_nat (dim (input_shape (estimator self)) (i_w self)))
      - inject_Z (Z.of_nat (dim (patch_shape self) (i_w self))) * scale) / 2)%Q in
  if Qltb 0 shift_max_h && Qltb 0 shift_max_w then
    shift_h ← random_uniform (- shift_max_h) shift_max_h;
    shift_w ← random_uniform (- shift_max_w) shift_max_w;
    let '(patch, _, _) := _shift shift self patch shift_h shift_w in
    let '(patch_mask, shift_1, shift_2) :=
      _shift shift self patch_mask shift_h shift_w in
    let transformation := <["shift_1" := VFloat shift_1]> transformation in
    let transformation := <["shift_2" := VFloat shift_2]> transformation in
    mret (patch, patch_mask, transformation)
  else
    let transformation := <["shift" := VTuple [0; 0; 0]]> transformation in
    mret (patch, patch_mask, transformation).

(** [transformation[key]] *)
Definition dict_get (transformation : gmap string value) (key : string)
  : result value :=
  match transformation !! key with
  | Some v => Ok v
  | None => Raise (KeyError key)
  end.

(** Use of a dictionary value as a number. *)
Definition as_float (v : value) : result Q :=
  match v with
  | VFloat q => Ok q
  | VTuple _ => Raise (TypeError "bad operand type: tuple")
  end.

Definition _reverse_transformation (gradients patch_mask_transformed : ndarray)
    (transformation : gmap string value) : result ndarray :=
  gradients ← binop Qmult gradients patch_mask_transformed;
  (* shift *)
  shift_h ← dict_get transformation "shift_h";
  shift_w ← dict_get transformation "shift_w";
  shift_h ← as_float shift_h;
  shift_w ← as_float shift_w;
  let '(gradients, _, _) := _shift shift self gradients (- shift_h) (- shift_w) in
  (* scale *)
  scale ← dict_get transformation "scale";
  scale ← as_float scale;
  _ ← (if Qeq_bool scale 0 then Raise ZeroDivisionError else Ok tt);
  gradients ← _scale zoom self gradients (1 / scale);
  (* rotate *)
  angle ← dict_get transformation "rotate";
  angle ← as_float angle;
  Ok (_rotate rotate self gradients (- angle)).

(** [_augment_images_with_random_patch] *)
Definition _augment_images_with_random_patch (images : list ndarray)
    (patch : ndarray) (scale : option Q)
  : M (list ndarray * list ndarray * list (gmap string value)) :=
  '(patched_images, patch_mask_transformed_list, transformations) ←
    for_eachM images
      (fun image '(patched_images, patch_mask_transformed_list, transformations) =>
         '(patch_transformed, patch_mask_transformed, transformation) ←
           _random_transformation patch scale;
         let inverted_patch_mask_transformed :=
           map_items (fun m => 1 - m)%Q patch_mask_transformed in
         background ← lift (binop Qmult image inverted_patch_mask_transformed);
         foreground ← lift (binop Qmult patch_transformed patch_mask_transformed);
         patched_image ← lift (binop Qplus background foreground);
         mret (patched_images ++ [patched_image],
               patch_mask_transformed_list ++ [patch_mask_transformed],
               transformations ++ [transformation]))
      ([], [], []);
  patched_images ← lift (concatenate patched_images);
  patch_mask_transformed_np ← lift (concatenate patch_mask_transformed_list);
  mret (patched_images, patch_mask_transformed_np, transformations).

(** [int(x.shape[0] / self.batch_size)] *)
Definition int_div (n b : Z) : result Z :=
  if b =? 0 then Raise ZeroDivisionError else Ok (Z.quot n b).

(** One pass of the body of the [for _ in trange(self.max_iter)] loop of
    [generate]. *)
Definition generate_iteration (x : list ndarray) (y_target : list label)
  : M unit :=
  patch ← get_patch;
  '(patched_images, patch_mask_transformed, transforms) ←
    _augment_images_with_random_patch x patch None;
  num_batches ← lift (int_div (Z.of_nat (length x)) (batch_size self));
  let patch_gradients := zeros_like patch in
  patch_gradients ←
    for_eachM (py_range num_batches)
      (fun i_batch patch_gradients =>
         let i_batch_start := i_batch * batch_size self in
         let i_batch_end := (i_batch + 1) * batch_size self in
         gradients ←
           call_loss_gradient
             (batch_slice patched_images i_batch_start i_batch_end)
             (batch_slice y_target i_batch_start i_batch_end);
         for_eachM (py_range (batch_size self))
           (fun i_image patch_gradients =>
              g ← lift (py_index gradients i_image);
              m ← lift (py_index patch_mask_transformed i_image);
              t ← lift (py_index transforms i_image);
              patch_gradients_i ← lift (_reverse_transformation g m t);
              lift (inplace Qplus patch_gradients patch_gradients_i))
           patch_gradients)
      patch_gradients;
  patch ← get_patch;
  patch ← lift (inplace Qminus patch
                  (map_items (fun g => g * learning_rate self)%Q patch_gradients));
  set_patch (clip patch (fst (clip_values (estimator self)))
               (snd (clip_values (estimator self)))).

(** [generate]; [y_target] is the label array after
    [check_and_transform_label_format]. *)
Definition generate (x : batch) (y_target : list label)
  : M (ndarray * ndarray) :=
  match x with
  | FeatureVectors _ _ =>
      lift (Raise (ValueError
        "Feature vectors detected. The adversarial patch can only be applied to data with spatial dimensions."))
  | ImageBatch images =>
      _ ← for_eachM (py_range (max_iter self))
            (fun _ _ => generate_iteration images y_target) tt;
      patch ← get_patch;
      mask ← lift (_get_circular_patch_mask self);
      mret (patch, mask)
  end.

(** [apply_patch] *)
Definition apply_patch (x : list ndarray) (scale : Q)
    (patch_external : option ndarray) : M (list ndarray) :=
  self_patch ← get_patch;
  let patch := match patch_external with Some p => p | None => self_patch end in
  '(patched_x, _, _) ← _augment_images_with_random_patch x patch (Some scale);
  mret patched_x.

End Optimizer.

Arguments patch {label}.
Arguments random_calls {label}.
Arguments gradient_queries {label}.

End AdversarialPatchNumpy.

(** ** Reference definitions taken from the specification's wording *)

Module Spec.

(** Interval lower bound of the zonotope of [logit[p] - logit[k]]: the
    difference of the centers minus the sum of the absolute values of the
    differenced error-term entries. *)
Definition difference_lower_bound (cent : list Q) (eps : list (list Q))
    (p k : Z) : Q :=
  let at_ (row : list Q) (i : Z) := nth (Z.to_nat i) row 0%Q in
  ((at_ cent p - at_ cent k)
   - Qsum (map Qabs (map (fun row => at_ row p - at_ row k) eps)))%Q.

(** The three supported layer types, and everything else. *)
Inductive layer_kind : Type := KConv | KDense | KReLU | KOther.

#[global] Instance layer_kind_eq_dec : EqDecision layer_kind.
Proof. solve_decision. Defined.

Definition kind_of_module {T} (m : ConvertedModel.torch_module T) : layer_kind :=
  match m with
  | ConvertedModel.Conv2d _ _ _ _ _ _ _ _ => KConv
  | ConvertedModel.Linear _ _ _ _ => KDense
  | ConvertedModel.ReLU => KReLU
  | ConvertedModel.OtherModule _ => KOther
  end.

Definition kind_of_op {T} (op : ConvertedModel.zono_op T) : layer_kind :=
  match op with
  | ConvertedModel.ZonoConv _ _ _ _ _ _ _ _ => KConv
  | ConvertedModel.ZonoDenseLayer _ _ _ _ => KDense
  | ConvertedModel.ZonoReLU => KReLU
  end.

(** Position [i] holds a dense layer immediately preceded by a
    convolution, or by a ReLU itself preceded by a convolution. *)
Definition reshape_candidate (ks : list layer_kind) (i : nat) : bool :=
  bool_decide (ks !! i = Some KDense)
  && match i with
     | O => false
     | S j =>
         bool_decide (ks !! j = Some KConv)
         || (bool_decide (ks !! j = Some KReLU)
             && match j with
                | O => false
                | S h => bool_decide (ks !! h = Some KConv)
                end)
     end.

(** The first such position, if there is one. *)
Definition first_reshape_point (ks : list layer_kind) : option Z :=
  Z.of_nat <$> find (reshape_candidate ks) (seq 0 (length ks)).

(** The pattern the certifier documents as unsupported: a dense layer
    somewhere before a convolution. *)
Definition dense_before_conv (ks : list layer_kind) : Prop :=
  exists i j, (i < j)%nat /\ ks !! i = Some KDense /\ ks !! j = Some KConv.

(** Every convolution and dense layer of the network was built with a
    bias (the default). *)
Definition carries_bias {T} (m : ConvertedModel.torch_module T) : Prop :=
  match m with
  | ConvertedModel.Conv2d _ _ _ _ _ _ _ b => is_Some b
  | ConvertedModel.Linear _ _ _ b => is_Some b
  | _ => True
  end.

(** Output shape of [scipy.ndimage.zoom]: every axis length times its
    zoom factor, rounded. *)
Definition zoomed_shape (s : nat * nat * nat) (z : Q * Q * Q) : nat * nat * nat :=
  let '(d0, d1, d2) := s in
  let '(z0, z1, z2) := z in
  (Z.to_nat (Np.round_half_even (inject_Z (Z.of_nat d0) * z0)),
   Z.to_nat (Np.round_half_even (inject_Z (Z.of_nat d1) * z1)),
   Z.to_nat (Np.round_half_even (inject_Z (Z.of_nat d2) * z2))).

Definition zoom_shape_law (zoom : Np.ndarray -> Q * Q * Q -> Np.ndarray) : Prop :=
  forall x z, Np.shape (zoom x z) = zoomed_shape (Np.shape x) z.

(** Stand-ins for the [scipy.ndimage] functions, used to run the attack on
    concrete inputs: a zoom that samples the input on the output grid, and a
    rotation and a shift that leave the array as it is. *)
Definition zoom_sampled (x : Np.ndarray) (z : Q * Q * Q) : Np.ndarray :=
  let '(d0, d1, d2) := Np.shape x in
  let '(o0, o1, o2) := zoomed_shape (Np.shape x) z in
  {| Np.shape := (o0, o1, o2);
     Np.item := fun i j k =>
       Np.item x (i * d0 / o0)%nat (j * d1 / o1)%nat (k * d2 / o2)%nat |}.

Definition rotate_still (x : Np.ndarray) (angle : Q) (axes : nat * nat)
  : Np.ndarray := x.

Definition shift_still (x : Np.ndarray) (offsets : Q * Q * Q) : Np.ndarray := x.

(** An attack object on a channels-last classifier, as [__init__] lays it
    out: the spatial axes are 0 and 1 and the patch has the image shape. *)
Definition channels_last (self : AdversarialPatchNumpy.attack) : Prop :=
  AdversarialPatchNumpy.channels_first (AdversarialPatchNumpy.estimator self) = false
  /\ AdversarialPatchNumpy.i_h self = 0%nat
  /\ AdversarialPatchNumpy.i_w self = 1%nat
  /\ AdversarialPatchNumpy.image_shape self
     = AdversarialPatchNumpy.input_shape (AdversarialPatchNumpy.estimator self)
  /\ AdversarialPatchNumpy.patch_shape self = AdversarialPatchNumpy.image_shape self.

(** A 4 x 4 single-channel, channels-last classifier and the attack built
    on it with the default parameters. *)
Definition small_classifier : AdversarialPatchNumpy.estimator_t :=
  {| AdversarialPatchNumpy.input_shape := (4, 4, 1)%nat;
     AdversarialPatchNumpy.channels_first := false;
     AdversarialPatchNumpy.clip_values := (0, 1)%Q;
     AdversarialPatchNumpy.nb_classes := 10 |}.

Definition small_attack : AdversarialPatchNumpy.attack :=
  match AdversarialPatchNumpy.__init__ small_classifier 0
          (45 # 2) (1 # 10) 1 5 500 16 with
  | Ok (self, _) => self
  | Raise _ =>
      {| AdversarialPatchNumpy.estimator := small_classifier;
         AdversarialPatchNumpy.target := 0;
         AdversarialPatchNumpy.rotation_max := 0;
         AdversarialPatchNumpy.scale_min := 0;
         AdversarialPatchNumpy.scale_max := 0;
         AdversarialPatchNumpy.learning_rate := 0;
         AdversarialPatchNumpy.max_iter := 0;
         AdversarialPatchNumpy.batch_size := 0;
         AdversarialPatchNumpy.image_shape := (0, 0, 0)%nat;
         AdversarialPatchNumpy.i_h := 0;
         AdversarialPatchNumpy.i_w := 0;
         AdversarialPatchNumpy.patch_shape := (0, 0, 0)%nat |}
  end.

(** The same on a 1 x 4 x 4 channels-first classifier. *)
Definition small_classifier_cf : AdversarialPatchNumpy.estimator_t :=
  {| AdversarialPatchNumpy.input_shape := (1, 4, 4)%nat;
     AdversarialPatchNumpy.channels_first := true;
     AdversarialPatchNumpy.clip_values := (0, 1)%Q;
     AdversarialPatchNumpy.nb_classes := 10 |}.

Definition small_attack_cf : AdversarialPatchNumpy.attack :=
  match AdversarialPatchNumpy.__init__ small_classifier_cf 0
          (45 # 2) (1 # 10) 1 5 500 16 with
  | Ok (self, _) => self
  | Raise _ => small_attack
  end.

(** A 3 x 5 single-channel, channels-last classifier and its attack. *)
Definition wide_classifier : AdversarialPatchNumpy.estimator_t :=
  {| AdversarialPatchNumpy.input_shape := (3, 5, 1)%nat;
     AdversarialPatchNumpy.channels_first := false;
     AdversarialPatchNumpy.clip_values := (0, 1)%Q;
     AdversarialPatchNumpy.nb_classes := 10 |}.

Definition wide_attack : AdversarialPatchNumpy.attack :=
  match AdversarialPatchNumpy.__init__ wide_classifier 0
          (45 # 2) (1 # 10) 1 5 500 16 with
  | Ok (self, _) => self
  | Raise _ => small_attack
  end.

(** The largest shift that keeps a patch scaled by [scale] inside the
    image, along axis [axis]. *)
Definition shift_max (self : AdversarialPatchNumpy.attack) (axis : nat)
    (scale : Q) : Q :=
  ((inject_Z (Z.of_nat (Np.dim (AdversarialPatchNumpy.input_shape
                                  (AdversarialPatchNumpy.estimator self)) axis))
    - inject_Z (Z.of_nat (Np.dim (AdversarialPatchNumpy.patch_shape self) axis))
      * scale) / 2)%Q.

(** A transformation dictionary before the shift entries are written. *)
Definition base_record (angle scale : Q)
  : gmap string AdversarialPatchNumpy.value :=
  <["scale" := AdversarialPatchNumpy.VFloat scale]>
    (<["rotate" := AdversarialPatchNumpy.VFloat angle]> ∅).

(** [random.uniform(a, b)] at the draw [u] of [random.random()]. *)
Definition uniform_at (a b u : Q) : Q := (a + (b - a) * u)%Q.

(** The state of a fresh attack object: its patch, no random draw taken,
    no gradient query made. *)
Definition fresh_state (label : Type) (patch : Np.ndarray)
  : AdversarialPatchNumpy.state label :=
  {| AdversarialPatchNumpy.patch := patch;
     AdversarialPatchNumpy.random_calls := 0;
     AdversarialPatchNumpy.gradient_queries := [] |}.

(** A computation that leaves the log of gradient queries and the patch
    alone. *)
Definition quiet {label A : Type} (m : AdversarialPatchNumpy.M label A) : Prop :=
  forall s r s',
    m s = (r, s') ->
    AdversarialPatchNumpy.gradient_queries s'
    = AdversarialPatchNumpy.gradient_queries s
    /\ AdversarialPatchNumpy.patch s' = AdversarialPatchNumpy.patch s.

(** The attack on the small channels-last classifier with batches of one
    image. *)
Definition small_attack_b1 : AdversarialPatchNumpy.attack :=
  match AdversarialPatchNumpy.__init__ small_classifier 0
          (45 # 2) (1 # 10) 1 5 500 1 with
  | Ok (self, _) => self
  | Raise _ => small_attack
  end.

(** Two arrays of one shape whose entries are equal as numbers. *)
Definition equivalent_array (a b : Np.ndarray) : Prop :=
  Np.shape a = Np.shape b
  /\ forall i j k,
       (i < Np.dim (Np.shape a) 0)%nat -> (j < Np.dim (Np.shape a) 1)%nat ->
       (k < Np.dim (Np.shape a) 2)%nat ->
       (Np.item a i j k == Np.item b i j k)%Q.

(** Value of the circular footprint at row [i] and column [j] of a grid of
    [d] x [d] points spanning [-1, 1] in both directions. *)
Definition footprint (d i j : nat) : Q :=
  (1 - Np.Qclip ((Np.linspace (-1) 1 d j ^ 2 + Np.linspace (-1) 1 d i ^ 2) ^ 40)
         (-1) 1)%Q.

(** Two arrays of one shape with the same entries. *)
Definition same_array (a b : Np.ndarray) : Prop :=
  Np.shape a = Np.shape b
  /\ forall i j k,
       (i < Np.dim (Np.shape a) 0)%nat -> (j < Np.dim (Np.shape a) 1)%nat ->
       (k < Np.dim (Np.shape a) 2)%nat ->
       Np.item a i j k = Np.item b i j k.

(** [content] placed at the center of a zero array whose first two axes
    have lengths [height] and [width]. *)
Definition center_pad (content : Np.ndarray) (height width : nat) : Np.ndarray :=
  let '(h, w, c) := Np.shape content in
  let top := ((height - h) / 2)%nat in
  let left := ((width - w) / 2)%nat in
  {| Np.shape := (height, width, c);
     Np.item := fun i j k =>
       if Np.within top h i && Np.within left w j
       then Np.item content (i - top) (j - left) k else 0%Q |}.

(** The central [height] x [width] window of [content]. *)
Definition center_crop (content : Np.ndarray) (height width : nat) : Np.ndarray :=
  let '(h, w, c) := Np.shape content in
  let top := ((h - height) / 2)%nat in
  let left := ((w - width) / 2)%nat in
  {| Np.shape := (height, width, c);
     Np.item := fun i j k => Np.item content (top + i) (left + j) k |}.

(** An array of the given shape with the same value everywhere. *)
Definition constant (s : nat * nat * nat) (q : Q) : Np.ndarray :=
  {| Np.shape := s; Np.item := fun _ _ _ => q |}.

(** Applying a sequence of layers one after the other, [run] being the way
    one layer is applied. *)
Definition run_layers {T data : Type}
    (run : ConvertedModel.zono_op T -> data -> result data)
    (layers : list (ConvertedModel.zono_op T)) (x : data) : result data :=
  for_each layers run x.

(** A layer the converter can translate: one of the three supported types,
    with a bias where the type has one. *)
Definition convertible {T} (m : ConvertedModel.torch_module T) : Prop :=
  carries_bias m /\ kind_of_module m <> KOther.

(** Shape laws of [scipy.ndimage.rotate(..., reshape=False)] and
    [scipy.ndimage.shift]: the output has the shape of the input. *)
Definition rotate_shape_law (rotate : Np.ndarray -> Q -> nat * nat -> Np.ndarray)
  : Prop :=
  forall x angle axes, Np.shape (rotate x angle axes) = Np.shape x.

Definition shift_shape_law (shift : Np.ndarray -> Q * Q * Q -> Np.ndarray)
  : Prop :=
  forall x offsets, Np.shape (shift x offsets) = Np.shape x.

(** [patched] is [image] with a transformed patch of shape [ps] blended
    in by [mask]: [image * (1 - mask) + patch * mask], entry by entry. *)
Definition blended (ps : nat * nat * nat) (image patched mask : Np.ndarray)
  : Prop :=
  Np.shape patched = ps /\ Np.shape mask = ps
  /\ exists p,
       Np.shape p = ps
       /\ forall i j k,
            Np.item patched i j k
            = (Np.item image i j k * (1 - Np.item mask i j k)
               + Np.item p i j k * Np.item mask i j k)%Q.

End Spec.

(** * Properties *)

(** ** Generic facts about the embedding of Python *)

Lemma Qpositive_spec q : Qpositive q = true <-> (0 < q)%Q.
Proof.
  unfold Qpositive. rewrite Qlt_alt.
  destruct (0 ?= q)%Q; split; congruence.
Qed.

Lemma for_each_ok {A S} (g : A -> S -> S) (xs : list A)
    (body : A -> S -> result S) (s : S) :
  (forall x s', x ∈ xs -> body x s' = Ok (g x s')) ->
  for_each xs body s = Ok (foldl (fun s' x => g x s') s xs).
Proof.
  revert s. induction xs as [|x xs IH]; intros s Hbody; simpl; [reflexivity|].
  rewrite Hbody by apply list_elem_of_here. simpl.
  apply IH. intros y s' Hy. apply Hbody. now apply list_elem_of_further.
Qed.

Lemma py_index_in_range {A} (l : list A) (i : Z) (d : A) :
  0 <= i < Z.of_nat (length l) ->
  py_index l i = Ok (nth (Z.to_nat i) l d).
Proof.
  intros Hi. unfold py_index.
  destruct (Z.ltb_spec i 0) as [?|_]; [lia|].
  destruct (Z.leb_spec 0 i) as [_|?]; [|lia].
  destruct (Z.ltb_spec i (Z.of_nat (length l))) as [_|?]; [|lia]. simpl.
  destruct (l !! Z.to_nat i) as [a|] eqn:E.
  - f_equal. symmetry. now apply nth_lookup_Some with (d := d) in E.
  - apply lookup_ge_None in E. lia.
Qed.

Lemma py_all_true (bs : list bool) :
  py_all bs = true <-> forall b, b ∈ bs -> b = true.
Proof.
  unfold py_all. rewrite forallb_forall. unfold id.
  split; intros H b Hb; apply H; now apply list_elem_of_In.
Qed.

(** ** Certification *)

Section CertifyFacts.

Import DeepZ.

Lemma collect_differences (p k : Z) (n : nat) (eps : list (list Q)) acc :
  0 <= p < Z.of_nat n -> 0 <= k < Z.of_nat n ->
  Forall (fun row => length row = n) eps ->
  for_each eps
    (fun row acc =>
       e_p ← py_index row p;
       e_k ← py_index row k;
       Ok (acc ++ [(e_p - e_k)%Q]))
    acc
  = Ok (acc ++ map (fun row => (nth (Z.to_nat p) row 0 - nth (Z.to_nat k) row 0)%Q) eps).
Proof.
  intros Hp Hk Hrows. revert acc.
  induction Hrows as [|row eps Hrow _ IH]; intros acc; simpl.
  - now rewrite app_nil_r.
  - rewrite (py_index_in_range row p 0%Q) by lia. simpl.
    rewrite (py_index_in_range row k 0%Q) by lia. simpl.
    rewrite IH. now rewrite <- app_assoc.
Qed.

(** On a well-shaped zonotope the helper modelled from the specification
    computes the sign of the specified lower bound. *)
Lemma certify_via_subtraction_ok (p k : Z) (cent : list Q) (eps : list (list Q)) :
  0 <= p < Z.of_nat (length cent) -> 0 <= k < Z.of_nat (length cent) ->
  Forall (fun row => length row = length cent) eps ->
  certify_via_subtraction p k cent eps
  = Ok (Qpositive (Spec.difference_lower_bound cent eps p k)).
Proof.
  intros Hp Hk Hrows. unfold certify_via_subtraction.
  rewrite (py_index_in_range cent p 0%Q) by lia. simpl.
  rewrite (py_index_in_range cent k 0%Q) by lia. simpl.
  rewrite (collect_differences p k (length cent)) by assumption. simpl.
  reflexivity.
Qed.

(** The loop of [certify] when every helper call returns. *)
Lemma certify_loop (prediction : Z) (f : Z -> bool)
    (helper : Z -> Z -> list Q -> list (list Q) -> result bool)
    (cent : list Q) (eps : list (list Q)) (ks : list Z) acc :
  (forall k, k ∈ ks -> k <> prediction -> helper prediction k cent eps = Ok (f k)) ->
  for_each ks
    (fun k results =>
       if negb (k =? prediction) then
         r ← helper prediction k cent eps; Ok (results ++ [r])
       else Ok results)
    acc
  = Ok (acc ++ map f (filter (fun k => k <> prediction) ks)).
Proof.
  revert acc. induction ks as [|k ks IH]; intros acc Hh; simpl.
  - now rewrite app_nil_r.
  - destruct (Z.eqb_spec k prediction) as [->|Hne]; simpl.
    + rewrite IH by (intros; apply Hh; [now apply list_elem_of_further|assumption]).
      rewrite filter_cons_False by tauto. reflexivity.
    + rewrite Hh by (apply list_elem_of_here || assumption). simpl.
      rewrite IH by (intros; apply Hh; [now apply list_elem_of_further|assumption]).
      rewrite filter_cons_True by assumption. simpl.
      now rewrite <- app_assoc.
Qed.

End CertifyFacts.

(** C2. On a final-layer zonotope with a logit for every class, [certify]
    returns, and it returns true exactly when, for every class [k] other
    than the predicted one, the interval lower bound of
    [logit[p] - logit[k]] is strictly positive; a single failing class makes
    it return false. *)
Theorem certify_iff_lower_bounds_positive
    (ndarray : Type) (forward : ndarray -> ndarray -> result (list Q * list (list Q)))
    (nb_classes : Z) (cent eps : ndarray) (p : Z)
    (c : list Q) (e : list (list Q)) :
  forward cent eps = Ok (c, e) ->
  0 <= p < nb_classes ->
  nb_classes <= Z.of_nat (length c) ->
  Forall (fun row => length row = length c) e ->
  exists b : bool,
    DeepZ.certify ndarray forward nb_classes DeepZ.certify_via_subtraction cent eps p
    = Ok b
    /\ (b = true <->
        forall k, 0 <= k < nb_classes -> k <> p ->
                  (0 < Spec.difference_lower_bound c e p k)%Q)
    /\ ((exists k, 0 <= k < nb_classes /\ k <> p /\
                   ~ (0 < Spec.difference_lower_bound c e p k)%Q) ->
        b = false).
Proof.
  intros Hfw Hp Hnb Hrows.
  set (f := fun k => Qpositive (Spec.difference_lower_bound c e p k)).
  assert (Hrun : DeepZ.certify ndarray forward nb_classes
                   DeepZ.certify_via_subtraction cent eps p
                 = Ok (py_all (map f (filter (fun k => k <> p) (py_range nb_classes))))).
  { unfold DeepZ.certify. rewrite Hfw. simpl.
    rewrite (certify_loop p f).
    - reflexivity.
    - intros k Hk _. apply elem_of_seqZ in Hk.
      apply certify_via_subtraction_ok; [lia|lia|assumption]. }
  assert (Hiff : py_all (map f (filter (fun k => k <> p) (py_range nb_classes))) = true <->
                 forall k, 0 <= k < nb_classes -> k <> p ->
                           (0 < Spec.difference_lower_bound c e p k)%Q).
  { rewrite py_all_true. split.
    - intros H k Hk Hne. apply Qpositive_spec. apply H.
      apply list_elem_of_fmap. exists k. split; [reflexivity|].
      apply list_elem_of_filter. split; [assumption|].
      apply elem_of_seqZ. lia.
    - intros H b Hb. apply list_elem_of_fmap in Hb as [k [-> Hk]].
      apply list_elem_of_filter in Hk as [Hne Hk]. apply elem_of_seqZ in Hk.
      apply Qpositive_spec. apply H; [lia|assumption]. }
  eexists. split; [exact Hrun|]. split; [exact Hiff|].
  intros [k [Hk [Hne Hfail]]].
  apply not_true_is_false. intros Htrue. apply Hfail.
  now apply Hiff.
Qed.

Lemma certify_iff_lower_bounds_positive_witness :
  exists b : bool,
    DeepZ.certify unit (fun _ _ => Ok ([3; 1]%Q, [[1 # 2; 0]; [0; 1 # 4]]%Q)) 2
      DeepZ.certify_via_subtraction tt tt 0 = Ok b
    /\ (b = true <->
        forall k, 0 <= k < 2 -> k <> 0 ->
          (0 < Spec.difference_lower_bound [3; 1] [[1 # 2; 0]; [0; 1 # 4]] 0 k)%Q)
    /\ ((exists k, 0 <= k < 2 /\ k <> 0 /\
           ~ (0 < Spec.difference_lower_bound [3; 1] [[1 # 2; 0]; [0; 1 # 4]] 0 k)%Q) ->
        b = false).
Proof.
  apply (certify_iff_lower_bounds_positive unit
           (fun _ _ => Ok ([3; 1]%Q, [[1 # 2; 0]; [0; 1 # 4]]%Q)) 2 tt tt 0).
  - reflexivity.
  - lia.
  - simpl. lia.
  - repeat constructor.
Defined.

(** C9, as amended. With a single class and the prediction 0, the only
    class index there is, the loop of [certify] makes no comparison and
    [certify] returns true, whatever the helper and the final zonotope. *)
Theorem certify_single_class_prediction_zero
    (ndarray : Type) (forward : ndarray -> ndarray -> result (list Q * list (list Q)))
    (helper : Z -> Z -> list Q -> list (list Q) -> result bool)
    (cent eps : ndarray) (c : list Q) (e : list (list Q)) :
  forward cent eps = Ok (c, e) ->
  DeepZ.certify ndarray forward 1 helper cent eps 0 = Ok true.
Proof.
  intros Hfw. unfold DeepZ.certify. rewrite Hfw. reflexivity.
Qed.

Lemma certify_single_class_prediction_zero_witness :
  DeepZ.certify unit (fun _ _ => Ok ([0]%Q, [[1]]%Q)) 1
    DeepZ.certify_via_subtraction tt tt 0 = Ok true.
Proof.
  apply (certify_single_class_prediction_zero unit _ _ tt tt [0]%Q [[1]]%Q).
  reflexivity.
Defined.

(** C9 as stated fails for a prediction other than 0: the loop then
    compares the prediction against class 0 and [certify] returns what that
    comparison yields.  First with one logit and the prediction -1 (which
    addresses that same logit), then with two logits and the prediction 1. *)
Lemma certify_single_class_not_always_true :
  DeepZ.certify unit (fun _ _ => Ok ([0]%Q, [[1]]%Q)) 1
    DeepZ.certify_via_subtraction tt tt (-1) = Ok false
  /\ DeepZ.certify unit (fun _ _ => Ok ([1; 0]%Q, [[0; 0]]%Q)) 1
       DeepZ.certify_via_subtraction tt tt 1 = Ok false.
Proof. split; reflexivity. Qed.

(** ** Conversion *)

Section ConversionFacts.

Import ConvertedModel Spec.

Context {T : Type}.

Lemma convert_modules_ok (modules : list (torch_module T)) acc :
  Forall carries_bias modules ->
  KOther ∉ map kind_of_module modules ->
  exists ops', for_each modules (convert_module T) acc = Ok (acc ++ ops')
               /\ map kind_of_op ops' = map kind_of_module modules.
Proof.
  intros Hb. revert acc. induction Hb as [|m modules Hm _ IH]; intros acc Hk.
  - exists []. now rewrite app_nil_r.
  - simpl in Hk. apply not_elem_of_cons in Hk as [Hm' Hk].
    destruct m as [ic oc ks st dl pd w [b|] | fi fo w [b|] | | name];
      simpl in *; try (exfalso; eapply is_Some_None; exact Hm); try congruence.
    + destruct (IH (acc ++ [ZonoConv ic oc ks st dl pd w b]) Hk) as (ops' & -> & E).
      eexists (_ :: ops'). rewrite <- app_assoc. simpl. now rewrite E.
    + destruct (IH (acc ++ [ZonoDenseLayer fi fo w b]) Hk) as (ops' & -> & E).
      eexists (_ :: ops'). rewrite <- app_assoc. simpl. now rewrite E.
    + destruct (IH (acc ++ [ZonoReLU]) Hk) as (ops' & -> & E).
      eexists (_ :: ops'). rewrite <- app_assoc. simpl. now rewrite E.
Qed.

Lemma convert_modules_unsupported (modules : list (torch_module T)) acc :
  Forall carries_bias modules ->
  KOther ∈ map kind_of_module modules ->
  for_each modules (convert_module T) acc = Raise unsupported.
Proof.
  intros Hb. revert acc. induction Hb as [|m modules Hm _ IH]; intros acc Hk.
  - simpl in Hk. now apply elem_of_nil in Hk.
  - simpl in Hk. apply elem_of_cons in Hk.
    destruct m as [ic oc ks st dl pd w [b|] | fi fo w [b|] | | name];
      simpl in *; try (exfalso; eapply is_Some_None; exact Hm);
      try reflexivity;
      (destruct Hk as [Hk|Hk]; [discriminate Hk|]); now apply IH.
Qed.

Lemma py_index_lookup {A} (l : list A) (i : Z) (j : nat) (a : A) :
  l !! j = Some a ->
  (i = Z.of_nat j \/ i = Z.of_nat j - Z.of_nat (length l)) ->
  py_index l i = Ok a.
Proof.
  intros Hj Hi. pose proof (lookup_lt_Some _ _ _ Hj) as Hlt.
  unfold py_index.
  replace (if i <? 0 then i + Z.of_nat (length l) else i) with (Z.of_nat j)
    by (destruct (Z.ltb_spec i 0); lia).
  destruct (Z.leb_spec 0 (Z.of_nat j)); [|lia].
  destruct (Z.ltb_spec (Z.of_nat j) (Z.of_nat (length l))); [|lia]. simpl.
  now rewrite Nat2Z.id, Hj.
Qed.

Lemma is_conv_kind (op : zono_op T) :
  is_ZonoConv T op = bool_decide (kind_of_op op = KConv).
Proof. now destruct op. Qed.

Lemma is_relu_kind (op : zono_op T) :
  is_ZonoReLU T op = bool_decide (kind_of_op op = KReLU).
Proof. now destruct op. Qed.

Lemma is_dense_kind (op : zono_op T) :
  is_ZonoDenseLayer T op = bool_decide (kind_of_op op = KDense).
Proof. now destruct op. Qed.

Lemma no_conv_from_dense (ks : list layer_kind) (i j : nat) :
  ~ dense_before_conv ks ->
  ks !! i = Some KDense -> (i <= j)%nat -> ks !! j <> Some KConv.
Proof.
  intros Hno Hi Hij Hj. destruct (decide (i = j)) as [->|Hne].
  - congruence.
  - apply Hno. exists i, j. repeat split; [lia|assumption|assumption].
Qed.

(** One pass of the second loop, on a network without a dense layer
    before a convolution. *)
Lemma infer_reshape_step (ops : list (zono_op T)) (i : nat) (op : zono_op T) r :
  ops !! i = Some op ->
  ~ dense_before_conv (map kind_of_op ops) ->
  infer_reshape T ops (Z.of_nat i, op) r
  = Ok (if reshape_candidate (map kind_of_op ops) i then Some (Z.of_nat i) else r).
Proof.
  intros Hop Hno.
  assert (Hk : forall j o, ops !! j = Some o ->
                 map kind_of_op ops !! j = Some (kind_of_op o)).
  { intros j o Hj. now rewrite list_lookup_fmap, Hj. }
  pose proof (lookup_lt_Some _ _ _ Hop) as Hlt.
  unfold infer_reshape, reshape_candidate.
  rewrite (Hk _ _ Hop), is_dense_kind.
  destruct (decide (kind_of_op op = KDense)) as [Hd|Hd].
  2:{ rewrite !bool_decide_eq_false_2 by congruence. reflexivity. }
  rewrite !bool_decide_eq_true_2 by congruence. simpl.
  assert (Hafter : forall j o, ops !! j = Some o -> (i <= j)%nat ->
                     kind_of_op o <> KConv).
  { intros j o Hj Hij Hc.
    apply (no_conv_from_dense _ i j Hno); [rewrite (Hk _ _ Hop); congruence|lia|].
    rewrite (Hk _ _ Hj). congruence. }
  destruct i as [|[|h]].
  - (* [ops[-1]] is the last layer *)
    destruct (lookup_lt_is_Some_2 ops (length ops - 1)) as [prev Hprev]; [lia|].
    rewrite (py_index_lookup ops (Z.of_nat 0 - 1) _ prev Hprev) by lia. simpl.
    rewrite is_conv_kind, is_relu_kind.
    rewrite (bool_decide_eq_false_2 (kind_of_op prev = KConv))
      by (apply (Hafter _ _ Hprev); lia).
    destruct (decide (kind_of_op prev = KReLU)) as [Hr|Hr].
    + rewrite bool_decide_eq_true_2 by assumption.
      assert (length ops - 1 <> 0)%nat by (intros E; rewrite E in Hprev; congruence).
      destruct (lookup_lt_is_Some_2 ops (length ops - 2)) as [prev2 Hprev2]; [lia|].
      rewrite (py_index_lookup ops (Z.of_nat 0 - 2) _ prev2 Hprev2) by lia. simpl.
      rewrite is_conv_kind.
      rewrite (bool_decide_eq_false_2 (kind_of_op prev2 = KConv))
        by (apply (Hafter _ _ Hprev2); lia).
      reflexivity.
    + rewrite bool_decide_eq_false_2 by assumption. reflexivity.
  - (* [ops[0]] precedes; [ops[-1]] is the last layer *)
    destruct (lookup_lt_is_Some_2 ops 0) as [prev Hprev]; [lia|].
    rewrite (py_index_lookup ops (Z.of_nat 1 - 1) _ prev Hprev) by lia. simpl.
    rewrite (Hk _ _ Hprev), is_conv_kind, is_relu_kind.
    destruct (decide (kind_of_op prev = KReLU)) as [Hr|Hr].
    + rewrite (bool_decide_eq_true_2 (kind_of_op prev = KReLU)) by assumption.
      rewrite (bool_decide_eq_true_2 (Some _ = Some KReLU)) by congruence.
      rewrite !(bool_decide_eq_false_2 (_ = KConv)) by congruence.
      rewrite !(bool_decide_eq_false_2 (Some _ = Some KConv)) by congruence.
      destruct (lookup_lt_is_Some_2 ops (length ops - 1)) as [prev2 Hprev2]; [lia|].
      rewrite (py_index_lookup ops (Z.of_nat 1 - 2) _ prev2 Hprev2) by lia. simpl.
      rewrite is_conv_kind.
      rewrite (bool_decide_eq_false_2 (kind_of_op prev2 = KConv))
        by (apply (Hafter _ _ Hprev2); lia).
      reflexivity.
    + rewrite (bool_decide_eq_false_2 (kind_of_op prev = KReLU)) by assumption.
      rewrite (bool_decide_eq_false_2 (Some _ = Some KReLU)) by congruence.
      rewrite andb_false_r, orb_false_r.
      destruct (decide (kind_of_op prev = KConv)) as [Hc|Hc].
      * rewrite (bool_decide_eq_true_2 (kind_of_op prev = KConv)) by assumption.
        rewrite (bool_decide_eq_true_2 (Some _ = Some KConv)) by congruence.
        reflexivity.
      * rewrite (bool_decide_eq_false_2 (kind_of_op prev = KConv)) by assumption.
        rewrite (bool_decide_eq_false_2 (Some _ = Some KConv)) by congruence.
        reflexivity.
  - destruct (lookup_lt_is_Some_2 ops (S h)) as [prev Hprev]; [lia|].
    destruct (lookup_lt_is_Some_2 ops h) as [prev2 Hprev2]; [lia|].
    rewrite (py_index_lookup ops (Z.of_nat (S (S h)) - 1) _ prev Hprev) by lia. simpl.
    rewrite (Hk _ _ Hprev), (Hk _ _ Hprev2), is_conv_kind, is_relu_kind.
    destruct (decide (kind_of_op prev = KReLU)) as [Hr|Hr].
    + rewrite (bool_decide_eq_true_2 (kind_of_op prev = KReLU)) by assumption.
      rewrite (bool_decide_eq_true_2 (Some _ = Some KReLU)) by congruence.
      rewrite (bool_decide_eq_false_2 (kind_of_op prev = KConv)) by congruence.
      rewrite (bool_decide_eq_false_2 (Some (kind_of_op prev) = Some KConv)) by congruence.
      rewrite (py_index_lookup ops (Z.of_nat (S (S h)) - 2) _ prev2 Hprev2) by lia. simpl.
      rewrite is_conv_kind.
      destruct (decide (kind_of_op prev2 = KConv)) as [Hc|Hc].
      * rewrite (bool_decide_eq_true_2 (kind_of_op prev2 = KConv)) by assumption.
        rewrite (bool_decide_eq_true_2 (Some _ = Some KConv)) by congruence.
        reflexivity.
      * rewrite (bool_decide_eq_false_2 (kind_of_op prev2 = KConv)) by assumption.
        rewrite (bool_decide_eq_false_2 (Some _ = Some KConv)) by congruence.
        reflexivity.
    + rewrite (bool_decide_eq_false_2 (kind_of_op prev = KReLU)) by assumption.
      rewrite (bool_decide_eq_false_2 (Some _ = Some KReLU)) by congruence.
      rewrite andb_false_l, orb_false_r.
      destruct (decide (kind_of_op prev = KConv)) as [Hc|Hc].
      * rewrite (bool_decide_eq_true_2 (kind_of_op prev = KConv)) by assumption.
        rewrite (bool_decide_eq_true_2 (Some _ = Some KConv)) by congruence.
        reflexivity.
      * rewrite (bool_decide_eq_false_2 (kind_of_op prev = KConv)) by assumption.
        rewrite (bool_decide_eq_false_2 (Some _ = Some KConv)) by congruence.
        reflexivity.
Qed.

Lemma reshape_candidate_inv (ks : list layer_kind) (i : nat) :
  reshape_candidate ks i = true ->
  ks !! i = Some KDense
  /\ exists j, (j < i)%nat /\ (i <= j + 2)%nat /\ ks !! j = Some KConv
                /\ forall h, (j < h < i)%nat -> ks !! h = Some KReLU.
Proof.
  unfold reshape_candidate. intros H.
  apply andb_true_iff in H as [Hd H]. apply bool_decide_eq_true in Hd.
  split; [assumption|].
  destruct i as [|j]; [discriminate|].
  apply orb_true_iff in H as [H|H].
  - apply bool_decide_eq_true in H. exists j.
    repeat split; [lia|lia|assumption|intros; lia].
  - apply andb_true_iff in H as [Hr H]. apply bool_decide_eq_true in Hr.
    destruct j as [|h]; [discriminate|]. apply bool_decide_eq_true in H.
    exists h. repeat split; [lia|lia|assumption|].
    intros h' Hh'. now replace h' with (S h) by lia.
Qed.

(** Without a dense layer before a convolution there is at most one
    candidate position. *)
Lemma reshape_candidate_unique (ks : list layer_kind) (i j : nat) :
  ~ dense_before_conv ks ->
  reshape_candidate ks i = true -> reshape_candidate ks j = true -> i = j.
Proof.
  intros Hno Hi Hj.
  apply reshape_candidate_inv in Hi as (Hdi & ci & Hci & _ & Hconv_i & Hbetween_i).
  apply reshape_candidate_inv in Hj as (Hdj & cj & Hcj & _ & Hconv_j & Hbetween_j).
  destruct (Nat.lt_trichotomy i j) as [Hlt|[->|Hlt]]; [exfalso| reflexivity |exfalso].
  - apply (no_conv_from_dense ks i cj Hno Hdi); [|assumption].
    destruct (decide (i <= cj)%nat); [assumption|].
    assert (Hr : ks !! i = Some KReLU) by (apply Hbetween_j; lia).
    congruence.
  - apply (no_conv_from_dense ks j ci Hno Hdj); [|assumption].
    destruct (decide (j <= ci)%nat); [assumption|].
    assert (Hr : ks !! j = Some KReLU) by (apply Hbetween_i; lia).
    congruence.
Qed.

(** The second loop keeps the last candidate it meets. *)
Lemma keep_last_candidate (cand : nat -> bool) (l : list nat) (r : option Z) :
  (forall i j, i ∈ l -> j ∈ l -> cand i = true -> cand j = true -> i = j) ->
  foldl (fun r i => if cand i then Some (Z.of_nat i) else r) r l
  = match find cand l with
    | Some i => Some (Z.of_nat i)
    | None => r
    end.
Proof.
  revert r. induction l as [|i l IH]; intros r Huniq; simpl; [reflexivity|].
  rewrite IH
    by (intros a b Ha Hb; apply Huniq; now apply list_elem_of_further).
  destruct (cand i) eqn:Hi; [|reflexivity].
  destruct (find cand l) as [j|] eqn:Hj; [|reflexivity].
  apply find_some in Hj as [Hjl Hj]. apply list_elem_of_In in Hjl.
  f_equal. f_equal. symmetry.
  apply Huniq; [apply list_elem_of_here|now apply list_elem_of_further|assumption|assumption].
Qed.

Lemma infer_reshape_loop (ops : list (zono_op T)) :
  ~ dense_before_conv (map kind_of_op ops) ->
  for_each (enumerate ops) (infer_reshape T ops) None
  = Ok (first_reshape_point (map kind_of_op ops)).
Proof.
  intros Hno. set (ks := map kind_of_op ops).
  rewrite (for_each_ok
             (fun e r => if reshape_candidate ks (Z.to_nat e.1)
                         then Some e.1 else r)).
  2:{ intros [z op] r Hin. unfold enumerate in Hin.
      apply elem_of_lookup_imap in Hin as (i & op' & [= -> ->] & Hop).
      rewrite (infer_reshape_step ops i op' r Hop Hno).
      simpl. now rewrite Nat2Z.id. }
  f_equal. unfold first_reshape_point.
  assert (Hgen : forall (l : list (zono_op T)) (k : nat) (r : option Z),
    foldl (fun s' x => if reshape_candidate ks (Z.to_nat x.1) then Some x.1 else s') r
          (imap (fun i a => (Z.of_nat (k + i), a)) l)
    = foldl (fun r i => if reshape_candidate ks i then Some (Z.of_nat i) else r) r
            (seq k (length l))).
  { induction l as [|a l IH]; intros k r; simpl; [reflexivity|].
    rewrite Nat.add_0_r, Nat2Z.id.
    rewrite <- IH. f_equal. apply imap_ext. intros i x _. simpl.
    f_equal. lia. }
  unfold enumerate. etransitivity; [exact (Hgen ops 0%nat None)|].
  rewrite keep_last_candidate
    by (intros i j _ _; now apply reshape_candidate_unique).
  replace (length ks) with (length ops) by (unfold ks; now rewrite length_map).
  now destruct (find _ _).
Qed.

End ConversionFacts.

(** C4, as amended. For a channels-first network whose convolution and
    dense layers carry a bias: a layer of any other type makes the
    conversion fail with the unsupported-layer error, and no model is
    produced; otherwise, when no dense layer comes before a convolution,
    the conversion succeeds, translates the layers one for one, and records
    as reshape point the first dense layer that is immediately preceded by a
    convolution, or by a ReLU itself preceded by a convolution, when there
    is such a layer, and none when there is not. *)
Theorem converter_reshape_point {T : Type}
    (modules : list (ConvertedModel.torch_module T)) :
  Forall Spec.carries_bias modules ->
  (Spec.KOther ∈ map Spec.kind_of_module modules ->
   ConvertedModel.__init__ modules true = Raise (ConvertedModel.unsupported))
  /\ (Spec.KOther ∉ map Spec.kind_of_module modules ->
      ~ Spec.dense_before_conv (map Spec.kind_of_module modules) ->
      exists model,
        ConvertedModel.__init__ modules true = Ok model
        /\ map Spec.kind_of_op (ConvertedModel.ops model)
           = map Spec.kind_of_module modules
        /\ ConvertedModel.reshape_op_num model
           = Spec.first_reshape_point (map Spec.kind_of_module modules)).
Proof.
  intros Hbias. split.
  - intros Hother. unfold ConvertedModel.__init__. simpl.
    now rewrite convert_modules_unsupported.
  - intros Hsupp Hno.
    destruct (convert_modules_ok modules [] Hbias Hsupp) as (ops' & Hrun & Hkinds).
    simpl in Hrun. unfold ConvertedModel.__init__. simpl. rewrite Hrun. simpl.
    rewrite <- Hkinds in Hno. rewrite (infer_reshape_loop ops' Hno). simpl.
    eexists. split; [reflexivity|]. simpl. split; [assumption|].
    now rewrite Hkinds.
Qed.

Lemma converter_reshape_point_witness :
  let modules : list (ConvertedModel.torch_module unit) :=
    [ConvertedModel.Conv2d 1 4 (3, 3) (1, 1) (1, 1) (0, 0) tt (Some tt);
     ConvertedModel.ReLU;
     ConvertedModel.Linear 16 8 tt (Some tt);
     ConvertedModel.ReLU;
     ConvertedModel.Linear 8 2 tt (Some tt)] in
  exists model,
    ConvertedModel.__init__ modules true = Ok model
    /\ map Spec.kind_of_op (ConvertedModel.ops model)
       = map Spec.kind_of_module modules
    /\ ConvertedModel.reshape_op_num model = Some 2.
Proof.
  intros modules.
  assert (Hbias : Forall Spec.carries_bias modules)
    by (repeat constructor; eexists; reflexivity).
  apply (converter_reshape_point modules Hbias).
  - intros H. repeat (apply elem_of_cons in H as [H|H]; [discriminate H|]).
    now apply elem_of_nil in H.
  - intros (i & j & Hlt & Hi & Hj).
    destruct j as [|j]; [lia|].
    do 4 (destruct j as [|j]; [discriminate Hj|]). discriminate Hj.
Defined.

(** C4 as stated fails: a network of dense and ReLU layers only has no
    reshape point at all, and with two convolution-to-dense transitions the
    converter keeps the last one, not the first. *)
Lemma converter_reshape_point_counterexample :
  (exists model,
     ConvertedModel.__init__
       [ConvertedModel.Linear 4 3 tt (Some tt); ConvertedModel.ReLU;
        ConvertedModel.Linear 3 2 tt (Some tt)] true = Ok model
     /\ ConvertedModel.reshape_op_num model = None)
  /\ (exists model,
        ConvertedModel.__init__
          [ConvertedModel.Conv2d 1 1 (1, 1) (1, 1) (1, 1) (0, 0) tt (Some tt);
           ConvertedModel.Linear 4 4 tt (Some tt);
           ConvertedModel.Conv2d 1 1 (1, 1) (1, 1) (1, 1) (0, 0) tt (Some tt);
           ConvertedModel.Linear 4 2 tt (Some tt)] true = Ok model
        /\ ConvertedModel.reshape_op_num model = Some 3
        /\ Spec.first_reshape_point [Spec.KConv; Spec.KDense; Spec.KConv; Spec.KDense]
           = Some 1).
Proof.
  split; eexists; repeat split; reflexivity.
Qed.

(** ** Rounding *)

Section Rounding.

Import Np AdversarialPatchNumpy.

Lemma round_half_even_bounds (q : Q) :
  Qfloor q <= round_half_even q <= Qfloor q + 1.
Proof.
  unfold round_half_even.
  destruct (q - inject_Z (Qfloor q) ?= 1 # 2)%Q; [destruct (Z.even _)| |]; lia.
Qed.

Lemma round_half_even_int (q : Q) (n : Z) :
  (q == inject_Z n)%Q -> round_half_even q = n.
Proof.
  intros E. unfold round_half_even.
  assert (Hf : Qfloor q = n) by (rewrite E; apply Qfloor_Z).
  rewrite Hf.
  assert (Hlt : (q - inject_Z n ?= 1 # 2)%Q = Lt).
  { apply Qlt_alt. rewrite E. unfold Qminus. rewrite Qplus_opp_r. reflexivity. }
  now rewrite Hlt.
Qed.

Lemma round_half_even_nonneg (q : Q) :
  (0 <= q)%Q -> 0 <= round_half_even q.
Proof.
  intros Hq. pose proof (round_half_even_bounds q) as Hb.
  pose proof (Qfloor_resp_le (inject_Z 0) q Hq) as Hf.
  rewrite Qfloor_Z in Hf. lia.
Qed.

Lemma round_half_even_le_int (q : Q) (n : Z) :
  (q <= inject_Z n)%Q -> round_half_even q <= n.
Proof.
  intros Hq. pose proof (round_half_even_bounds q) as Hb.
  pose proof (Qfloor_resp_le q (inject_Z n) Hq) as Hf. rewrite Qfloor_Z in Hf.
  destruct (Z.eq_dec (Qfloor q) n) as [E|NE]; [|lia].
  assert (Hqn : (q == inject_Z n)%Q).
  { apply Qle_antisym; [assumption|]. rewrite <- E. apply Qfloor_le. }
  rewrite (round_half_even_int q n Hqn). lia.
Qed.

Lemma Qltb_spec (a b : Q) : Qltb a b = true <-> (a < b)%Q.
Proof.
  unfold Qltb. rewrite Qlt_alt. destruct (a ?= b)%Q; split; congruence.
Qed.

Lemma Qltb_false (a b : Q) : Qltb a b = false <-> (b <= a)%Q.
Proof.
  rewrite <- not_true_iff_false, Qltb_spec. split.
  - apply Qnot_lt_le.
  - apply Qle_not_lt.
Qed.

End Rounding.

(** ** Slices and slice assignment *)

Section ArrayFacts.

Import Np.

Lemma slice_indices_inside (len : nat) (a b : Z) :
  0 <= a -> a <= b -> b <= Z.of_nat len ->
  slice_indices len (sl a b) = (Z.to_nat a, Z.to_nat (b - a)).
Proof.
  intros Ha Hab Hb. unfold slice_indices, sl, slice_bound. simpl.
  destruct (Z.ltb_spec a 0); [lia|]. destruct (Z.ltb_spec b 0); [lia|].
  f_equal; f_equal; lia.
Qed.

Lemma slice_indices_full (len : nat) : slice_indices len full = (0%nat, len).
Proof.
  unfold slice_indices, full, slice_bound. simpl. f_equal. lia.
Qed.

Lemma broadcast_to_same (v : ndarray) :
  exists v', broadcast_to v (shape v) = Ok v'
             /\ shape v' = shape v
             /\ forall i j k, item v' i j k = item v i j k.
Proof.
  unfold broadcast_to. destruct (shape v) as [[v0 v1] v2] eqn:E.
  unfold broadcastable, bidx. rewrite !Nat.eqb_refl. simpl.
  eexists. split; [reflexivity|]. split; reflexivity.
Qed.

Lemma setitem_ok (x v : ndarray) (s0 s1 s2 : slice)
    (d0 d1 d2 a0 c0 a1 c1 a2 c2 : nat) :
  shape x = (d0, d1, d2) ->
  slice_indices d0 s0 = (a0, c0) ->
  slice_indices d1 s1 = (a1, c1) ->
  slice_indices d2 s2 = (a2, c2) ->
  shape v = (c0, c1, c2) ->
  exists out,
    setitem x s0 s1 s2 v = Ok out
    /\ shape out = shape x
    /\ forall i j k,
         item out i j k =
         if within a0 c0 i && within a1 c1 j && within a2 c2 k
         then item v (i - a0) (j - a1) (k - a2)
         else item x i j k.
Proof.
  intros Hx H0 H1 H2 Hv. unfold setitem. rewrite Hx, H0, H1, H2.
  destruct (broadcast_to_same v) as (v' & Hb & _ & Hitems).
  rewrite Hv in Hb. rewrite Hb. simpl.
  eexists. split; [reflexivity|]. split; [reflexivity|].
  intros i j k. simpl. now rewrite Hitems.
Qed.

End ArrayFacts.

(** ** Scaling *)

Section ScaleFacts.

Import Np AdversarialPatchNumpy Spec.

Variable zoom : ndarray -> Q * Q * Q -> ndarray.
Hypothesis zoom_shape : zoom_shape_law zoom.

Variable self : attack.
Hypothesis layout : channels_last self.

Lemma round_axis_unit (C : nat) :
  Z.to_nat (round_half_even (inject_Z (Z.of_nat C) * 1)) = C.
Proof.
  rewrite (round_half_even_int _ (Z.of_nat C)) by apply Qmult_1_r.
  apply Nat2Z.id.
Qed.

(** A factor in (0, 1]: the rounded extent of an axis stays within it. *)
Lemma shrunk_extent (n : nat) (scale : Q) :
  (0 < scale)%Q -> (scale <= 1)%Q ->
  0 <= round_half_even (inject_Z (Z.of_nat n) * scale) <= Z.of_nat n.
Proof.
  intros Hpos Hle.
  assert (Hn : (inject_Z 0 <= inject_Z (Z.of_nat n))%Q)
    by (rewrite <- Zle_Qle; lia).
  split.
  - apply round_half_even_nonneg. apply Qmult_le_0_compat; [exact Hn|].
    now apply Qlt_le_weak.
  - apply round_half_even_le_int.
    rewrite <- (Qmult_1_r (inject_Z (Z.of_nat n))) at 2.
    rewrite !(Qmult_comm (inject_Z (Z.of_nat n))).
    now apply Qmult_le_compat_r.
Qed.

Lemma scale_below_one (x : ndarray) (scale : Q) (H W C : nat) :
  patch_shape self = (H, W, C) -> shape x = (H, W, C) ->
  (0 < scale)%Q -> (scale < 1)%Q ->
  exists out,
    _scale zoom self x scale = Ok out
    /\ same_array out (center_pad (zoom x (scale, scale, 1%Q)) H W).
Proof.
  intros Hps Hx Hpos Hlt.
  destruct layout as (Hcf & _ & _ & _ & _).
  unfold _scale. rewrite Hcf, Hps. simpl dim.
  rewrite (proj2 (Qltb_spec scale 1) Hlt).
  set (sh := round_half_even (inject_Z (Z.of_nat H) * scale)).
  set (sw := round_half_even (inject_Z (Z.of_nat W) * scale)).
  assert (Hsh : 0 <= sh <= Z.of_nat H)
    by (apply shrunk_extent; [assumption|now apply Qlt_le_weak]).
  assert (Hsw : 0 <= sw <= Z.of_nat W)
    by (apply shrunk_extent; [assumption|now apply Qlt_le_weak]).
  set (top := (Z.of_nat H - sh) / 2). set (left := (Z.of_nat W - sw) / 2).
  assert (Htop : 0 <= top /\ top + sh <= Z.of_nat H)
    by (unfold top; Z.div_mod_to_equations; lia).
  assert (Hleft : 0 <= left /\ left + sw <= Z.of_nat W)
    by (unfold left; Z.div_mod_to_equations; lia).
  assert (Hv : shape (zoom x (scale, scale, 1%Q)) = (Z.to_nat sh, Z.to_nat sw, C)).
  { rewrite zoom_shape, Hx. unfold zoomed_shape. now rewrite round_axis_unit. }
  assert (S0 : slice_indices H (sl top (top + sh)) = (Z.to_nat top, Z.to_nat sh)).
  { rewrite slice_indices_inside by lia. do 2 f_equal. lia. }
  assert (S1 : slice_indices W (sl left (left + sw)) = (Z.to_nat left, Z.to_nat sw)).
  { rewrite slice_indices_inside by lia. do 2 f_equal. lia. }
  destruct (setitem_ok (zeros_like x) (zoom x (scale, scale, 1%Q)) _ _ _
              _ _ _ _ _ _ _ _ _ Hx S0 S1 (slice_indices_full C) Hv)
    as (out1 & E1 & Hshape1 & Hitems1).
  rewrite E1. simpl.
  destruct (setitem_ok out1 (zoom x (scale, scale, 1%Q)) _ _ _
              _ _ _ _ _ _ _ _ _ (eq_trans Hshape1 Hx) S0 S1
              (slice_indices_full C) Hv)
    as (out2 & E2 & Hshape2 & Hitems2).
  exists out2. split; [exact E2|].
  unfold same_array, center_pad. rewrite Hv, Hshape2, Hshape1. simpl.
  split; [now rewrite Hx|].
  rewrite Hx. simpl. intros i j k Hi Hj Hk.
  rewrite Hitems2, Hitems1. simpl.
  replace (within 0 C k) with true
    by (unfold within; symmetry; apply andb_true_iff; split;
        [apply Nat.leb_le|apply Nat.ltb_lt]; lia).
  rewrite !andb_true_r, Nat.sub_0_r.
  change (Nat.divmod (H - Z.to_nat sh) 1 0 1).1 with ((H - Z.to_nat sh) / 2)%nat.
  change (Nat.divmod (W - Z.to_nat sw) 1 0 1).1 with ((W - Z.to_nat sw) / 2)%nat.
  replace ((H - Z.to_nat sh) / 2)%nat with (Z.to_nat top)
    by (unfold top; rewrite Z2Nat.inj_div by lia;
        rewrite Z2Nat.inj_sub by lia; now rewrite Nat2Z.id).
  replace ((W - Z.to_nat sw) / 2)%nat with (Z.to_nat left)
    by (unfold left; rewrite Z2Nat.inj_div by lia;
        rewrite Z2Nat.inj_sub by lia; now rewrite Nat2Z.id).
  now destruct (within (Z.to_nat top) (Z.to_nat sh) i && within (Z.to_nat left) (Z.to_nat sw) j).
Qed.

(** A factor above 1: the rounded extent of the window to enlarge. *)
Lemma window_extent (n : nat) (scale : Q) :
  (1 < scale)%Q ->
  0 <= round_half_even (inject_Z (Z.of_nat n) / scale) <= Z.of_nat n.
Proof.
  intros Hgt.
  assert (Hpos : (0 < scale)%Q) by (apply Qlt_trans with 1%Q; [reflexivity|exact Hgt]).
  unfold Qdiv. apply shrunk_extent.
  - now apply Qinv_lt_0_compat.
  - apply Qlt_le_weak. change 1%Q with (/ 1)%Q.
    exact (proj1 (Qinv_lt_contravar 1 scale eq_refl Hpos) Hgt).
Qed.

Lemma getitem_window (x : ndarray) (H W C : nat) (top left rh rw : Z) :
  shape x = (H, W, C) ->
  0 <= rh <= Z.of_nat H -> 0 <= rw <= Z.of_nat W ->
  top = (Z.of_nat H - rh) / 2 -> left = (Z.of_nat W - rw) / 2 ->
  getitem x (sl top (top + rh)) (sl left (left + rw)) full
  = center_crop x (Z.to_nat rh) (Z.to_nat rw).
Proof.
  intros Hx Hrh Hrw Htop Hleft.
  assert (0 <= top /\ top + rh <= Z.of_nat H)
    by (subst top; Z.div_mod_to_equations; lia).
  assert (0 <= left /\ left + rw <= Z.of_nat W)
    by (subst left; Z.div_mod_to_equations; lia).
  unfold getitem, center_crop. rewrite Hx.
  rewrite !slice_indices_inside by lia. rewrite slice_indices_full.
  replace (top + rh - top) with rh by lia.
  replace (left + rw - left) with rw by lia.
  replace ((H - Z.to_nat rh) / 2)%nat with (Z.to_nat top)
    by (subst top; rewrite Z2Nat.inj_div by lia;
        rewrite Z2Nat.inj_sub by lia; now rewrite Nat2Z.id).
  replace ((W - Z.to_nat rw) / 2)%nat with (Z.to_nat left)
    by (subst left; rewrite Z2Nat.inj_div by lia;
        rewrite Z2Nat.inj_sub by lia; now rewrite Nat2Z.id).
  reflexivity.
Qed.

Lemma scale_above_one (x : ndarray) (scale : Q) (H W C : nat) :
  patch_shape self = (H, W, C) -> shape x = (H, W, C) ->
  (1 < scale)%Q ->
  let rh := Z.to_nat (round_half_even (inject_Z (Z.of_nat H) / scale)) in
  let rw := Z.to_nat (round_half_even (inject_Z (Z.of_nat W) / scale)) in
  let enlarged := zoom (center_crop x rh rw) (scale, scale, 1%Q) in
  (H <= dim (shape enlarged) 0)%nat -> (W <= dim (shape enlarged) 1)%nat ->
  exists out,
    _scale zoom self x scale = Ok out
    /\ same_array out (center_crop enlarged H W).
Proof.
  intros Hps Hx Hgt rh rw enlarged HH HW.
  destruct layout as (Hcf & Hih & Hiw & _ & _).
  unfold _scale. rewrite Hcf, Hps, Hih, Hiw. simpl dim.
  assert (Hnlt : Qltb scale 1 = false)
    by (apply Qltb_false; now apply Qlt_le_weak).
  rewrite Hnlt, (proj2 (Qltb_spec 1 scale) Hgt).
  pose proof (window_extent H scale Hgt) as Hrh.
  pose proof (window_extent W scale Hgt) as Hrw.
  rewrite (getitem_window x H W C _ _ _ _ Hx Hrh Hrw eq_refl eq_refl).
  fold rh rw. fold enlarged.
  destruct (shape enlarged) as [[zh zw] zc] eqn:Hz. simpl in HH, HW. simpl dim.
  set (cut_top := (Z.of_nat zh - Z.of_nat H) / 2).
  set (cut_left := (Z.of_nat zw - Z.of_nat W) / 2).
  assert (0 <= cut_top /\ cut_top + Z.of_nat H <= Z.of_nat zh)
    by (unfold cut_top; Z.div_mod_to_equations; lia).
  assert (0 <= cut_left /\ cut_left + Z.of_nat W <= Z.of_nat zw)
    by (unfold cut_left; Z.div_mod_to_equations; lia).
  eexists. split; [reflexivity|].
  unfold same_array, getitem, center_crop. rewrite Hz.
  rewrite !slice_indices_inside by lia. rewrite slice_indices_full.
  replace (cut_top + Z.of_nat H - cut_top) with (Z.of_nat H) by lia.
  replace (cut_left + Z.of_nat W - cut_left) with (Z.of_nat W) by lia.
  rewrite !Nat2Z.id.
  replace ((zh - H) / 2)%nat with (Z.to_nat cut_top)
    by (unfold cut_top; rewrite Z2Nat.inj_div by lia;
        rewrite Z2Nat.inj_sub by lia; now rewrite !Nat2Z.id).
  replace ((zw - W) / 2)%nat with (Z.to_nat cut_left)
    by (unfold cut_left; rewrite Z2Nat.inj_div by lia;
        rewrite Z2Nat.inj_sub by lia; now rewrite !Nat2Z.id).
  split; reflexivity.
Qed.

Lemma scale_exactly_one (x : ndarray) (scale : Q) :
  (scale == 1)%Q -> _scale zoom self x scale = Ok x.
Proof.
  intros E. unfold _scale.
  assert (H1 : Qltb scale 1 = false) by (apply Qltb_false; rewrite E; apply Qle_refl).
  assert (H2 : Qltb 1 scale = false) by (apply Qltb_false; rewrite E; apply Qle_refl).
  rewrite H1, H2. now destruct (channels_first (estimator self)).
Qed.

End ScaleFacts.

Lemma zoom_sampled_shape : Spec.zoom_shape_law Spec.zoom_sampled.
Proof.
  intros x z. unfold Spec.zoom_sampled.
  destruct (Np.shape x) as [[d0 d1] d2].
  now destruct (Spec.zoomed_shape (d0, d1, d2) z) as [[o0 o1] o2].
Qed.

Lemma center_crop_shape (content : Np.ndarray) (h w : nat) :
  Np.shape (Spec.center_crop content h w) = (h, w, Np.dim (Np.shape content) 2).
Proof.
  unfold Spec.center_crop. now destruct (Np.shape content) as [[a b] c].
Qed.

Lemma center_pad_shape (content : Np.ndarray) (h w : nat) :
  Np.shape (Spec.center_pad content h w) = (h, w, Np.dim (Np.shape content) 2).
Proof.
  unfold Spec.center_pad. now destruct (Np.shape content) as [[a b] c].
Qed.

Lemma small_attack_channels_last : Spec.channels_last Spec.small_attack.
Proof. repeat split; reflexivity. Qed.

(** C3, as amended. On a channels-last attack object and an array of the
    patch shape, [_scale] with a positive factor returns an array of the
    same shape in these cases: with a factor below 1, the zoomed content
    placed at the center of a zero array (a content of [round(height *
    factor)] rows, without a lower limit of one row); with the factor 1, the
    input; with a factor above 1, the center crop of the zoomed central
    window, provided the zoomed window is at least as large as the patch. *)
Theorem scale_keeps_shape
    (zoom : Np.ndarray -> Q * Q * Q -> Np.ndarray)
    (self : AdversarialPatchNumpy.attack) (x : Np.ndarray) (scale : Q)
    (H W C : nat) :
  Spec.zoom_shape_law zoom ->
  Spec.channels_last self ->
  AdversarialPatchNumpy.patch_shape self = (H, W, C) ->
  Np.shape x = (H, W, C) ->
  (0 < scale)%Q ->
  ((scale < 1)%Q ->
   exists out,
     AdversarialPatchNumpy._scale zoom self x scale = Ok out
     /\ Np.shape out = Np.shape x
     /\ Spec.same_array out (Spec.center_pad (zoom x (scale, scale, 1%Q)) H W))
  /\ ((scale == 1)%Q -> AdversarialPatchNumpy._scale zoom self x scale = Ok x)
  /\ ((1 < scale)%Q ->
      let rh := Z.to_nat (Np.round_half_even (inject_Z (Z.of_nat H) / scale)) in
      let rw := Z.to_nat (Np.round_half_even (inject_Z (Z.of_nat W) / scale)) in
      let enlarged := zoom (Spec.center_crop x rh rw) (scale, scale, 1%Q) in
      (H <= Np.dim (Np.shape enlarged) 0)%nat ->
      (W <= Np.dim (Np.shape enlarged) 1)%nat ->
      exists out,
        AdversarialPatchNumpy._scale zoom self x scale = Ok out
        /\ Np.shape out = Np.shape x
        /\ Spec.same_array out (Spec.center_crop enlarged H W)).
Proof.
  intros Hzoom Hlayout Hps Hx Hpos. split; [|split].
  - intros Hlt.
    destruct (scale_below_one zoom Hzoom self Hlayout x scale H W C Hps Hx Hpos Hlt)
      as (out & Hrun & Hsame).
    exists out. split; [assumption|]. split; [|assumption].
    destruct Hsame as [Hshape _].
    rewrite Hshape, Hx, center_pad_shape, Hzoom, Hx.
    unfold Spec.zoomed_shape. simpl. now rewrite round_axis_unit.
  - apply scale_exactly_one.
  - intros Hgt rh rw enlarged HH HW.
    destruct (scale_above_one zoom self Hlayout x scale H W C Hps Hx Hgt HH HW)
      as (out & Hrun & Hsame).
    exists out. split; [assumption|]. split; [|assumption].
    destruct Hsame as [Hshape _].
    rewrite Hshape, Hx, center_crop_shape, Hzoom, center_crop_shape, Hx.
    unfold Spec.zoomed_shape. simpl. now rewrite round_axis_unit.
Qed.

Lemma scale_keeps_shape_witness :
  exists out,
    AdversarialPatchNumpy._scale Spec.zoom_sampled Spec.small_attack
      (Spec.constant (4, 4, 1)%nat 1) (1 # 2) = Ok out
    /\ Np.shape out = (4, 4, 1)%nat
    /\ Spec.same_array out
         (Spec.center_pad
            (Spec.zoom_sampled (Spec.constant (4, 4, 1)%nat 1) (1 # 2, 1 # 2, 1%Q)) 4 4).
Proof.
  destruct (scale_keeps_shape Spec.zoom_sampled Spec.small_attack
              (Spec.constant (4, 4, 1)%nat 1) (1 # 2) 4 4 1
              zoom_sampled_shape small_attack_channels_last
              eq_refl eq_refl eq_refl) as [Hbelow _].
  exact (Hbelow eq_refl).
Defined.

(** C3 as stated fails.  With the factor 5/3 on a 4 x 4 x 1 patch the
    2 x 2 window zooms to 3 x 3, short of the patch, and the crop leaves a
    1 x 1 x 1 array; with the factor 1/10 the content rounds to no rows at
    all, so nothing of the input is placed; and on a channels-first attack
    object the first slice assignment of the shrinking branch addresses the
    wrong axes and is rejected. *)
Lemma scale_keeps_shape_counterexample :
  (exists out,
     AdversarialPatchNumpy._scale Spec.zoom_sampled Spec.small_attack
       (Spec.constant (4, 4, 1)%nat 1) (5 # 3) = Ok out
     /\ Np.shape out = (1, 1, 1)%nat)
  /\ (Np.shape (Spec.zoom_sampled (Spec.constant (4, 4, 1)%nat 1) (1 # 10, 1 # 10, 1%Q))
      = (0, 0, 1)%nat
      /\ exists out,
           AdversarialPatchNumpy._scale Spec.zoom_sampled Spec.small_attack
             (Spec.constant (4, 4, 1)%nat 1) (1 # 10) = Ok out
           /\ forall i j k, Np.item out i j k = 0%Q)
  /\ AdversarialPatchNumpy._scale Spec.zoom_sampled Spec.small_attack_cf
       (Spec.constant (1, 4, 4)%nat 1) (1 # 2) = Raise Np.shape_error.
Proof.
  split; [|split; [split|]].
  - eexists. split; reflexivity.
  - reflexivity.
  - eexists. split; [reflexivity|].
    intros i j k. cbn.
    destruct i as [|[|[|i]]]; try reflexivity.
  - reflexivity.
Qed.

(** C10. Scaling by a factor equal to 1 returns the input array itself:
    neither branch of [_scale] is taken, so nothing is interpolated, padded
    or cropped, whatever the layout and the shape of the input. *)
Theorem scale_one_is_identity
    (zoom : Np.ndarray -> Q * Q * Q -> Np.ndarray)
    (self : AdversarialPatchNumpy.attack) (x : Np.ndarray) (scale : Q) :
  (scale == 1)%Q ->
  AdversarialPatchNumpy._scale zoom self x scale = Ok x.
Proof. apply scale_exactly_one. Qed.

Lemma scale_one_is_identity_witness :
  AdversarialPatchNumpy._scale Spec.zoom_sampled Spec.small_attack_cf
    (Spec.constant (1, 4, 4)%nat (1 # 3)) (2 # 2)
  = Ok (Spec.constant (1, 4, 4)%nat (1 # 3)).
Proof.
  apply (scale_one_is_identity Spec.zoom_sampled Spec.small_attack_cf
           (Spec.constant (1, 4, 4)%nat (1 # 3)) (2 # 2)).
  reflexivity.
Defined.

(** ** The circular mask *)

Section MaskFacts.

Import Np AdversarialPatchNumpy Spec.

Lemma within_lt (a c i : nat) : within a c i = true <-> (a <= i < a + c)%nat.
Proof.
  unfold within. rewrite andb_true_iff, Nat.leb_le, Nat.ltb_lt. tauto.
Qed.

(** Padding, expansion and broadcast of a [d] x [d] array placed at
    offset ([top], [left]) of an [H] x [W] x [C] array. *)
Lemma finish_mask (m : ndarray2) (d H W C top left : nat) :
  shape2 m = (d, d) -> (top + d <= H)%nat -> (left + d <= W)%nat ->
  exists mask,
    (padded ← pad m (Z.of_nat top, Z.of_nat H - Z.of_nat top - Z.of_nat d)
                    (Z.of_nat left, Z.of_nat W - Z.of_nat left - Z.of_nat d);
     broadcast_to (expand_dims padded (3 - 1)) (H, W, C)) = Ok mask
    /\ shape mask = (H, W, C)
    /\ forall i j k,
         item mask i j k =
         if within top d i && within left d j
         then item2 m (i - top) (j - left) else 0%Q.
Proof.
  intros Hm Htop Hleft. unfold pad. rewrite Hm.
  destruct (Z.ltb_spec (Z.of_nat top) 0); [lia|].
  destruct (Z.ltb_spec (Z.of_nat H - Z.of_nat top - Z.of_nat d) 0); [lia|].
  destruct (Z.ltb_spec (Z.of_nat left) 0); [lia|].
  destruct (Z.ltb_spec (Z.of_nat W - Z.of_nat left - Z.of_nat d) 0); [lia|].
  simpl. rewrite !Nat2Z.id.
  replace (top + d + Z.to_nat (Z.of_nat H - Z.of_nat top - Z.of_nat d))%nat
    with H by lia.
  replace (left + d + Z.to_nat (Z.of_nat W - Z.of_nat left - Z.of_nat d))%nat
    with W by lia.
  unfold broadcast_to. simpl. unfold broadcastable, bidx.
  rewrite !Nat.eqb_refl. simpl. rewrite ?orb_true_r.
  eexists. split; [reflexivity|]. split; reflexivity.
Qed.

(** What the generator returns on a channels-last attack object: the
    footprint on the central [d] x [d] block, zero around it. *)
Lemma mask_entries (self : attack) (H W C : nat) :
  channels_last self -> patch_shape self = (H, W, C) ->
  let d := Nat.min H W in
  let top := ((H - d) / 2)%nat in
  let left := ((W - d) / 2)%nat in
  exists mask,
    _get_circular_patch_mask self = Ok mask
    /\ shape mask = (H, W, C)
    /\ forall i j k,
         item mask i j k =
         if within top d i && within left d j
         then footprint d (i - top) (j - left) else 0%Q.
Proof.
  intros (Hcf & Hih & Hiw & Himg & Hps') Hps d top left.
  assert (Himage : image_shape self = (H, W, C)) by congruence.
  assert (Hd : (d <= H /\ d <= W)%nat) by (unfold d; lia).
  assert (Etop : (Z.of_nat H - Z.of_nat d) ÷ 2 = Z.of_nat top).
  { unfold top. rewrite Z.quot_div_nonneg by lia.
    rewrite Nat2Z.inj_div, Nat2Z.inj_sub by lia. reflexivity. }
  assert (Eleft : (Z.of_nat W - Z.of_nat d) ÷ 2 = Z.of_nat left).
  { unfold left. rewrite Z.quot_div_nonneg by lia.
    rewrite Nat2Z.inj_div, Nat2Z.inj_sub by lia. reflexivity. }
  assert (Htop : (top + d <= H)%nat)
    by (unfold top; pose proof (Nat.Div0.mul_div_le (H - d) 2); lia).
  assert (Hleft : (left + d <= W)%nat)
    by (unfold left; pose proof (Nat.Div0.mul_div_le (W - d) 2); lia).
  destruct (finish_mask
              {| shape2 := (d, d); item2 := fun i j => footprint d i j |}
              d H W C top left eq_refl Htop Hleft)
    as (mask & Hrun & Hshape & Hitems).
  exists mask. split; [|split; assumption].
  rewrite <- Hrun.
  unfold _get_circular_patch_mask. cbv zeta.
  rewrite Hih, Hiw, Hps, Himage, Hcf.
  change (dim (H, W, C) 0) with H. change (dim (H, W, C) 1) with W.
  fold d.
  change (py_index [Z.of_nat d; Z.of_nat d] (Z.of_nat 0)) with (Ok (Z.of_nat d)).
  change (py_index [Z.of_nat d; Z.of_nat d] (Z.of_nat 1)) with (Ok (Z.of_nat d)).
  cbn [mbind result_bind rbind].
  rewrite Etop, Eleft. reflexivity.
Qed.

Lemma Qclip_unit_interval (z : Q) :
  (0 <= z)%Q -> (0 <= Qclip z (-1) 1 <= 1)%Q.
Proof.
  intros Hz. unfold Qclip. split.
  - apply Q.min_glb; [|discriminate].
    eapply Qle_trans; [exact Hz|]. apply Q.le_max_l.
  - apply Q.le_min_r.
Qed.

Lemma Qclip_comp (a b lo hi : Q) :
  (a == b)%Q -> (Qclip a lo hi == Qclip b lo hi)%Q.
Proof. intros E. unfold Qclip. now rewrite E. Qed.

Lemma footprint_unit_interval (d i j : nat) : (0 <= footprint d i j <= 1)%Q.
Proof.
  unfold footprint.
  set (z := ((linspace (-1) 1 d j ^ 2 + linspace (-1) 1 d i ^ 2) ^ 40)%Q).
  assert (Hz : (0 <= z)%Q).
  { apply Qpower_0_le.
    rewrite <- (Qplus_0_r 0). apply Qplus_le_compat; apply Qsqr_nonneg. }
  destruct (Qclip_unit_interval z Hz) as [Hlo Hhi].
  generalize dependent (Qclip z (-1) 1). intros c Hlo Hhi. split.
  - unfold Qminus. rewrite <- (Qplus_opp_r c).
    apply Qplus_le_compat; [assumption|apply Qle_refl].
  - unfold Qminus. rewrite <- (Qplus_0_r 1) at 2.
    apply Qplus_le_compat; [apply Qle_refl|].
    change 0%Q with (- 0)%Q. now apply Qopp_le_compat.
Qed.

(** The grid of [linspace(-1, 1, d)] is mirrored about its middle. *)
Lemma linspace_mirror_square (d i : nat) :
  (i < d)%nat ->
  (linspace (-1) 1 d (d - 1 - i) ^ 2 == linspace (-1) 1 d i ^ 2)%Q.
Proof.
  intros Hi. unfold linspace.
  destruct (Nat.leb_spec d 1) as [Hd|Hd]; [reflexivity|].
  replace (Z.of_nat (d - 1 - i)) with (Z.of_nat d - 1 - Z.of_nat i) by lia.
  set (a := Z.of_nat d - 1). set (b := Z.of_nat i).
  assert (Ha : ~ (inject_Z a == 0)%Q).
  { change 0%Q with (inject_Z 0). rewrite inject_Z_injective. unfold a. lia. }
  unfold Zminus. rewrite inject_Z_plus, inject_Z_opp.
  field. exact Ha.
Qed.

Lemma footprint_rotation (d i j : nat) :
  (i < d)%nat -> (j < d)%nat ->
  (footprint d j (d - 1 - i) == footprint d i j)%Q.
Proof.
  intros Hi Hj. unfold footprint.
  apply Qplus_comp; [reflexivity|]. apply Qopp_comp. apply Qclip_comp.
  apply Qpower_comp; [|reflexivity].
  rewrite (linspace_mirror_square d i Hi). apply Qplus_comm.
Qed.

(** On a channels-first attack object the generator reads
    [mask.shape[2]] of the two-dimensional mask and stops there. *)
Lemma mask_channels_first (self : attack) :
  i_h self = 1%nat -> i_w self = 2%nat ->
  _get_circular_patch_mask self = Raise IndexError.
Proof.
  intros Hih Hiw. unfold _get_circular_patch_mask. cbv zeta.
  rewrite Hih, Hiw.
  set (d := Nat.min _ _).
  change (py_index [Z.of_nat d; Z.of_nat d] (Z.of_nat 1)) with (Ok (Z.of_nat d)).
  change (py_index [Z.of_nat d; Z.of_nat d] (Z.of_nat 2))
    with (@Raise Z IndexError).
  reflexivity.
Qed.

End MaskFacts.

(** C8, as amended. On a channels-last attack object the generator returns
    a mask of the patch shape whose values all lie in [0, 1], which is zero
    outside the bounding square of the circular footprint, whose footprint
    is symmetric under a rotation of its square grid by 90 degrees, and
    which as a whole is symmetric under [rot90] when the image is square. *)
Theorem circular_mask_properties
    (self : AdversarialPatchNumpy.attack) (H W C : nat) :
  Spec.channels_last self ->
  AdversarialPatchNumpy.patch_shape self = (H, W, C) ->
  let d := Nat.min H W in
  let top := ((H - d) / 2)%nat in
  let left := ((W - d) / 2)%nat in
  exists mask,
    AdversarialPatchNumpy._get_circular_patch_mask self = Ok mask
    /\ Np.shape mask = (H, W, C)
    /\ (forall i j k, (0 <= Np.item mask i j k <= 1)%Q)
    /\ (forall i j k,
          ~ ((top <= i < top + d)%nat /\ (left <= j < left + d)%nat) ->
          Np.item mask i j k = 0%Q)
    /\ (forall i j k, (i < d)%nat -> (j < d)%nat ->
          (Np.item mask (top + j) (left + (d - 1 - i)) k
           == Np.item mask (top + i) (left + j) k)%Q)
    /\ (H = W -> Spec.equivalent_array (Np.rot90 mask) mask).
Proof.
  intros Hlayout Hps d top left.
  destruct (mask_entries self H W C Hlayout Hps) as (mask & Hrun & Hshape & Hitems).
  fold d top left in Hitems.
  exists mask. split; [assumption|]. split; [assumption|].
  assert (Hin : forall i j, (i < d)%nat -> (j < d)%nat ->
            forall k, Np.item mask (top + i) (left + j) k = Spec.footprint d i j).
  { intros i j Hi Hj k. rewrite Hitems.
    rewrite (proj2 (within_lt top d (top + i))) by lia.
    rewrite (proj2 (within_lt left d (left + j))) by lia. simpl.
    f_equal; lia. }
  split; [|split; [|split]].
  - intros i j k. rewrite Hitems.
    destruct (Np.within top d i && Np.within left d j).
    + apply footprint_unit_interval.
    + split; discriminate.
  - intros i j k Hout. rewrite Hitems.
    destruct (Np.within top d i && Np.within left d j) eqn:E; [|reflexivity].
    apply andb_true_iff in E as [Ei Ej].
    apply within_lt in Ei. apply within_lt in Ej. tauto.
  - intros i j k Hi Hj.
    rewrite (Hin j (d - 1 - i)%nat) by lia. rewrite (Hin i j) by lia.
    now apply footprint_rotation.
  - intros ->.
    assert (Hd : d = W) by (unfold d; lia).
    assert (Ht : top = 0%nat) by (unfold top; rewrite Hd, Nat.sub_diag; reflexivity).
    assert (Hl : left = 0%nat) by (unfold left; rewrite Hd, Nat.sub_diag; reflexivity).
    unfold Spec.equivalent_array, Np.rot90. rewrite Hshape. simpl.
    split; [reflexivity|]. intros i j k Hi Hj Hk.
    rewrite Hd, Ht, Hl in Hin. simpl in Hin.
    rewrite (Hin j (W - 1 - i)%nat) by lia. rewrite (Hin i j) by lia.
    now apply footprint_rotation.
Qed.

Lemma circular_mask_properties_witness :
  exists mask,
    AdversarialPatchNumpy._get_circular_patch_mask Spec.small_attack = Ok mask
    /\ Np.shape mask = (4, 4, 1)%nat
    /\ (forall i j k, (0 <= Np.item mask i j k <= 1)%Q)
    /\ (forall i j k,
          ~ ((0 <= i < 0 + 4)%nat /\ (0 <= j < 0 + 4)%nat) ->
          Np.item mask i j k = 0%Q)
    /\ (forall i j k, (i < 4)%nat -> (j < 4)%nat ->
          (Np.item mask (0 + j) (0 + (4 - 1 - i)) k
           == Np.item mask (0 + i) (0 + j) k)%Q)
    /\ (4%nat = 4%nat -> Spec.equivalent_array (Np.rot90 mask) mask).
Proof.
  exact (circular_mask_properties Spec.small_attack 4 4 1
           small_attack_channels_last eq_refl).
Defined.

Lemma wide_attack_channels_last : Spec.channels_last Spec.wide_attack.
Proof. repeat split; reflexivity. Qed.

(** C8 as stated fails on an image that is not square: the mask of a
    3 x 5 image is a 3 x 5 grid, its rotation by 90 degrees a 5 x 3 grid. *)
Lemma circular_mask_counterexample :
  exists mask,
    AdversarialPatchNumpy._get_circular_patch_mask Spec.wide_attack = Ok mask
    /\ Np.shape mask = (3, 5, 1)%nat
    /\ Np.shape (Np.rot90 mask) = (5, 3, 1)%nat
    /\ ~ Spec.equivalent_array (Np.rot90 mask) mask.
Proof.
  destruct (mask_entries Spec.wide_attack 3 5 1 wide_attack_channels_last eq_refl)
    as (mask & Hrun & Hshape & _).
  exists mask. split; [assumption|]. split; [assumption|].
  assert (Hrot : Np.shape (Np.rot90 mask) = (5, 3, 1)%nat)
    by (unfold Np.rot90; now rewrite Hshape).
  split; [assumption|].
  intros [Heq _]. rewrite Hrot, Hshape in Heq. discriminate Heq.
Qed.

(** ** The transform sampler *)

Section SamplerFacts.

Import Np AdversarialPatchNumpy Spec.

Variable rotate : ndarray -> Q -> nat * nat -> ndarray.
Variable shift : ndarray -> Q * Q * Q -> ndarray.
Variable zoom : ndarray -> Q * Q * Q -> ndarray.
Variable random_random : nat -> Q.
Variable label : Type.
Variable self : attack.

Lemma uniform_between (a b u : Q) :
  (a <= b)%Q -> (0 <= u <= 1)%Q -> (a <= uniform_at a b u <= b)%Q.
Proof.
  intros Hab [Hu0 Hu1]. unfold uniform_at.
  assert (Hd : (0 <= b - a)%Q) by (unfold Qminus; rewrite <- Qle_minus_iff; exact Hab).
  split.
  - rewrite <- (Qplus_0_r a) at 1. apply Qplus_le_compat; [apply Qle_refl|].
    now apply Qmult_le_0_compat.
  - assert (E : (a + (b - a) * 1 == b)%Q) by ring.
    apply Qle_trans with (a + (b - a) * 1)%Q; [|rewrite E; apply Qle_refl].
    apply Qplus_le_compat; [apply Qle_refl|].
    rewrite !(Qmult_comm (b - a)).
    now apply Qmult_le_compat_r.
Qed.

(** The two forms a sampled record takes, with the draws behind it. *)
Lemma sampled_record (patch : ndarray) (scale : option Q)
    (s s' : state label) (p m : ndarray) (t : gmap string value) :
  _random_transformation rotate shift zoom random_random label self patch scale s
  = (Ok (p, m, t), s') ->
  exists n0 n1 n2 n3 : nat,
    let angle := uniform_at (- rotation_max self) (rotation_max self)
                   (random_random n0) in
    let sc := match scale with
              | Some o => o
              | None => uniform_at (scale_min self) (scale_max self)
                          (random_random n1)
              end in
    let mh := shift_max self (i_h self) sc in
    let mw := shift_max self (i_w self) sc in
    ((0 < mh)%Q /\ (0 < mw)%Q
     /\ t = <["shift_2" := VFloat (uniform_at (- mw) mw (random_random n3))]>
              (<["shift_1" := VFloat (uniform_at (- mh) mh (random_random n2))]>
                 (base_record angle sc)))
    \/ (~ ((0 < mh)%Q /\ (0 < mw)%Q)
        /\ t = <["shift" := VTuple [0; 0; 0]]> (base_record angle sc)).
Proof.
  unfold _random_transformation, mbind, M_bind, lift, mret, M_ret.
  destruct (_get_circular_patch_mask self) as [mask|e]; [|discriminate].
  unfold random_uniform at 1. cbv beta iota.
  fold (uniform_at (- rotation_max self) (rotation_max self)
          (random_random (random_calls s))).
  set (angle := uniform_at _ _ _).
  set (s1 := Build_state label _ _ _).
  intros Hrun. exists (random_calls s), (random_calls s1).
  assert (Hgen : forall (sc : Q) (s2 : state label),
    match _scale zoom self (_rotate rotate self patch angle) sc with
    | Ok a0 =>
        match _scale zoom self (_rotate rotate self mask angle) sc with
        | Ok a1 =>
            (if Qltb 0 (shift_max self (i_h self) sc)
                && Qltb 0 (shift_max self (i_w self) sc)
             then
               fun st : state label =>
                 let (r0, s'0) :=
                   random_uniform random_random label
                     (- shift_max self (i_h self) sc)
                     (shift_max self (i_h self) sc) st in
                 match r0 with
                 | Ok a2 =>
                     let (r1, s'1) :=
                       random_uniform random_random label
                         (- shift_max self (i_w self) sc)
                         (shift_max self (i_w self) sc) s'0 in
                     match r1 with
                     | Ok a3 =>
                         (let '(patch, _, _) := _shift shift self a0 a2 a3 in
                          let '(patch_mask, shift_1, shift_2) :=
                            _shift shift self a1 a2 a3 in
                          fun s0 : state label =>
                            (Ok (patch, patch_mask,
                                 <["shift_2" := VFloat shift_2]>
                                   (<["shift_1" := VFloat shift_1]>
                                      (base_record angle sc))), s0)) s'1
                     | Raise e => (Raise e, s'1)
                     end
                 | Raise e => (Raise e, s'0)
                 end
             else
               fun st : state label =>
                 (Ok (a0, a1,
                      <["shift" := VTuple [0; 0; 0]]> (base_record angle sc)), st))
              s2
        | Raise e => (Raise e, s2)
        end
    | Raise e => (Raise e, s2)
    end = (Ok (p, m, t), s') ->
    exists n2 n3 : nat,
      let mh := shift_max self (i_h self) sc in
      let mw := shift_max self (i_w self) sc in
      ((0 < mh)%Q /\ (0 < mw)%Q
       /\ t = <["shift_2" := VFloat (uniform_at (- mw) mw (random_random n3))]>
                (<["shift_1" := VFloat (uniform_at (- mh) mh (random_random n2))]>
                   (base_record angle sc)))
      \/ (~ ((0 < mh)%Q /\ (0 < mw)%Q)
          /\ t = <["shift" := VTuple [0; 0; 0]]> (base_record angle sc))).
  { intros sc s2 Hrest.
    destruct (_scale zoom self (_rotate rotate self patch angle) sc) as [a0|];
      [|discriminate].
    destruct (_scale zoom self (_rotate rotate self mask angle) sc) as [a1|];
      [|discriminate].
    destruct (Qltb 0 (shift_max self (i_h self) sc)) eqn:Eh;
      [destruct (Qltb 0 (shift_max self (i_w self) sc)) eqn:Ew|].
    - unfold random_uniform, _shift in Hrest. cbv beta iota zeta in Hrest.
      simpl andb in Hrest. cbv beta iota zeta in Hrest.
      injection Hrest as _ _ <- _.
      exists (random_calls s2), (S (random_calls s2)). left.
      apply Qltb_spec in Eh, Ew. repeat split; assumption.
    - simpl andb in Hrest. cbv beta iota in Hrest.
      injection Hrest as _ _ <- _. exists 0%nat, 0%nat. right.
      split; [|reflexivity]. intros [_ Hw]. apply Qltb_spec in Hw. congruence.
    - simpl andb in Hrest. cbv beta iota in Hrest.
      injection Hrest as _ _ <- _. exists 0%nat, 0%nat. right.
      split; [|reflexivity]. intros [Hh _]. apply Qltb_spec in Hh. congruence. }
  destruct scale as [o|].
  - cbv beta iota in Hrun. exact (Hgen o s1 Hrun).
  - unfold random_uniform at 1 in Hrun. cbv beta iota in Hrun.
    exact (Hgen _ _ Hrun).
Qed.

End SamplerFacts.

(** C7. Whenever the sampler returns a record, on an attack object with a
    non-negative rotation bound and [scale_min <= scale_max] and with the
    draws of [random.random()] in [0, 1]: the recorded angle lies in
    [-rotation_max, rotation_max]; the recorded scale is the override when
    one is given and lies in [scale_min, scale_max] otherwise; and either
    both maximal shifts are positive and the recorded shifts lie within
    them, or no shift is applied and the record holds the zero shift. *)
Theorem sampled_transformation_within_bounds
    (rotate : Np.ndarray -> Q -> nat * nat -> Np.ndarray)
    (shift zoom : Np.ndarray -> Q * Q * Q -> Np.ndarray)
    (random_random : nat -> Q) (label : Type)
    (self : AdversarialPatchNumpy.attack) (patch : Np.ndarray) (scale : option Q)
    (s s' : AdversarialPatchNumpy.state label) (p m : Np.ndarray)
    (t : gmap string AdversarialPatchNumpy.value) :
  (0 <= AdversarialPatchNumpy.rotation_max self)%Q ->
  (AdversarialPatchNumpy.scale_min self <= AdversarialPatchNumpy.scale_max self)%Q ->
  (forall n, (0 <= random_random n <= 1)%Q) ->
  AdversarialPatchNumpy._random_transformation rotate shift zoom random_random
    label self patch scale s = (Ok (p, m, t), s') ->
  exists angle sc : Q,
    t !! "rotate" = Some (AdversarialPatchNumpy.VFloat angle)
    /\ (- AdversarialPatchNumpy.rotation_max self <= angle
        <= AdversarialPatchNumpy.rotation_max self)%Q
    /\ t !! "scale" = Some (AdversarialPatchNumpy.VFloat sc)
    /\ match scale with
       | Some override => sc = override
       | None => (AdversarialPatchNumpy.scale_min self <= sc
                  <= AdversarialPatchNumpy.scale_max self)%Q
       end
    /\ let mh := Spec.shift_max self (AdversarialPatchNumpy.i_h self) sc in
       let mw := Spec.shift_max self (AdversarialPatchNumpy.i_w self) sc in
       ((0 < mh)%Q /\ (0 < mw)%Q
        /\ exists shift_h shift_w : Q,
             t !! "shift_1" = Some (AdversarialPatchNumpy.VFloat shift_h)
             /\ t !! "shift_2" = Some (AdversarialPatchNumpy.VFloat shift_w)
             /\ (- mh <= shift_h <= mh)%Q /\ (- mw <= shift_w <= mw)%Q)
       \/ (~ ((0 < mh)%Q /\ (0 < mw)%Q)
           /\ t !! "shift" = Some (AdversarialPatchNumpy.VTuple [0; 0; 0])
           /\ t !! "shift_1" = None /\ t !! "shift_2" = None).
Proof.
  intros Hrot Hscale Hdraw Hrun.
  destruct (sampled_record rotate shift zoom random_random label self
              patch scale s s' p m t Hrun) as (n0 & n1 & n2 & n3 & Hrec).
  cbv zeta in Hrec.
  set (angle := Spec.uniform_at (- AdversarialPatchNumpy.rotation_max self)
                  (AdversarialPatchNumpy.rotation_max self) (random_random n0)) in *.
  set (sc := match scale with
             | Some o => o
             | None => Spec.uniform_at (AdversarialPatchNumpy.scale_min self)
                         (AdversarialPatchNumpy.scale_max self) (random_random n1)
             end) in *.
  assert (Hneg : forall q, (0 <= q)%Q -> (- q <= q)%Q).
  { intros q Hq. apply Qle_trans with 0%Q; [|assumption].
    change 0%Q with (- 0)%Q. now apply Qopp_le_compat. }
  exists angle, sc.
  assert (Hangle : (- AdversarialPatchNumpy.rotation_max self <= angle
                    <= AdversarialPatchNumpy.rotation_max self)%Q)
    by (apply uniform_between; [now apply Hneg|apply Hdraw]).
  assert (Hsc : match scale with
                | Some override => sc = override
                | None => (AdversarialPatchNumpy.scale_min self <= sc
                           <= AdversarialPatchNumpy.scale_max self)%Q
                end).
  { unfold sc. destruct scale; [reflexivity|].
    apply uniform_between; [assumption|apply Hdraw]. }
  destruct Hrec as [(Hh & Hw & ->)|(Hnone & ->)]; unfold Spec.base_record.
  - repeat split; try assumption; try (now simplify_map_eq).
    left. repeat split; try assumption.
    eexists _, _. split; [now simplify_map_eq|]. split; [now simplify_map_eq|].
    split; (apply uniform_between; [apply Hneg; now apply Qlt_le_weak|apply Hdraw]).
  - repeat split; try assumption; try (now simplify_map_eq).
    right. repeat split; try assumption; now simplify_map_eq.
Qed.

Lemma sampled_transformation_within_bounds_witness :
  exists (p m : Np.ndarray) (t : gmap string AdversarialPatchNumpy.value)
         (s' : AdversarialPatchNumpy.state unit),
    AdversarialPatchNumpy._random_transformation Spec.rotate_still Spec.shift_still
      Spec.zoom_sampled (fun _ => 1 # 2) unit Spec.small_attack
      (Spec.constant (4, 4, 1)%nat (1 # 2)) None
      (Spec.fresh_state unit (Spec.constant (4, 4, 1)%nat (1 # 2)))
    = (Ok (p, m, t), s')
    /\ exists angle sc : Q,
         t !! "rotate" = Some (AdversarialPatchNumpy.VFloat angle)
         /\ (- AdversarialPatchNumpy.rotation_max Spec.small_attack <= angle
             <= AdversarialPatchNumpy.rotation_max Spec.small_attack)%Q
         /\ t !! "scale" = Some (AdversarialPatchNumpy.VFloat sc)
         /\ (AdversarialPatchNumpy.scale_min Spec.small_attack <= sc
             <= AdversarialPatchNumpy.scale_max Spec.small_attack)%Q
         /\ (((0 < Spec.shift_max Spec.small_attack
                         (AdversarialPatchNumpy.i_h Spec.small_attack) sc)%Q
              /\ (0 < Spec.shift_max Spec.small_attack
                          (AdversarialPatchNumpy.i_w Spec.small_attack) sc)%Q
              /\ exists shift_h shift_w : Q,
                   t !! "shift_1" = Some (AdversarialPatchNumpy.VFloat shift_h)
                   /\ t !! "shift_2" = Some (AdversarialPatchNumpy.VFloat shift_w)
                   /\ (- Spec.shift_max Spec.small_attack
                           (AdversarialPatchNumpy.i_h Spec.small_attack) sc
                       <= shift_h
                       <= Spec.shift_max Spec.small_attack
                            (AdversarialPatchNumpy.i_h Spec.small_attack) sc)%Q
                   /\ (- Spec.shift_max Spec.small_attack
                           (AdversarialPatchNumpy.i_w Spec.small_attack) sc
                       <= shift_w
                       <= Spec.shift_max Spec.small_attack
                            (AdversarialPatchNumpy.i_w Spec.small_attack) sc)%Q)
             \/ (~ ((0 < Spec.shift_max Spec.small_attack
                           (AdversarialPatchNumpy.i_h Spec.small_attack) sc)%Q
                    /\ (0 < Spec.shift_max Spec.small_attack
                               (AdversarialPatchNumpy.i_w Spec.small_attack) sc)%Q)
                 /\ t !! "shift" = Some (AdversarialPatchNumpy.VTuple [0; 0; 0])
                 /\ t !! "shift_1" = None /\ t !! "shift_2" = None)).
Proof.
  assert (Hok : (let '(r, _) :=
                   AdversarialPatchNumpy._random_transformation Spec.rotate_still
                     Spec.shift_still Spec.zoom_sampled (fun _ => 1 # 2) unit
                     Spec.small_attack (Spec.constant (4, 4, 1)%nat (1 # 2)) None
                     (Spec.fresh_state unit (Spec.constant (4, 4, 1)%nat (1 # 2)))
                 in match r with Ok _ => true | Raise _ => false end) = true)
    by (lazy; reflexivity).
  destruct (AdversarialPatchNumpy._random_transformation _ _ _ _ _ _ _ _ _)
    as [[[[p m] t]|e] s'] eqn:Hrun; [|discriminate Hok].
  exists p, m, t, s'. split; [reflexivity|].
  pose proof (sampled_transformation_within_bounds Spec.rotate_still
                Spec.shift_still Spec.zoom_sampled (fun _ => 1 # 2) unit
                Spec.small_attack (Spec.constant (4, 4, 1)%nat (1 # 2)) None
                (Spec.fresh_state unit (Spec.constant (4, 4, 1)%nat (1 # 2)))
                s' p m t) as Hbounds.
  cbv beta iota zeta in Hbounds. apply Hbounds.
  - discriminate.
  - discriminate.
  - intros n. split; discriminate.
  - exact Hrun.
Defined.

(** ** The state monad of the attack *)

Section MonadFacts.

Import Np AdversarialPatchNumpy Spec.

Variable label : Type.

Lemma bind_ok {A B} (m : M label A) (k : A -> M label B)
    (s s' : state label) (b : B) :
  @mbind (M label) (M_bind label) A B k m s = (Ok b, s') ->
  exists a s1, m s = (Ok a, s1) /\ k a s1 = (Ok b, s').
Proof.
  unfold mbind, M_bind. destruct (m s) as [[a|e] s1]; intros H.
  - now exists a, s1.
  - discriminate H.
Qed.

Lemma quiet_lift {A} (r : result A) : quiet (lift label r).
Proof. intros s r' s' [= _ <-]. split; reflexivity. Qed.

Lemma quiet_ret {A} (a : A) : quiet (@mret (M label) (M_ret label) A a).
Proof. intros s r' s' [= _ <-]. split; reflexivity. Qed.

Lemma quiet_get_patch : quiet (get_patch label).
Proof. intros s r' s' [= _ <-]. split; reflexivity. Qed.

Lemma quiet_uniform (random_random : nat -> Q) (a b : Q) :
  quiet (random_uniform random_random label a b).
Proof. intros s r' s' [= _ <-]. split; reflexivity. Qed.

Lemma quiet_bind {A B} (m : M label A) (k : A -> M label B) :
  quiet m -> (forall a, quiet (k a)) ->
  quiet (@mbind (M label) (M_bind label) A B k m).
Proof.
  intros Hm Hk s r s'. unfold mbind, M_bind.
  destruct (m s) as [[a|e] s1] eqn:E; intros H.
  - destruct (Hm _ _ _ E) as [Hq Hp]. destruct (Hk a _ _ _ H) as [Hq' Hp'].
    split; congruence.
  - injection H as _ <-. eapply Hm, E.
Qed.

Lemma quiet_for_each {A S} (xs : list A) (body : A -> S -> M label S) (acc : S) :
  (forall x acc', quiet (body x acc')) -> quiet (for_eachM label xs body acc).
Proof.
  intros Hbody. revert acc. induction xs as [|x xs IH]; intros acc; simpl.
  - apply quiet_ret.
  - apply quiet_bind; [apply Hbody|]. intros a. apply IH.
Qed.

End MonadFacts.

(** ** Sampling and augmentation *)

Section AugmentFacts.

Import Np AdversarialPatchNumpy Spec.

Variable rotate : ndarray -> Q -> nat * nat -> ndarray.
Variable shift : ndarray -> Q * Q * Q -> ndarray.
Variable zoom : ndarray -> Q * Q * Q -> ndarray.
Variable random_random : nat -> Q.
Variable label : Type.
Variable self : attack.

Lemma quiet_sampler (patch : ndarray) (scale : option Q) :
  quiet (_random_transformation rotate shift zoom random_random label self
           patch scale).
Proof.
  unfold _random_transformation.
  apply quiet_bind; [apply quiet_lift|intros mask]. cbv zeta.
  apply quiet_bind; [apply quiet_uniform|intros angle].
  apply quiet_bind;
    [destruct scale; [apply quiet_ret|apply quiet_uniform]|intros sc].
  apply quiet_bind; [apply quiet_lift|intros p1].
  apply quiet_bind; [apply quiet_lift|intros m1].
  destruct (_ && _).
  - apply quiet_bind; [apply quiet_uniform|intros sh].
    apply quiet_bind; [apply quiet_uniform|intros sw].
    unfold _shift. apply quiet_ret.
  - apply quiet_ret.
Qed.

(** No sampled record has an entry under the key ["shift_h"]. *)
Lemma sampled_record_keys (patch : ndarray) (scale : option Q)
    (s s' : state label) (p m : ndarray) (t : gmap string value) :
  _random_transformation rotate shift zoom random_random label self patch scale s
  = (Ok (p, m, t), s') ->
  t !! "shift_h" = None.
Proof.
  intros Hrun.
  destruct (sampled_record rotate shift zoom random_random label self
              patch scale s s' p m t Hrun) as (n0 & n1 & n2 & n3 & Hrec).
  cbv zeta in Hrec. unfold base_record in Hrec.
  destruct Hrec as [(_ & _ & ->)|(_ & ->)]; now simplify_map_eq.
Qed.

Lemma for_each_invariant {A S} (P : S -> Prop) (xs : list A)
    (body : A -> S -> M label S) (acc : S) (s s' : state label) (r : S) :
  (forall x a s1 a' s2, P a -> body x a s1 = (Ok a', s2) -> P a') ->
  P acc ->
  for_eachM label xs body acc s = (Ok r, s') -> P r.
Proof.
  intros Hbody. revert acc s. induction xs as [|x xs IH]; intros acc s Hacc Hrun.
  - injection Hrun as <- _. exact Hacc.
  - simpl in Hrun. apply bind_ok in Hrun as (a & s1 & Hstep & Hrest).
    eapply IH; [|exact Hrest]. eapply Hbody; eassumption.
Qed.

Lemma lift_ok {A} (r : result A) (s s' : state label) (a : A) :
  lift label r s = (Ok a, s') -> r = Ok a /\ s' = s.
Proof. unfold lift. intros [= -> ->]. split; reflexivity. Qed.

(** The records collected by the augmentation are sampled records, and
    the augmentation makes no gradient query. *)
Lemma augment_records (images : list ndarray) (patch : ndarray)
    (scale : option Q) (s s' : state label)
    (patched masks : list ndarray) (records : list (gmap string value)) :
  _augment_images_with_random_patch rotate shift zoom random_random label self
    images patch scale s = (Ok (patched, masks, records), s') ->
  Forall (fun t => t !! "shift_h" = None) records.
Proof.
  unfold _augment_images_with_random_patch. intros Hrun.
  apply bind_ok in Hrun as ([[pi0 pm0] ts0] & s1 & Hloop & Hrest).
  apply bind_ok in Hrest as (pi1 & s2 & _ & Hrest).
  apply bind_ok in Hrest as (pm1 & s3 & _ & Hret).
  injection Hret as _ _ <- _.
  apply (for_each_invariant
           (fun acc : list ndarray * list ndarray * list (gmap string value) =>
              Forall (fun t => t !! "shift_h" = None) acc.2)
           _ _ _ _ _ _) in Hloop; [exact Hloop| |constructor].
  intros image [[a b] c] sa [[a' b'] c'] sb Hc Hstep. simpl in Hc |- *.
  apply bind_ok in Hstep as ([[pt pmt] t] & sc & Hsample & Hstep).
  apply bind_ok in Hstep as (bg & sd & _ & Hstep).
  apply bind_ok in Hstep as (fg & se & _ & Hstep).
  apply bind_ok in Hstep as (pim & sf & _ & Hstep).
  injection Hstep as _ _ <- _.
  apply Forall_app. split; [assumption|]. constructor; [|constructor].
  eapply sampled_record_keys, Hsample.
Qed.

Lemma quiet_augment (images : list ndarray) (patch : ndarray) (scale : option Q) :
  quiet (_augment_images_with_random_patch rotate shift zoom random_random
           label self images patch scale).
Proof.
  unfold _augment_images_with_random_patch.
  apply quiet_bind.
  - apply quiet_for_each. intros image [[a b] c].
    apply quiet_bind; [apply quiet_sampler|intros [[pt pmt] t]]. cbv zeta.
    repeat (apply quiet_bind; [apply quiet_lift|intros ?]).
    apply quiet_ret.
  - intros [[a b] c].
    repeat (apply quiet_bind; [apply quiet_lift|intros ?]).
    apply quiet_ret.
Qed.

End AugmentFacts.

(** ** Mapping a gradient back into patch space *)

Section ReverseFacts.

Import Np AdversarialPatchNumpy Spec.

Variable rotate : ndarray -> Q -> nat * nat -> ndarray.
Variable shift : ndarray -> Q * Q * Q -> ndarray.
Variable zoom : ndarray -> Q * Q * Q -> ndarray.
Variable self : attack.

Lemma binop_same_shape (f : Q -> Q -> Q) (a b : ndarray) :
  shape a = shape b -> exists c, binop f a b = Ok c.
Proof.
  intros Hab. unfold binop. rewrite <- Hab.
  destruct (shape a) as [[d0 d1] d2] eqn:Ha.
  unfold bdim. rewrite !Nat.eqb_refl. simpl.
  destruct (broadcast_to_same a) as (a' & Ea & _). rewrite Ha in Ea.
  destruct (broadcast_to_same b) as (b' & Eb & _). rewrite <- Hab in Eb.
  rewrite Ea. simpl. rewrite Eb. simpl. eexists. reflexivity.
Qed.

(** A record without the key ["shift_h"] stops the reverse mapping at its
    first lookup. *)
Lemma reverse_without_shift_h (gradients mask : ndarray)
    (t : gmap string value) :
  t !! "shift_h" = None ->
  (exists e, _reverse_transformation rotate shift zoom self gradients mask t
             = Raise e)
  /\ (shape gradients = shape mask ->
      _reverse_transformation rotate shift zoom self gradients mask t
      = Raise (KeyError "shift_h")).
Proof.
  intros Hkey. unfold _reverse_transformation, dict_get. rewrite Hkey. split.
  - destruct (binop Qmult gradients mask) as [g|e]; simpl; eexists; reflexivity.
  - intros Hshape.
    destruct (binop_same_shape Qmult gradients mask Hshape) as (g & ->).
    reflexivity.
Qed.

End ReverseFacts.

(** C1. The code does not meet the claim: whatever record the sampler
    returns, [_reverse_transformation] raises on it, and on a gradient of
    the mask's shape the exception is the [KeyError] of the lookup
    [transformation["shift_h"]], a key the sampler never writes (it writes
    ["shift_1"] and ["shift_2"], or ["shift"]). *)
Theorem sampled_record_cannot_be_inverted
    (rotate : Np.ndarray -> Q -> nat * nat -> Np.ndarray)
    (shift zoom : Np.ndarray -> Q * Q * Q -> Np.ndarray)
    (random_random : nat -> Q) (label : Type)
    (self : AdversarialPatchNumpy.attack) (patch : Np.ndarray) (scale : option Q)
    (s s' : AdversarialPatchNumpy.state label) (p m : Np.ndarray)
    (t : gmap string AdversarialPatchNumpy.value) (gradients : Np.ndarray) :
  AdversarialPatchNumpy._random_transformation rotate shift zoom random_random
    label self patch scale s = (Ok (p, m, t), s') ->
  (exists e,
     AdversarialPatchNumpy._reverse_transformation rotate shift zoom self
       gradients m t = Raise e)
  /\ (Np.shape gradients = Np.shape m ->
      AdversarialPatchNumpy._reverse_transformation rotate shift zoom self
        gradients m t = Raise (KeyError "shift_h")).
Proof.
  intros Hrun. apply reverse_without_shift_h.
  eapply sampled_record_keys, Hrun.
Qed.

Lemma sampled_record_cannot_be_inverted_witness :
  exists (p m : Np.ndarray) (t : gmap string AdversarialPatchNumpy.value)
         (s' : AdversarialPatchNumpy.state unit),
    AdversarialPatchNumpy._random_transformation Spec.rotate_still Spec.shift_still
      Spec.zoom_sampled (fun _ => 1 # 2) unit Spec.small_attack
      (Spec.constant (4, 4, 1)%nat (1 # 2)) None
      (Spec.fresh_state unit (Spec.constant (4, 4, 1)%nat (1 # 2)))
    = (Ok (p, m, t), s')
    /\ (exists e,
          AdversarialPatchNumpy._reverse_transformation Spec.rotate_still
            Spec.shift_still Spec.zoom_sampled Spec.small_attack
            (Spec.constant (4, 4, 1)%nat 1) m t = Raise e)
    /\ (Np.shape (Spec.constant (4, 4, 1)%nat 1) = Np.shape m ->
        AdversarialPatchNumpy._reverse_transformation Spec.rotate_still
          Spec.shift_still Spec.zoom_sampled Spec.small_attack
          (Spec.constant (4, 4, 1)%nat 1) m t = Raise (KeyError "shift_h")).
Proof.
  assert (Hok : (let '(r, _) :=
                   AdversarialPatchNumpy._random_transformation Spec.rotate_still
                     Spec.shift_still Spec.zoom_sampled (fun _ => 1 # 2) unit
                     Spec.small_attack (Spec.constant (4, 4, 1)%nat (1 # 2)) None
                     (Spec.fresh_state unit (Spec.constant (4, 4, 1)%nat (1 # 2)))
                 in match r with Ok _ => true | Raise _ => false end) = true)
    by (lazy; reflexivity).
  destruct (AdversarialPatchNumpy._random_transformation _ _ _ _ _ _ _ _ _)
    as [[[[p m] t]|e] s'] eqn:Hrun; [|discriminate Hok].
  exists p, m, t, s'. split; [reflexivity|].
  exact (sampled_record_cannot_be_inverted Spec.rotate_still Spec.shift_still
           Spec.zoom_sampled (fun _ => 1 # 2) unit Spec.small_attack
           (Spec.constant (4, 4, 1)%nat (1 # 2)) None
           (Spec.fresh_state unit (Spec.constant (4, 4, 1)%nat (1 # 2)))
           s' p m t (Spec.constant (4, 4, 1)%nat 1) Hrun).
Defined.

(** ** One optimizer iteration *)

Section IterationFacts.

Import Np AdversarialPatchNumpy Spec.

Variable rotate : ndarray -> Q -> nat * nat -> ndarray.
Variable shift : ndarray -> Q * Q * Q -> ndarray.
Variable zoom : ndarray -> Q * Q * Q -> ndarray.
Variable random_random : nat -> Q.
Variable label : Type.
Variable loss_gradient : list ndarray -> list label -> list ndarray.
Variable self : attack.

#[local] Existing Instance M_bind.

Lemma bind_raise {A B} (m : M label A) (k : A -> M label B)
    (s s1 : state label) (e : py_error) :
  m s = (Raise e, s1) ->
  @mbind (M label) (M_bind label) A B k m s = (Raise e, s1).
Proof. intros H. unfold mbind, M_bind. now rewrite H. Qed.

Lemma bind_step {A B} (m : M label A) (k : A -> M label B)
    (s s1 : state label) (a : A) :
  m s = (Ok a, s1) ->
  @mbind (M label) (M_bind label) A B k m s = k a s1.
Proof. intros H. unfold mbind, M_bind. now rewrite H. Qed.

Lemma py_index_elem {A} (l : list A) (i : Z) (a : A) :
  py_index l i = Ok a -> a ∈ l.
Proof.
  unfold py_index. destruct (_ && _); [|discriminate].
  destruct (l !! _) as [b|] eqn:E; [|discriminate].
  intros [= <-]. eapply list_elem_of_lookup_2, E.
Qed.

(** With records that lack ["shift_h"], the body of the loop over the
    images of a batch raises and leaves the state as it is. *)
Lemma image_step_raises (gradients masks : list ndarray)
    (records : list (gmap string value)) (i_image : Z)
    (patch_gradients : ndarray) (s : state label) :
  Forall (fun t => t !! "shift_h" = None) records ->
  exists e,
    (g ← lift label (py_index gradients i_image);
     m ← lift label (py_index masks i_image);
     t ← lift label (py_index records i_image);
     patch_gradients_i ←
       lift label (_reverse_transformation rotate shift zoom self g m t);
     lift label (inplace Qplus patch_gradients patch_gradients_i)) s
    = (Raise e, s).
Proof.
  intros Hrecords. unfold mbind, M_bind, lift.
  destruct (py_index gradients i_image) as [g|e]; [|eexists; reflexivity].
  destruct (py_index masks i_image) as [m|e]; [|eexists; reflexivity].
  destruct (py_index records i_image) as [t|e] eqn:Et; [|eexists; reflexivity].
  apply py_index_elem in Et.
  rewrite Forall_forall in Hrecords. specialize (Hrecords t Et).
  destruct (reverse_without_shift_h rotate shift zoom self g m t Hrecords)
    as [[e He] _].
  rewrite He. eexists; reflexivity.
Qed.

Lemma for_each_first_raises {A S} (x : A) (xs : list A)
    (body : A -> S -> M label S) (acc : S) (s s1 : state label) (e : py_error) :
  body x acc s = (Raise e, s1) ->
  for_eachM label (x :: xs) body acc s = (Raise e, s1).
Proof. intros H. simpl. now apply bind_raise. Qed.

Lemma py_range_cons (n : Z) : 0 < n -> py_range n = 0 :: seqZ 1 (n - 1).
Proof.
  intros Hn. unfold py_range. rewrite seqZ_cons by assumption.
  reflexivity.
Qed.

(** As soon as the input holds one full batch, an iteration stops with
    an exception in the first image of the first batch, after a single
    gradient query (or none, when the augmentation itself fails), and the
    patch is as before. *)
Lemma iteration_with_full_batch (x : list ndarray) (y_target : list label)
    (s : state label) :
  1 <= batch_size self <= Z.of_nat (length x) ->
  exists e s',
    generate_iteration rotate shift zoom random_random label loss_gradient
      self x y_target s = (Raise e, s')
    /\ (length (gradient_queries s') <= length (gradient_queries s) + 1)%nat
    /\ patch s' = patch s.
Proof.
  intros HB. unfold generate_iteration.
  rewrite (bind_step (get_patch label) _ s s (patch s) eq_refl).
  destruct (_augment_images_with_random_patch rotate shift zoom random_random
              label self x (patch s) None s)
    as [[[[patched masks] records]|e] s1] eqn:Eaug.
  2:{ rewrite (bind_raise _ _ _ _ _ Eaug). exists e, s1.
      split; [reflexivity|].
      destruct (quiet_augment _ _ _ _ _ _ _ _ _ _ _ _ Eaug) as [-> ->].
      split; [lia|reflexivity]. }
  rewrite (bind_step _ _ _ _ _ Eaug). cbv beta iota.
  destruct (quiet_augment _ _ _ _ _ _ _ _ _ _ _ _ Eaug) as [Hq1 Hp1].
  pose proof (augment_records _ _ _ _ _ _ _ _ _ _ _ _ _ _ Eaug) as Hrecords.
  assert (Hdiv : int_div (Z.of_nat (length x)) (batch_size self)
                 = Ok (Z.of_nat (length x) ÷ batch_size self)).
  { unfold int_div. destruct (Z.eqb_spec (batch_size self) 0); [lia|reflexivity]. }
  assert (Hnb : 0 < Z.of_nat (length x) ÷ batch_size self).
  { apply Z.quot_str_pos. lia. }
  rewrite (bind_step (lift label _) _ s1 s1 _ (f_equal (fun r => (r, s1)) Hdiv)).
  rewrite (py_range_cons _ Hnb).
  rewrite (py_range_cons (batch_size self)) by lia.
  set (s2 := {| patch := patch s1; random_calls := random_calls s1;
                gradient_queries :=
                  gradient_queries s1
                  ++ [(batch_slice patched (0 * batch_size self) ((0 + 1) * batch_size self),
                       batch_slice y_target (0 * batch_size self) ((0 + 1) * batch_size self))] |}).
  destruct (image_step_raises
              (loss_gradient
                 (batch_slice patched (0 * batch_size self) ((0 + 1) * batch_size self))
                 (batch_slice y_target (0 * batch_size self) ((0 + 1) * batch_size self)))
              masks records 0 (zeros_like (patch s)) s2 Hrecords) as [e He].
  exists e, s2. split.
  - apply bind_raise. apply for_each_first_raises.
    unfold call_loss_gradient.
    rewrite (bind_step _ _ s1 s2 (loss_gradient _ _) eq_refl).
    apply for_each_first_raises. exact He.
  - unfold s2. simpl. rewrite length_app, Hq1, Hp1. simpl. split; [lia|reflexivity].
Qed.

(** An iteration that completes ends by storing a clipped patch. *)
Lemma completed_iteration_clips (x : list ndarray) (y_target : list label)
    (s s' : state label) (u : unit) :
  generate_iteration rotate shift zoom random_random label loss_gradient
    self x y_target s = (Ok u, s') ->
  exists p, patch s' = clip p (fst (clip_values (estimator self)))
                         (snd (clip_values (estimator self))).
Proof.
  unfold generate_iteration. intros H.
  apply bind_ok in H as (p0 & s0 & _ & H).
  apply bind_ok in H as ([[a b] c] & s1 & _ & H).
  apply bind_ok in H as (nb & s2 & _ & H).
  apply bind_ok in H as (pg & s3 & _ & H).
  apply bind_ok in H as (p1 & s4 & _ & H).
  apply bind_ok in H as (p2 & s5 & _ & H).
  unfold set_patch in H. injection H as _ <-. now exists p2.
Qed.

Lemma Qclip_within (q lo hi : Q) :
  (lo <= hi)%Q -> (lo <= Qclip q lo hi <= hi)%Q.
Proof.
  intros Hle. unfold Qclip. split.
  - apply Q.min_glb; [apply Q.le_max_r|assumption].
  - apply Q.le_min_r.
Qed.

End IterationFacts.

(** C5. The code does not meet the claim: as soon as the input holds one
    full batch, the iteration raises in the first image of the first batch
    (the reverse mapping looks up a key the sampled record does not have).
    At most one batch has then been sent to the gradient query, nothing has
    been accumulated, and the patch is unchanged. *)
Theorem full_batch_iteration_raises
    (rotate : Np.ndarray -> Q -> nat * nat -> Np.ndarray)
    (shift zoom : Np.ndarray -> Q * Q * Q -> Np.ndarray)
    (random_random : nat -> Q) (label : Type)
    (loss_gradient : list Np.ndarray -> list label -> list Np.ndarray)
    (self : AdversarialPatchNumpy.attack)
    (x : list Np.ndarray) (y_target : list label)
    (s : AdversarialPatchNumpy.state label) :
  1 <= AdversarialPatchNumpy.batch_size self <= Z.of_nat (length x) ->
  exists e s',
    AdversarialPatchNumpy.generate_iteration rotate shift zoom random_random
      label loss_gradient self x y_target s = (Raise e, s')
    /\ (length (AdversarialPatchNumpy.gradient_queries s')
        <= length (AdversarialPatchNumpy.gradient_queries s) + 1)%nat
    /\ AdversarialPatchNumpy.patch s' = AdversarialPatchNumpy.patch s.
Proof. apply iteration_with_full_batch. Qed.

Lemma full_batch_iteration_raises_witness :
  exists e s',
    AdversarialPatchNumpy.generate_iteration Spec.rotate_still Spec.shift_still
      Spec.zoom_sampled (fun _ => 1 # 2) unit (fun images _ => images)
      Spec.small_attack_b1
      [Spec.constant (4, 4, 1)%nat 0; Spec.constant (4, 4, 1)%nat 1] [tt; tt]
      (Spec.fresh_state unit (Spec.constant (4, 4, 1)%nat (1 # 2)))
    = (Raise e, s')
    /\ (length (AdversarialPatchNumpy.gradient_queries s')
        <= length (AdversarialPatchNumpy.gradient_queries
                     (Spec.fresh_state unit (Spec.constant (4, 4, 1)%nat (1 # 2))))
           + 1)%nat
    /\ AdversarialPatchNumpy.patch s'
       = AdversarialPatchNumpy.patch
           (Spec.fresh_state unit (Spec.constant (4, 4, 1)%nat (1 # 2))).
Proof.
  apply (full_batch_iteration_raises Spec.rotate_still Spec.shift_still
           Spec.zoom_sampled (fun _ => 1 # 2) unit (fun images _ => images)
           Spec.small_attack_b1
           [Spec.constant (4, 4, 1)%nat 0; Spec.constant (4, 4, 1)%nat 1] [tt; tt]).
  split; [reflexivity|]. simpl. lia.
Defined.

(** C6. After every optimizer iteration that completes, every element of
    the patch lies within the classifier's range [clip_min, clip_max]. *)
Theorem patch_within_clip_values_after_iteration
    (rotate : Np.ndarray -> Q -> nat * nat -> Np.ndarray)
    (shift zoom : Np.ndarray -> Q * Q * Q -> Np.ndarray)
    (random_random : nat -> Q) (label : Type)
    (loss_gradient : list Np.ndarray -> list label -> list Np.ndarray)
    (self : AdversarialPatchNumpy.attack)
    (x : list Np.ndarray) (y_target : list label)
    (s s' : AdversarialPatchNumpy.state label) (u : unit) :
  (fst (AdversarialPatchNumpy.clip_values (AdversarialPatchNumpy.estimator self))
   <= snd (AdversarialPatchNumpy.clip_values (AdversarialPatchNumpy.estimator self)))%Q ->
  AdversarialPatchNumpy.generate_iteration rotate shift zoom random_random
    label loss_gradient self x y_target s = (Ok u, s') ->
  forall i j k,
    (fst (AdversarialPatchNumpy.clip_values (AdversarialPatchNumpy.estimator self))
     <= Np.item (AdversarialPatchNumpy.patch s') i j k
     <= snd (AdversarialPatchNumpy.clip_values (AdversarialPatchNumpy.estimator self)))%Q.
Proof.
  intros Hrange Hrun i j k.
  destruct (completed_iteration_clips rotate shift zoom random_random label
              loss_gradient self x y_target s s' u Hrun) as [p ->].
  simpl. now apply Qclip_within.
Qed.

Lemma patch_within_clip_values_after_iteration_witness :
  exists s' : AdversarialPatchNumpy.state unit,
    AdversarialPatchNumpy.generate_iteration Spec.rotate_still Spec.shift_still
      Spec.zoom_sampled (fun _ => 1 # 2) unit (fun images _ => images)
      Spec.small_attack [Spec.constant (4, 4, 1)%nat 0] [tt]
      (Spec.fresh_state unit (Spec.constant (4, 4, 1)%nat (3 # 2)))
    = (Ok tt, s')
    /\ forall i j k,
         (fst (AdversarialPatchNumpy.clip_values
                 (AdversarialPatchNumpy.estimator Spec.small_attack))
          <= Np.item (AdversarialPatchNumpy.patch s') i j k
          <= snd (AdversarialPatchNumpy.clip_values
                    (AdversarialPatchNumpy.estimator Spec.small_attack)))%Q.
Proof.
  assert (Hok : (let '(r, _) :=
                   AdversarialPatchNumpy.generate_iteration Spec.rotate_still
                     Spec.shift_still Spec.zoom_sampled (fun _ => 1 # 2) unit
                     (fun images _ => images) Spec.small_attack
                     [Spec.constant (4, 4, 1)%nat 0] [tt]
                     (Spec.fresh_state unit (Spec.constant (4, 4, 1)%nat (3 # 2)))
                 in match r with Ok _ => true | Raise _ => false end) = true)
    by (lazy; reflexivity).
  destruct (AdversarialPatchNumpy.generate_iteration _ _ _ _ _ _ _ _ _ _)
    as [[[]|e] s'] eqn:Hrun; [|discriminate Hok].
  exists s'. split; [reflexivity|].
  apply (patch_within_clip_values_after_iteration Spec.rotate_still
           Spec.shift_still Spec.zoom_sampled (fun _ => 1 # 2) unit
           (fun images _ => images) Spec.small_attack
           [Spec.constant (4, 4, 1)%nat 0] [tt]
           (Spec.fresh_state unit (Spec.constant (4, 4, 1)%nat (3 # 2))) s' tt).
  - discriminate.
  - exact Hrun.
Defined.

(** * Further properties of the code *)

(** ** Running a converted network *)

Section ForwardFacts.

Import ConvertedModel ConvertedModelRun Spec.

Variable tensor : Type.
Variable array : Type.
Variable data : Type.
Variable op_abstract : zono_op tensor -> data -> result data.
Variable op_concrete : zono_op tensor -> data -> result data.
Variable concatenate_to_tensor : array -> array -> result data.
Variable from_numpy : array -> data.
Variable reshape : data -> data.
Variable center_and_errors : data -> result (data * data).

(** The loop over the enumerated layers, started at position [k], once the
    reshape point [r] has been read. *)
Lemma loop_schedule (run : zono_op tensor -> data -> result data)
    (r : Z) (layers : list (zono_op tensor)) (k : nat) (x : data) :
  for_each (imap (fun i a => (Z.of_nat (k + i), a)) layers)
    (fun '(op_num, op) x => run op (if r =? op_num then reshape x else x))
    x
  = if (Z.of_nat k <=? r) && (r <? Z.of_nat (k + length layers))
    then y ← run_layers run (take (Z.to_nat r - k) layers) x;
         run_layers run (drop (Z.to_nat r - k) layers) (reshape y)
    else run_layers run layers x.
Proof.
  unfold run_layers. revert k x. induction layers as [|op layers IH]; intros k x.
  - simpl. rewrite Nat.add_0_r.
    destruct (Z.leb_spec (Z.of_nat k) r), (Z.ltb_spec r (Z.of_nat k));
      simpl; try reflexivity; lia.
  - cbn [imap for_each]. rewrite Nat.add_0_r.
    assert (Hshift : imap ((fun i a => (Z.of_nat (k + i), a)) ∘ S) layers
                     = imap (fun i a => (Z.of_nat (S k + i), a)) layers).
    { apply imap_ext. intros i a _. simpl. do 2 f_equal. lia. }
    rewrite Hshift.
    replace (Z.of_nat (k + length (op :: layers)))
      with (Z.of_nat (S k + length layers)) by (simpl; lia).
    destruct (Z.eqb_spec r (Z.of_nat k)) as [->|Hne].
    + rewrite Nat2Z.id, Nat.sub_diag. cbn [take drop].
      destruct (Z.leb_spec (Z.of_nat k) (Z.of_nat k)); [|lia].
      destruct (Z.ltb_spec (Z.of_nat k) (Z.of_nat (S k + length layers))); [|lia].
      cbn [andb for_each mbind result_bind rbind].
      destruct (run op (reshape x)) as [y|e]; [|reflexivity]. cbn [mbind result_bind rbind].
      rewrite IH.
      destruct (Z.leb_spec (Z.of_nat (S k)) (Z.of_nat k)); [lia|]. reflexivity.
    + destruct ((Z.of_nat k <=? r) && (r <? Z.of_nat (S k + length layers))) eqn:E.
      * apply andb_true_iff in E as [E1 E2].
        apply Z.leb_le in E1. apply Z.ltb_lt in E2.
        replace (Z.to_nat r - k)%nat with (S (Z.to_nat r - S k)) by lia.
        cbn [take drop for_each mbind result_bind rbind].
        destruct (run op x) as [y|e]; [|reflexivity]. cbn [mbind result_bind rbind].
        rewrite IH.
        destruct (Z.leb_spec (Z.of_nat (S k)) r); [|lia].
        destruct (Z.ltb_spec r (Z.of_nat (S k + length layers))); [|lia].
        reflexivity.
      * assert (Hout : r < Z.of_nat k \/ Z.of_nat (S k + length layers) <= r).
        { apply andb_false_iff in E as [E|E];
            [apply Z.leb_gt in E|apply Z.ltb_ge in E]; tauto. }
        clear E. cbn [for_each mbind result_bind rbind].
        destruct (run op x) as [y|e]; [|reflexivity]. cbn [mbind result_bind rbind].
        rewrite IH.
        destruct (Z.leb_spec (Z.of_nat (S k)) r); [|reflexivity].
        destruct (Z.ltb_spec r (Z.of_nat (S k + length layers))); [|reflexivity].
        lia.
Qed.

(** Both passes run the layers before the reshape point, reshape, and run
    the remaining layers. *)
Lemma forward_loop_schedule (self : t tensor)
    (run : zono_op tensor -> data -> result data) (r : Z) (x : data) :
  reshape_op_num self = Some r ->
  0 <= r < Z.of_nat (length (ops self)) ->
  forward_loop tensor data reshape self run x
  = (y ← run_layers run (take (Z.to_nat r) (ops self)) x;
     run_layers run (drop (Z.to_nat r) (ops self)) (reshape y)).
Proof.
  intros Hr Hrange. unfold forward_loop, get_reshape_op_num. rewrite Hr.
  cbn [mbind result_bind rbind].
  pose proof (loop_schedule run r (ops self) 0 x) as Hloop.
  cbn [Nat.add] in Hloop. rewrite Nat.sub_0_r in Hloop.
  destruct (Z.leb_spec (Z.of_nat 0) r); [|lia].
  destruct (Z.ltb_spec r (Z.of_nat (length (ops self)))); [|lia].
  exact Hloop.
Qed.

(** Without a reshape point the loop stops at its first layer. *)
Lemma forward_loop_unset (self : t tensor)
    (run : zono_op tensor -> data -> result data) (x : data) :
  reshape_op_num self = None ->
  forward_loop tensor data reshape self run x
  = match ops self with
    | [] => Ok x
    | _ :: _ => Raise (AttributeError "reshape_op_num")
    end.
Proof.
  intros Hr. unfold forward_loop, get_reshape_op_num, enumerate. rewrite Hr.
  now destruct (ops self).
Qed.

End ForwardFacts.

(** ** Conversion of arbitrary layer sequences *)

Section ConversionTotality.

Import ConvertedModel Spec.

Context {T : Type}.

Lemma for_each_result_invariant {A S} (P : S -> Prop) (xs : list A)
    (body : A -> S -> result S) (s : S) :
  (forall x a, x ∈ xs -> P a -> exists a', body x a = Ok a' /\ P a') ->
  P s ->
  exists r, for_each xs body s = Ok r /\ P r.
Proof.
  revert s. induction xs as [|x xs IH]; intros s Hbody Hs.
  - exists s. split; [reflexivity|assumption].
  - destruct (Hbody x s (list_elem_of_here _ _) Hs) as (a' & Ha' & HP).
    cbn [for_each mbind result_bind]. rewrite Ha'. cbn [rbind].
    apply IH; [|assumption].
    intros y a Hy. apply Hbody. now apply list_elem_of_further.
Qed.

(** What the first loop has accepted when it returns. *)
Lemma convert_modules_inv (modules : list (torch_module T))
    (acc ops' : list (zono_op T)) :
  for_each modules (convert_module T) acc = Ok ops' ->
  Forall convertible modules
  /\ exists added, ops' = acc ++ added
                   /\ map kind_of_op added = map kind_of_module modules.
Proof.
  revert acc. induction modules as [|m modules IH]; intros acc Hrun.
  - injection Hrun as <-. split; [constructor|]. exists [].
    now rewrite app_nil_r.
  - cbn [for_each mbind result_bind] in Hrun.
    destruct (convert_module T m acc) as [acc'|e] eqn:Em; [|discriminate Hrun].
    cbn [rbind] in Hrun. destruct (IH _ Hrun) as (Hall & added & -> & Hk).
    destruct m as [ic oc ks st dl pd w [b|] | fi fo w [b|] | | name];
      try discriminate Em; injection Em as <-.
    + split; [constructor; [split; [eexists; reflexivity|discriminate]|assumption]|].
      eexists (_ :: added). rewrite <- app_assoc. split; [reflexivity|].
      simpl. now rewrite Hk.
    + split; [constructor; [split; [eexists; reflexivity|discriminate]|assumption]|].
      eexists (_ :: added). rewrite <- app_assoc. split; [reflexivity|].
      simpl. now rewrite Hk.
    + split; [constructor; [split; [exact I|discriminate]|assumption]|].
      eexists (_ :: added). rewrite <- app_assoc. split; [reflexivity|].
      simpl. now rewrite Hk.
Qed.

(** One pass of the second loop never raises: it keeps the reshape point
    or moves it to the current position, which then holds a dense layer. *)
Lemma infer_reshape_total (ops : list (zono_op T)) (i : nat) (op : zono_op T)
    (r : option Z) :
  ops !! i = Some op ->
  exists r', infer_reshape T ops (Z.of_nat i, op) r = Ok r'
             /\ (r' = r \/ (r' = Some (Z.of_nat i) /\ kind_of_op op = KDense)).
Proof.
  intros Hop. pose proof (lookup_lt_Some _ _ _ Hop) as Hlt.
  unfold infer_reshape. rewrite is_dense_kind.
  destruct (decide (kind_of_op op = KDense)) as [Hd|Hd].
  2:{ rewrite bool_decide_eq_false_2 by assumption. eauto. }
  rewrite bool_decide_eq_true_2 by assumption.
  set (j1 := if decide (i = 0)%nat then (length ops - 1)%nat else (i - 1)%nat).
  destruct (lookup_lt_is_Some_2 ops j1) as [prev Hprev];
    [unfold j1; destruct (decide (i = 0)%nat); lia|].
  rewrite (py_index_lookup ops (Z.of_nat i - 1) j1 prev Hprev)
    by (unfold j1; destruct (decide (i = 0)%nat); lia).
  cbn [mbind result_bind rbind].
  destruct (is_ZonoReLU T prev) eqn:Erelu.
  2:{ destruct (is_ZonoConv T prev); eauto. }
  assert (Hne : j1 <> i).
  { intros ->. rewrite Hop in Hprev. injection Hprev as <-.
    rewrite is_relu_kind in Erelu. apply bool_decide_eq_true in Erelu. congruence. }
  set (j2 := match i with
             | O => (length ops - 2)%nat
             | S O => (length ops - 1)%nat
             | S (S h) => h
             end).
  assert (Hj2 : (j2 < length ops)%nat
                /\ (Z.of_nat i - 2 = Z.of_nat j2
                    \/ Z.of_nat i - 2 = Z.of_nat j2 - Z.of_nat (length ops))).
  { unfold j2, j1 in *. destruct i as [|[|h]]; simpl in *; split; lia. }
  destruct Hj2 as [Hj2 Hidx].
  destruct (lookup_lt_is_Some_2 ops j2 Hj2) as [prev2 Hprev2].
  rewrite (py_index_lookup ops (Z.of_nat i - 2) j2 prev2 Hprev2 Hidx).
  cbn [mbind result_bind rbind].
  destruct (is_ZonoConv T prev2), (is_ZonoConv T prev); eauto.
Qed.

(** The second loop returns, with no reshape point or with the position of
    a dense layer. *)
Lemma infer_reshape_returns (ops : list (zono_op T)) :
  exists r,
    for_each (enumerate ops) (infer_reshape T ops) None = Ok r
    /\ (r = None
        \/ exists (i : nat) (op : zono_op T),
             r = Some (Z.of_nat i) /\ ops !! i = Some op
             /\ kind_of_op op = KDense).
Proof.
  apply (for_each_result_invariant
           (fun r => r = None
                     \/ exists (i : nat) (op : zono_op T),
                          r = Some (Z.of_nat i) /\ ops !! i = Some op
                          /\ kind_of_op op = KDense)).
  - intros [z op] r Hin Hr. unfold enumerate in Hin.
    apply elem_of_lookup_imap in Hin as (i & op' & [= -> ->] & Hop).
    destruct (infer_reshape_total ops i op' r Hop) as (r' & Hrun & [->|[-> Hd]]).
    + exists r. split; assumption.
    + eexists. split; [exact Hrun|]. right. now exists i, op'.
  - now left.
Qed.

End ConversionTotality.

(** What the constructor leaves behind when it returns. *)
Lemma converted_model_facts {T : Type}
    (modules : list (ConvertedModel.torch_module T)) (channels_first : bool)
    (model : ConvertedModel.t T) :
  ConvertedModel.__init__ modules channels_first = Ok model ->
  ConvertedModel.forward_mode model = "abstract"
  /\ map Spec.kind_of_op (ConvertedModel.ops model)
     = map Spec.kind_of_module modules
  /\ (ConvertedModel.reshape_op_num model = None
      \/ exists (i : nat) (op : ConvertedModel.zono_op T),
           ConvertedModel.reshape_op_num model = Some (Z.of_nat i)
           /\ ConvertedModel.ops model !! i = Some op
           /\ Spec.kind_of_op op = Spec.KDense).
Proof.
  unfold ConvertedModel.__init__. intros Hrun.
  destruct channels_first; [|discriminate Hrun].
  cbn [mbind result_bind rbind] in Hrun.
  destruct (for_each modules (ConvertedModel.convert_module T) [])
    as [ops'|e] eqn:Eops; [|discriminate Hrun].
  cbn [mbind result_bind rbind] in Hrun.
  apply convert_modules_inv in Eops as (_ & added & -> & Hkinds).
  cbn [app] in Hrun.
  destruct (infer_reshape_returns added) as (r & Hr & Hshape).
  rewrite Hr in Hrun. cbn [mbind result_bind rbind] in Hrun.
  injection Hrun as <-.
  cbn. split; [reflexivity|]. split; assumption.
Qed.

(** X1. The conversion succeeds exactly on channels-first networks whose
    recorded layers are all convolution, dense or ReLU layers, each
    convolution and dense layer carrying a bias; the order of the layers
    never makes it fail. *)
Theorem conversion_succeeds_iff {T : Type}
    (modules : list (ConvertedModel.torch_module T)) (channels_first : bool) :
  (exists model, ConvertedModel.__init__ modules channels_first = Ok model)
  <-> channels_first = true /\ Forall Spec.convertible modules.
Proof.
  unfold ConvertedModel.__init__. split.
  - intros [model Hrun]. destruct channels_first; [|discriminate Hrun].
    split; [reflexivity|]. cbn [mbind result_bind rbind] in Hrun.
    destruct (for_each modules (ConvertedModel.convert_module T) [])
      as [ops'|e] eqn:Eops; [|discriminate Hrun].
    now apply convert_modules_inv in Eops as [Hall _].
  - intros [-> Hall]. cbn [mbind result_bind rbind].
    assert (Hbias : Forall Spec.carries_bias modules)
      by (eapply Forall_impl; [exact Hall|now intros m [Hb _]]).
    assert (Hkinds : Spec.KOther ∉ map Spec.kind_of_module modules).
    { intros Hin. apply list_elem_of_fmap in Hin as (m & Hm & Hin).
      rewrite Forall_forall in Hall. destruct (Hall m Hin) as [_ Hk]. congruence. }
    destruct (convert_modules_ok modules [] Hbias Hkinds) as (ops' & -> & _).
    cbn [mbind result_bind rbind app].
    destruct (infer_reshape_returns ops') as (r & -> & _).
    cbn [mbind result_bind rbind].
    eexists. reflexivity.
Qed.

(** X2. A converted model is in abstract mode, holds one abstract layer per
    recorded layer, of the same kind and in the same order, and its reshape
    point, when one was inferred, is the position of a dense layer. *)
Theorem converted_model_layout {T : Type}
    (modules : list (ConvertedModel.torch_module T)) (channels_first : bool)
    (model : ConvertedModel.t T) :
  ConvertedModel.__init__ modules channels_first = Ok model ->
  ConvertedModel.forward_mode model = "abstract"
  /\ map Spec.kind_of_op (ConvertedModel.ops model)
     = map Spec.kind_of_module modules
  /\ (ConvertedModel.reshape_op_num model = None
      \/ exists (i : nat) (op : ConvertedModel.zono_op T),
           ConvertedModel.reshape_op_num model = Some (Z.of_nat i)
           /\ ConvertedModel.ops model !! i = Some op
           /\ Spec.kind_of_op op = Spec.KDense).
Proof. apply converted_model_facts. Qed.

Lemma converted_model_layout_witness :
  exists model : ConvertedModel.t unit,
    ConvertedModel.__init__
      [ConvertedModel.Conv2d 1 4 (3, 3) (1, 1) (1, 1) (0, 0) tt (Some tt);
       ConvertedModel.ReLU;
       ConvertedModel.Linear 16 2 tt (Some tt)] true = Ok model
    /\ ConvertedModel.forward_mode model = "abstract"
    /\ map Spec.kind_of_op (ConvertedModel.ops model)
       = map Spec.kind_of_module
           [ConvertedModel.Conv2d 1 4 (3, 3) (1, 1) (1, 1) (0, 0) tt (Some tt);
            ConvertedModel.ReLU;
            ConvertedModel.Linear 16 2 tt (Some tt)]
    /\ (ConvertedModel.reshape_op_num model = None
        \/ exists (i : nat) (op : ConvertedModel.zono_op unit),
             ConvertedModel.reshape_op_num model = Some (Z.of_nat i)
             /\ ConvertedModel.ops model !! i = Some op
             /\ Spec.kind_of_op op = Spec.KDense).
Proof.
  eexists. split; [reflexivity|].
  apply (converted_model_layout
           [ConvertedModel.Conv2d 1 4 (3, 3) (1, 1) (1, 1) (0, 0) tt (Some tt);
            ConvertedModel.ReLU;
            ConvertedModel.Linear 16 2 tt (Some tt)] true).
  reflexivity.
Defined.

(** ** Networks without a transition from convolution to dense *)

Section NoTransition.

Import ConvertedModel ConvertedModelRun Spec.

Lemma find_nowhere {A} (f : A -> bool) (l : list A) :
  (forall x, f x = false) -> find f l = None.
Proof.
  intros Hf. induction l as [|x l IH]; [reflexivity|].
  simpl. now rewrite Hf.
Qed.

Lemma no_transition (ks : list layer_kind) :
  KConv ∉ ks \/ KDense ∉ ks ->
  ~ dense_before_conv ks /\ first_reshape_point ks = None.
Proof.
  intros Hmiss. split.
  - intros (i & j & _ & Hi & Hj).
    apply list_elem_of_lookup_2 in Hi, Hj. tauto.
  - unfold first_reshape_point. rewrite find_nowhere; [reflexivity|].
    intros i. apply not_true_is_false. intros Hc.
    apply reshape_candidate_inv in Hc as (Hi & j & _ & _ & Hj & _).
    apply list_elem_of_lookup_2 in Hi, Hj. tauto.
Qed.

End NoTransition.

(** X3. A non-empty network of supported layers that has no convolution,
    or no dense layer, converts without a reshape point, and the converted
    model cannot run: the concrete pass raises [AttributeError] on every
    input, and so does the abstract pass once its inputs are joined. *)
Theorem network_without_transition_cannot_run
    {T array data : Type}
    (op_abstract op_concrete : ConvertedModel.zono_op T -> data -> result data)
    (concatenate_to_tensor : array -> array -> result data)
    (from_numpy : array -> data) (reshape : data -> data)
    (center_and_errors : data -> result (data * data))
    (modules : list (ConvertedModel.torch_module T)) :
  Forall Spec.convertible modules ->
  modules <> [] ->
  Spec.KConv ∉ map Spec.kind_of_module modules
  \/ Spec.KDense ∉ map Spec.kind_of_module modules ->
  exists model,
    ConvertedModel.__init__ modules true = Ok model
    /\ ConvertedModel.reshape_op_num model = None
    /\ (forall in_x,
          ConvertedModelRun.concrete_forward T array data op_concrete
            from_numpy reshape model in_x
          = Raise (AttributeError "reshape_op_num"))
    /\ (forall cent eps x,
          concatenate_to_tensor cent eps = Ok x ->
          ConvertedModelRun.abstract_forward T array data op_abstract
            concatenate_to_tensor reshape center_and_errors model cent eps
          = Raise (AttributeError "reshape_op_num")).
Proof.
  intros Hall Hne Hmiss.
  assert (Hbias : Forall Spec.carries_bias modules)
    by (eapply Forall_impl; [exact Hall|now intros m [Hb _]]).
  assert (Hkinds : Spec.KOther ∉ map Spec.kind_of_module modules).
  { intros Hin. apply list_elem_of_fmap in Hin as (m & Hm & Hin).
    rewrite Forall_forall in Hall. destruct (Hall m Hin) as [_ Hk]. congruence. }
  destruct (convert_modules_ok modules [] Hbias Hkinds) as (ops' & Hrun & Hk).
  cbn [app] in Hrun. rewrite <- Hk in Hmiss.
  destruct (no_transition _ Hmiss) as [Hno Hnone].
  assert (Hops : ops' <> []).
  { intros ->. destruct modules; [congruence|discriminate Hk]. }
  eexists. split; [|split; [|split]].
  - unfold ConvertedModel.__init__. cbn [mbind result_bind rbind].
    rewrite Hrun. cbn [mbind result_bind rbind].
    rewrite (infer_reshape_loop ops' Hno). cbn [mbind result_bind rbind].
    reflexivity.
  - cbn. exact Hnone.
  - intros in_x. unfold ConvertedModelRun.concrete_forward.
    rewrite forward_loop_unset by exact Hnone. cbn.
    destruct ops'; [congruence|reflexivity].
  - intros cent eps x Hx. unfold ConvertedModelRun.abstract_forward.
    rewrite Hx. cbn [mbind result_bind rbind].
    rewrite forward_loop_unset by exact Hnone. cbn.
    destruct ops'; [congruence|reflexivity].
Qed.

Lemma network_without_transition_cannot_run_witness :
  exists model : ConvertedModel.t unit,
    ConvertedModel.__init__
      [ConvertedModel.Linear 4 3 tt (Some tt); ConvertedModel.ReLU;
       ConvertedModel.Linear 3 2 tt (Some tt)] true = Ok model
    /\ ConvertedModel.reshape_op_num model = None
    /\ (forall in_x : Z + Z,
          ConvertedModelRun.concrete_forward unit Z Z (fun _ x => Ok (x + 1))
            (fun a => a) (fun x => 2 * x) model in_x
          = Raise (AttributeError "reshape_op_num"))
    /\ (forall cent eps x : Z,
          Ok (cent + eps) = Ok x ->
          ConvertedModelRun.abstract_forward unit Z Z (fun _ x => Ok (x + 1))
            (fun cent eps => Ok (cent + eps)) (fun x => 2 * x)
            (fun x => Ok (x, x)) model cent eps
          = Raise (AttributeError "reshape_op_num")).
Proof.
  apply (network_without_transition_cannot_run
           (fun _ x => Ok (x + 1)) (fun _ x => Ok (x + 1))
           (fun cent eps => Ok (cent + eps)) (fun a => a) (fun x => 2 * x)
           (fun x => Ok (x, x))
           [ConvertedModel.Linear 4 3 tt (Some tt); ConvertedModel.ReLU;
            ConvertedModel.Linear 3 2 tt (Some tt)]).
  - repeat constructor; try (eexists; reflexivity); discriminate.
  - discriminate.
  - left. intros H.
    repeat (apply elem_of_cons in H as [H|H]; [discriminate H|]).
    now apply elem_of_nil in H.
Defined.

(** X4. On every converted model with a reshape point [r], both passes
    follow one schedule: the first [r] layers, then the reshape, then the
    remaining layers; the reshape is applied exactly once, right before
    the dense layer at position [r]. *)
Theorem forward_passes_share_schedule
    {T array data : Type}
    (op_abstract op_concrete : ConvertedModel.zono_op T -> data -> result data)
    (concatenate_to_tensor : array -> array -> result data)
    (from_numpy : array -> data) (reshape : data -> data)
    (center_and_errors : data -> result (data * data))
    (modules : list (ConvertedModel.torch_module T)) (channels_first : bool)
    (model : ConvertedModel.t T) (r : Z) :
  ConvertedModel.__init__ modules channels_first = Ok model ->
  ConvertedModel.reshape_op_num model = Some r ->
  let before := take (Z.to_nat r) (ConvertedModel.ops model) in
  let after := drop (Z.to_nat r) (ConvertedModel.ops model) in
  (exists op rest, after = op :: rest /\ Spec.kind_of_op op = Spec.KDense)
  /\ (forall in_x : array + data,
        ConvertedModelRun.concrete_forward T array data op_concrete
          from_numpy reshape model in_x
        = (y ← Spec.run_layers op_concrete before
                 (match in_x with inl a => from_numpy a | inr x => x end);
           Spec.run_layers op_concrete after (reshape y)))
  /\ (forall cent eps,
        ConvertedModelRun.abstract_forward T array data op_abstract
          concatenate_to_tensor reshape center_and_errors model cent eps
        = (x ← concatenate_to_tensor cent eps;
           z ← (y ← Spec.run_layers op_abstract before x;
                Spec.run_layers op_abstract after (reshape y));
           center_and_errors z)).
Proof.
  intros Hinit Hr before after.
  destruct (converted_model_facts modules channels_first model Hinit)
    as (_ & _ & [Hnone|(i & op & Hsome & Hop & Hdense)]); [congruence|].
  assert (r = Z.of_nat i) as -> by congruence.
  pose proof (lookup_lt_Some _ _ _ Hop) as Hlt.
  assert (Hrange : 0 <= Z.of_nat i < Z.of_nat (length (ConvertedModel.ops model)))
    by lia.
  split; [|split].
  - unfold after. rewrite Nat2Z.id.
    exists op, (drop (S i) (ConvertedModel.ops model)).
    split; [|assumption]. now apply drop_S.
  - intros in_x. unfold ConvertedModelRun.concrete_forward.
    now rewrite forward_loop_schedule with (r := Z.of_nat i) by assumption.
  - intros cent eps. unfold ConvertedModelRun.abstract_forward.
    destruct (concatenate_to_tensor cent eps) as [x|e]; [|reflexivity].
    cbn [mbind result_bind rbind].
    now rewrite forward_loop_schedule with (r := Z.of_nat i) by assumption.
Qed.

Lemma forward_passes_share_schedule_witness :
  exists model : ConvertedModel.t unit,
    ConvertedModel.__init__
      [ConvertedModel.Conv2d 1 4 (3, 3) (1, 1) (1, 1) (0, 0) tt (Some tt);
       ConvertedModel.ReLU;
       ConvertedModel.Linear 16 2 tt (Some tt)] true = Ok model
    /\ ConvertedModel.reshape_op_num model = Some 2
    /\ (exists op rest,
          drop (Z.to_nat 2) (ConvertedModel.ops model) = op :: rest
          /\ Spec.kind_of_op op = Spec.KDense)
    /\ (forall in_x : Z + Z,
          ConvertedModelRun.concrete_forward unit Z Z (fun _ x => Ok (x + 1))
            (fun a => a) (fun x => 2 * x) model in_x
          = (y ← Spec.run_layers (fun _ x => Ok (x + 1))
                   (take (Z.to_nat 2) (ConvertedModel.ops model))
                   (match in_x with inl a => (fun a => a) a | inr x => x end);
             Spec.run_layers (fun _ x => Ok (x + 1))
               (drop (Z.to_nat 2) (ConvertedModel.ops model))
               ((fun x => 2 * x) y)))
    /\ (forall cent eps : Z,
          ConvertedModelRun.abstract_forward unit Z Z (fun _ x => Ok (x + 10))
            (fun cent eps => Ok (cent + eps)) (fun x => 2 * x)
            (fun x => Ok (x, x)) model cent eps
          = (x ← (fun cent eps => Ok (cent + eps)) cent eps;
             z ← (y ← Spec.run_layers (fun _ x => Ok (x + 10))
                        (take (Z.to_nat 2) (ConvertedModel.ops model)) x;
                  Spec.run_layers (fun _ x => Ok (x + 10))
                    (drop (Z.to_nat 2) (ConvertedModel.ops model))
                    ((fun x => 2 * x) y));
             (fun x => Ok (x, x)) z)).
Proof.
  eexists. split; [reflexivity|]. split; [reflexivity|].
  apply (forward_passes_share_schedule
           (fun _ x => Ok (x + 10)) (fun _ x => Ok (x + 1))
           (fun cent eps => Ok (cent + eps)) (fun a => a) (fun x => 2 * x)
           (fun x => Ok (x, x))
           [ConvertedModel.Conv2d 1 4 (3, 3) (1, 1) (1, 1) (0, 0) tt (Some tt);
            ConvertedModel.ReLU;
            ConvertedModel.Linear 16 2 tt (Some tt)] true _ 2);
    reflexivity.
Defined.

(** X5. A freshly converted model is in abstract mode: [forward] without
    error terms raises the [ValueError] about the forward mode, and
    [forward] with error terms is the abstract pass. *)
Theorem fresh_model_forward
    {T array data : Type}
    (op_abstract op_concrete : ConvertedModel.zono_op T -> data -> result data)
    (concatenate_to_tensor : array -> array -> result data)
    (from_numpy : array -> data) (reshape : data -> data)
    (center_and_errors : data -> result (data * data))
    (modules : list (ConvertedModel.torch_module T)) (channels_first : bool)
    (model : ConvertedModel.t T) :
  ConvertedModel.__init__ modules channels_first = Ok model ->
  (forall cent,
     ConvertedModelRun.forward T array data op_abstract op_concrete
       concatenate_to_tensor from_numpy reshape center_and_errors model cent None
     = Raise (ValueError "forward_mode must be set to abstract or concrete"))
  /\ (forall cent eps,
        ConvertedModelRun.forward T array data op_abstract op_concrete
          concatenate_to_tensor from_numpy reshape center_and_errors model cent
          (Some eps)
        = (out ← ConvertedModelRun.abstract_forward T array data op_abstract
                   concatenate_to_tensor reshape center_and_errors model cent eps;
           Ok (inr out))).
Proof.
  intros Hinit.
  destruct (converted_model_facts modules channels_first model Hinit)
    as (Hmode & _ & _).
  unfold ConvertedModelRun.forward. rewrite Hmode. split; reflexivity.
Qed.

Lemma fresh_model_forward_witness :
  exists model : ConvertedModel.t unit,
    ConvertedModel.__init__
      [ConvertedModel.Conv2d 1 4 (3, 3) (1, 1) (1, 1) (0, 0) tt (Some tt);
       ConvertedModel.ReLU;
       ConvertedModel.Linear 16 2 tt (Some tt)] true = Ok model
    /\ (forall cent : Z,
          ConvertedModelRun.forward unit Z Z (fun _ x => Ok (x + 10))
            (fun _ x => Ok (x + 1)) (fun cent eps => Ok (cent + eps))
            (fun a => a) (fun x => 2 * x) (fun x => Ok (x, x)) model cent None
          = Raise (ValueError "forward_mode must be set to abstract or concrete"))
    /\ (forall cent eps : Z,
          ConvertedModelRun.forward unit Z Z (fun _ x => Ok (x + 10))
            (fun _ x => Ok (x + 1)) (fun cent eps => Ok (cent + eps))
            (fun a => a) (fun x => 2 * x) (fun x => Ok (x, x)) model cent
            (Some eps)
          = (out ← ConvertedModelRun.abstract_forward unit Z Z
                     (fun _ x => Ok (x + 10)) (fun cent eps => Ok (cent + eps))
                     (fun x => 2 * x) (fun x => Ok (x, x)) model cent eps;
             Ok (inr out))).
Proof.
  eexists. split; [reflexivity|].
  apply (fresh_model_forward
           (fun _ x => Ok (x + 10)) (fun _ x => Ok (x + 1))
           (fun cent eps => Ok (cent + eps)) (fun a => a) (fun x => 2 * x)
           (fun x => Ok (x, x))
           [ConvertedModel.Conv2d 1 4 (3, 3) (1, 1) (1, 1) (0, 0) tt (Some tt);
            ConvertedModel.ReLU;
            ConvertedModel.Linear 16 2 tt (Some tt)] true).
  reflexivity.
Defined.

(** X6. [set_forward_mode] accepts the modes ["concrete"] and ["abstract"]
    and no other; it leaves the layers and the reshape point as they are,
    and afterwards [forward], given error terms, is the pass the mode
    names, computed as on the model before the change. *)
Theorem set_forward_mode_selects_pass
    {T array data : Type}
    (op_abstract op_concrete : ConvertedModel.zono_op T -> data -> result data)
    (concatenate_to_tensor : array -> array -> result data)
    (from_numpy : array -> data) (reshape : data -> data)
    (center_and_errors : data -> result (data * data))
    (self : ConvertedModel.t T) (mode : string) :
  (is_Some (ConvertedModelRun.set_forward_mode T self mode)
   <-> mode = "concrete" \/ mode = "abstract")
  /\ forall self',
       ConvertedModelRun.set_forward_mode T self mode = Some self' ->
       ConvertedModel.ops self' = ConvertedModel.ops self
       /\ ConvertedModel.reshape_op_num self' = ConvertedModel.reshape_op_num self
       /\ forall cent eps,
            ConvertedModelRun.forward T array data op_abstract op_concrete
              concatenate_to_tensor from_numpy reshape center_and_errors self'
              cent (Some eps)
            = if decide (mode = "concrete")
              then out ← ConvertedModelRun.concrete_forward T array data
                           op_concrete from_numpy reshape self (inl cent);
                   Ok (inl out)
              else out ← ConvertedModelRun.abstract_forward T array data
                           op_abstract concatenate_to_tensor reshape
                           center_and_errors self cent eps;
                   Ok (inr out).
Proof.
  unfold ConvertedModelRun.set_forward_mode. split.
  - destruct (bool_decide (mode ∈ ["concrete"; "abstract"])) eqn:E.
    + apply bool_decide_eq_true in E. split; [intros _|eauto].
      apply elem_of_cons in E as [->|E]; [now left|].
      apply elem_of_cons in E as [->|E]; [now right|].
      now apply elem_of_nil in E.
    + apply bool_decide_eq_false in E.
      split.
      * intros Hsome. destruct Hsome as [x Hx]. discriminate Hx.
      * intros Hmode. exfalso. apply E. destruct Hmode as [Hm|Hm]; rewrite Hm.
        -- apply list_elem_of_here.
        -- apply list_elem_of_further, list_elem_of_here.
  - intros self'.
    destruct (bool_decide (mode ∈ ["concrete"; "abstract"])) eqn:E;
      [|discriminate].
    apply bool_decide_eq_true in E. intros [= <-].
    split; [reflexivity|]. split; [reflexivity|]. intros cent eps.
    unfold ConvertedModelRun.forward. cbn [ConvertedModel.forward_mode].
    apply elem_of_cons in E as [->|E]; [reflexivity|].
    apply elem_of_cons in E as [->|E]; [reflexivity|].
    now apply elem_of_nil in E.
Qed.

(** ** Construction of the attack *)

Section ConstructionFacts.

Import Np AdversarialPatchNumpy Spec.

Lemma check_ok (failed : bool) (msg : string) :
  check failed msg = Ok tt <-> failed = false.
Proof. unfold check. destruct failed; split; congruence. Qed.

Lemma check_params_spec (rotation_max scale_min scale_max learning_rate : Q)
    (max_iter batch_size : Z) :
  _check_params rotation_max scale_min scale_max learning_rate max_iter batch_size
  = Ok tt
  <-> (0 <= rotation_max <= 180)%Q /\ (0 <= scale_min <= scale_max)%Q
      /\ (scale_max <= 1)%Q /\ (0 < learning_rate)%Q
      /\ 0 < max_iter /\ 0 < batch_size.
Proof.
  unfold _check_params, check.
  destruct (Qltb rotation_max 0) eqn:E1; cbn [orb mbind result_bind rbind].
  { apply Qltb_spec in E1. split; [discriminate|].
    intros ([H _] & _). exfalso. eapply Qlt_not_le; eassumption. }
  destruct (Qltb 180 rotation_max) eqn:E2; cbn [orb mbind result_bind rbind].
  { apply Qltb_spec in E2. split; [discriminate|].
    intros ([_ H] & _). exfalso. eapply Qlt_not_le; eassumption. }
  destruct (Qltb scale_min 0) eqn:E3; cbn [orb mbind result_bind rbind].
  { apply Qltb_spec in E3. split; [discriminate|].
    intros (_ & [H _] & _). exfalso. eapply Qlt_not_le; eassumption. }
  destruct (Qltb scale_max scale_min) eqn:E4; cbn [orb mbind result_bind rbind].
  { apply Qltb_spec in E4. split; [discriminate|].
    intros (_ & [_ H] & _). exfalso. eapply Qlt_not_le; eassumption. }
  destruct (Qltb 1 scale_max) eqn:E5; cbn [orb mbind result_bind rbind].
  { apply Qltb_spec in E5. split; [discriminate|].
    intros (_ & _ & H & _). exfalso. eapply Qlt_not_le; eassumption. }
  destruct (Qltb 0 learning_rate) eqn:E6; cbn [negb mbind result_bind rbind].
  2:{ apply Qltb_false in E6. split; [discriminate|].
      intros (_ & _ & _ & H & _). exfalso. eapply Qlt_not_le; eassumption. }
  destruct (Z.ltb_spec 0 max_iter); cbn [negb mbind result_bind rbind].
  2:{ split; [discriminate|]. intros (_ & _ & _ & _ & H' & _). lia. }
  destruct (Z.ltb_spec 0 batch_size); cbn [negb mbind result_bind rbind].
  2:{ split; [discriminate|]. intros (_ & _ & _ & _ & _ & H'). lia. }
  apply Qltb_false in E1, E2, E3, E4, E5. apply Qltb_spec in E6.
  split; [intros _|reflexivity]. repeat split; assumption.
Qed.

End ConstructionFacts.


Section InitFacts.

Import Np AdversarialPatchNumpy Spec.

(** What the constructor has checked and laid out when it returns. *)
Lemma init_facts (classifier : estimator_t) (tgt : Z)
    (rmax smin smax lr : Q) (iters bs : Z) (self : attack) (patch0 : ndarray) :
  __init__ classifier tgt rmax smin smax lr iters bs = Ok (self, patch0) ->
  ((0 <= rmax <= 180)%Q /\ (0 <= smin <= smax)%Q /\ (smax <= 1)%Q
   /\ (0 < lr)%Q /\ 0 < iters /\ 0 < bs)
  /\ (estimator self = classifier /\ rotation_max self = rmax
      /\ scale_min self = smin /\ scale_max self = smax
      /\ learning_rate self = lr /\ max_iter self = iters
      /\ batch_size self = bs)
  /\ (image_shape self = input_shape classifier
      /\ patch_shape self = input_shape classifier
      /\ (i_h self, i_w self)
         = if channels_first classifier then (1%nat, 2%nat) else (0%nat, 1%nat))
  /\ (shape patch0 = input_shape classifier
      /\ forall i j k,
           (item patch0 i j k
            == (snd (clip_values classifier) - fst (clip_values classifier)) / 2
               + fst (clip_values classifier))%Q).
Proof.
  unfold __init__. intros Hrun.
  destruct (_check_params rmax smin smax lr iters bs) as [[]|e] eqn:Echeck;
    [|discriminate Hrun].
  apply check_params_spec in Echeck.
  cbn [mbind result_bind rbind] in Hrun.
  destruct (channels_first classifier) eqn:Ecf; injection Hrun as <- <-;
    (split; [exact Echeck|]); cbn; rewrite ?Ecf;
    repeat split; try reflexivity; intros; apply Qmult_1_l.
Qed.

Lemma midpoint_between (lo hi : Q) :
  (lo <= hi)%Q -> (lo <= (hi - lo) / 2 + lo <= hi)%Q.
Proof.
  intros Hle.
  assert (Hd : (0 <= hi - lo)%Q) by (unfold Qminus; rewrite <- Qle_minus_iff; exact Hle).
  assert (Hhalf : (0 <= (hi - lo) / 2)%Q).
  { unfold Qdiv. apply Qmult_le_0_compat; [assumption|discriminate]. }
  assert (Hhalf' : ((hi - lo) / 2 <= hi - lo)%Q).
  { unfold Qdiv. rewrite <- (Qmult_1_r (hi - lo)) at 2.
    rewrite !(Qmult_comm (hi - lo)). apply Qmult_le_compat_r; [discriminate|assumption]. }
  split.
  - rewrite <- (Qplus_0_l lo) at 1. apply Qplus_le_compat; [assumption|apply Qle_refl].
  - assert (E : (hi == (hi - lo) + lo)%Q) by ring.
    rewrite E at 2. apply Qplus_le_compat; [assumption|apply Qle_refl].
Qed.

End InitFacts.

(** X8. When the constructor returns, the patch has the shape of the
    classifier's input (the whole image, not its largest centered square),
    the spatial axes are 1 and 2 for a channels-first classifier and 0 and
    1 otherwise, and every entry of the initial patch is the midpoint of
    the clip range, which lies inside that range when its bounds are
    ordered. *)
Theorem constructed_attack_layout
    (classifier : AdversarialPatchNumpy.estimator_t) (tgt : Z)
    (rmax smin smax lr : Q) (iters bs : Z)
    (self : AdversarialPatchNumpy.attack) (patch0 : Np.ndarray) :
  AdversarialPatchNumpy.__init__ classifier tgt rmax smin smax lr iters bs
  = Ok (self, patch0) ->
  AdversarialPatchNumpy.patch_shape self
  = AdversarialPatchNumpy.input_shape classifier
  /\ AdversarialPatchNumpy.image_shape self
     = AdversarialPatchNumpy.input_shape classifier
  /\ (AdversarialPatchNumpy.i_h self, AdversarialPatchNumpy.i_w self)
     = (if AdversarialPatchNumpy.channels_first classifier
        then (1%nat, 2%nat) else (0%nat, 1%nat))
  /\ Np.shape patch0 = AdversarialPatchNumpy.input_shape classifier
  /\ (forall i j k,
        (Np.item patch0 i j k
         == (snd (AdversarialPatchNumpy.clip_values classifier)
             - fst (AdversarialPatchNumpy.clip_values classifier)) / 2
            + fst (AdversarialPatchNumpy.clip_values classifier))%Q)
  /\ ((fst (AdversarialPatchNumpy.clip_values classifier)
       <= snd (AdversarialPatchNumpy.clip_values classifier))%Q ->
      forall i j k,
        (fst (AdversarialPatchNumpy.clip_values classifier)
         <= Np.item patch0 i j k
         <= snd (AdversarialPatchNumpy.clip_values classifier))%Q).
Proof.
  intros Hinit.
  destruct (init_facts _ _ _ _ _ _ _ _ _ _ Hinit)
    as (_ & _ & (Himg & Hps & Haxes) & Hshape & Hitems).
  repeat split; try assumption.
  - rewrite Hitems. now apply midpoint_between.
  - rewrite Hitems. now apply midpoint_between.
Qed.

Lemma constructed_attack_layout_witness :
  exists (self : AdversarialPatchNumpy.attack) (patch0 : Np.ndarray),
    AdversarialPatchNumpy.__init__ Spec.wide_classifier 0 (45 # 2) (1 # 10) 1 5 500 16
    = Ok (self, patch0)
    /\ AdversarialPatchNumpy.patch_shape self
       = AdversarialPatchNumpy.input_shape Spec.wide_classifier
    /\ AdversarialPatchNumpy.image_shape self
       = AdversarialPatchNumpy.input_shape Spec.wide_classifier
    /\ (AdversarialPatchNumpy.i_h self, AdversarialPatchNumpy.i_w self)
       = (if AdversarialPatchNumpy.channels_first Spec.wide_classifier
          then (1%nat, 2%nat) else (0%nat, 1%nat))
    /\ Np.shape patch0 = AdversarialPatchNumpy.input_shape Spec.wide_classifier
    /\ (forall i j k,
          (Np.item patch0 i j k
           == (snd (AdversarialPatchNumpy.clip_values Spec.wide_classifier)
               - fst (AdversarialPatchNumpy.clip_values Spec.wide_classifier)) / 2
              + fst (AdversarialPatchNumpy.clip_values Spec.wide_classifier))%Q)
    /\ ((fst (AdversarialPatchNumpy.clip_values Spec.wide_classifier)
         <= snd (AdversarialPatchNumpy.clip_values Spec.wide_classifier))%Q ->
        forall i j k,
          (fst (AdversarialPatchNumpy.clip_values Spec.wide_classifier)
           <= Np.item patch0 i j k
           <= snd (AdversarialPatchNumpy.clip_values Spec.wide_classifier))%Q).
Proof.
  eexists _, _. split; [reflexivity|].
  apply (constructed_attack_layout Spec.wide_classifier 0 (45 # 2) (1 # 10) 1 5 500 16).
  reflexivity.
Defined.

(** ** Attacks on channels-first classifiers, and empty batches *)

Section MaskFailure.

Import Np AdversarialPatchNumpy Spec.

Variable rotate : ndarray -> Q -> nat * nat -> ndarray.
Variable shift : ndarray -> Q * Q * Q -> ndarray.
Variable zoom : ndarray -> Q * Q * Q -> ndarray.
Variable random_random : nat -> Q.
Variable label : Type.
Variable loss_gradient : list ndarray -> list label -> list ndarray.
Variable self : attack.

#[local] Existing Instance M_bind.

(** The sampler starts by building the mask: when that fails, so does the
    sampler, before any draw. *)
Lemma sampler_mask_raises (e : py_error) (patch : ndarray) (scale : option Q)
    (s : state label) :
  _get_circular_patch_mask self = Raise e ->
  _random_transformation rotate shift zoom random_random label self patch scale s
  = (Raise e, s).
Proof.
  intros Hmask. unfold _random_transformation. apply bind_raise.
  unfold lift. now rewrite Hmask.
Qed.

Lemma augment_mask_raises (e : py_error) (image : ndarray) (images : list ndarray)
    (patch : ndarray) (scale : option Q) (s : state label) :
  _get_circular_patch_mask self = Raise e ->
  _augment_images_with_random_patch rotate shift zoom random_random label self
    (image :: images) patch scale s = (Raise e, s).
Proof.
  intros Hmask. unfold _augment_images_with_random_patch.
  apply bind_raise. apply for_each_first_raises. apply bind_raise.
  now apply sampler_mask_raises.
Qed.

Lemma augment_empty (patch : ndarray) (scale : option Q) (s : state label) :
  _augment_images_with_random_patch rotate shift zoom random_random label self
    [] patch scale s
  = (Raise (ValueError "need at least one array to concatenate"), s).
Proof. reflexivity. Qed.

(** An exception in the augmentation of the first iteration is the outcome
    of [generate]. *)
Lemma generate_augment_raises (e : py_error) (images : list ndarray)
    (y_target : list label) (s : state label) :
  0 < max_iter self ->
  _augment_images_with_random_patch rotate shift zoom random_random label self
    images (patch s) None s = (Raise e, s) ->
  generate rotate shift zoom random_random label loss_gradient self
    (ImageBatch images) y_target s = (Raise e, s).
Proof.
  intros Hiter Haug. unfold generate.
  rewrite (py_range_cons _ Hiter).
  apply bind_raise. apply for_each_first_raises.
  unfold generate_iteration.
  rewrite (bind_step label (get_patch label) _ s s (patch s) eq_refl).
  now apply bind_raise.
Qed.

Lemma apply_patch_augment_raises (e : py_error) (images : list ndarray)
    (scale : Q) (patch_external : option ndarray) (s : state label) :
  (forall p,
     _augment_images_with_random_patch rotate shift zoom random_random label
       self images p (Some scale) s = (Raise e, s)) ->
  apply_patch rotate shift zoom random_random label self images scale
    patch_external s = (Raise e, s).
Proof.
  intros Haug. unfold apply_patch.
  rewrite (bind_step label (get_patch label) _ s s (patch s) eq_refl).
  apply bind_raise. apply Haug.
Qed.

End MaskFailure.

(** X9. An attack object constructed on a channels-first classifier cannot
    be used: building the circular mask raises [IndexError] (it reads
    [mask.shape[2]] of a two-dimensional array), hence so do the transform
    sampler, [apply_patch] and [generate] on every non-empty batch of
    images, before any random draw or gradient query and with the patch
    untouched. *)
Theorem channels_first_attack_cannot_run
    (rotate : Np.ndarray -> Q -> nat * nat -> Np.ndarray)
    (shift zoom : Np.ndarray -> Q * Q * Q -> Np.ndarray)
    (random_random : nat -> Q) (label : Type)
    (loss_gradient : list Np.ndarray -> list label -> list Np.ndarray)
    (classifier : AdversarialPatchNumpy.estimator_t) (tgt : Z)
    (rmax smin smax lr : Q) (iters bs : Z)
    (self : AdversarialPatchNumpy.attack) (patch0 : Np.ndarray) :
  AdversarialPatchNumpy.channels_first classifier = true ->
  AdversarialPatchNumpy.__init__ classifier tgt rmax smin smax lr iters bs
  = Ok (self, patch0) ->
  AdversarialPatchNumpy._get_circular_patch_mask self = Raise IndexError
  /\ (forall patch scale s,
        AdversarialPatchNumpy._random_transformation rotate shift zoom
          random_random label self patch scale s = (Raise IndexError, s))
  /\ (forall image images scale patch_external s,
        AdversarialPatchNumpy.apply_patch rotate shift zoom random_random label
          self (image :: images) scale patch_external s = (Raise IndexError, s))
  /\ (forall image images y_target s,
        AdversarialPatchNumpy.generate rotate shift zoom random_random label
          loss_gradient self (AdversarialPatchNumpy.ImageBatch (image :: images))
          y_target s = (Raise IndexError, s)).
Proof.
  intros Hcf Hinit.
  destruct (init_facts _ _ _ _ _ _ _ _ _ _ Hinit)
    as ((_ & _ & _ & _ & Hiter & _) & (_ & _ & _ & _ & _ & Emax & _)
        & (_ & _ & Haxes) & _).
  rewrite Hcf in Haxes. injection Haxes as Hih Hiw.
  pose proof (mask_channels_first self Hih Hiw) as Hmask.
  split; [exact Hmask|]. split; [|split].
  - intros patch scale s. now apply sampler_mask_raises.
  - intros image images scale ext s. apply apply_patch_augment_raises.
    intros p. now apply augment_mask_raises.
  - intros image images y_target s. apply generate_augment_raises.
    + now rewrite Emax.
    + now apply augment_mask_raises.
Qed.

Lemma channels_first_attack_cannot_run_witness :
  AdversarialPatchNumpy._get_circular_patch_mask Spec.small_attack_cf
  = Raise IndexError
  /\ (forall patch scale s,
        AdversarialPatchNumpy._random_transformation Spec.rotate_still
          Spec.shift_still Spec.zoom_sampled (fun _ => 1 # 2) unit
          Spec.small_attack_cf patch scale s = (Raise IndexError, s))
  /\ (forall image images scale patch_external s,
        AdversarialPatchNumpy.apply_patch Spec.rotate_still Spec.shift_still
          Spec.zoom_sampled (fun _ => 1 # 2) unit Spec.small_attack_cf
          (image :: images) scale patch_external s = (Raise IndexError, s))
  /\ (forall image images y_target s,
        AdversarialPatchNumpy.generate Spec.rotate_still Spec.shift_still
          Spec.zoom_sampled (fun _ => 1 # 2) unit (fun images _ => images)
          Spec.small_attack_cf
          (AdversarialPatchNumpy.ImageBatch (image :: images))
          y_target s = (Raise IndexError, s)).
Proof.
  apply (channels_first_attack_cannot_run Spec.rotate_still Spec.shift_still
           Spec.zoom_sampled (fun _ => 1 # 2) unit (fun images _ => images)
           Spec.small_classifier_cf 0 (45 # 2) (1 # 10) 1 5 500 16
           Spec.small_attack_cf
           (Spec.constant (1, 4, 4)%nat (1 * ((1 - 0) / 2 + 0)))).
  - reflexivity.
  - reflexivity.
Defined.

(** X10. Edge inputs of the two entry points.  [generate] rejects feature
    vectors with a [ValueError] before doing anything; on a batch without
    images, [apply_patch] and (when at least one iteration is to run)
    [generate] raise the [ValueError] of [np.concatenate] on an empty
    list.  The state is left as it was. *)
Theorem entry_points_reject_degenerate_batches
    (rotate : Np.ndarray -> Q -> nat * nat -> Np.ndarray)
    (shift zoom : Np.ndarray -> Q * Q * Q -> Np.ndarray)
    (random_random : nat -> Q) (label : Type)
    (loss_gradient : list Np.ndarray -> list label -> list Np.ndarray)
    (self : AdversarialPatchNumpy.attack) (y_target : list label)
    (s : AdversarialPatchNumpy.state label) :
  (forall rows cols,
     AdversarialPatchNumpy.generate rotate shift zoom random_random label
       loss_gradient self (AdversarialPatchNumpy.FeatureVectors rows cols)
       y_target s
     = (Raise (ValueError
         "Feature vectors detected. The adversarial patch can only be applied to data with spatial dimensions."),
        s))
  /\ (forall scale patch_external,
        AdversarialPatchNumpy.apply_patch rotate shift zoom random_random label
          self [] scale patch_external s
        = (Raise (ValueError "need at least one array to concatenate"), s))
  /\ (0 < AdversarialPatchNumpy.max_iter self ->
      AdversarialPatchNumpy.generate rotate shift zoom random_random label
        loss_gradient self (AdversarialPatchNumpy.ImageBatch []) y_target s
      = (Raise (ValueError "need at least one array to concatenate"), s)).
Proof.
  split; [reflexivity|]. split.
  - intros scale ext. apply apply_patch_augment_raises. intros p.
    apply augment_empty.
  - intros Hiter. apply generate_augment_raises; [exact Hiter|].
    apply augment_empty.
Qed.

Lemma entry_points_reject_degenerate_batches_witness :
  (forall rows cols,
     AdversarialPatchNumpy.generate Spec.rotate_still Spec.shift_still
       Spec.zoom_sampled (fun _ => 1 # 2) unit (fun images _ => images)
       Spec.small_attack (AdversarialPatchNumpy.FeatureVectors rows cols)
       []
       (Spec.fresh_state unit (Spec.constant (4, 4, 1)%nat (1 # 2)))
     = (Raise (ValueError
         "Feature vectors detected. The adversarial patch can only be applied to data with spatial dimensions."),
        Spec.fresh_state unit (Spec.constant (4, 4, 1)%nat (1 # 2))))
  /\ (forall scale patch_external,
        AdversarialPatchNumpy.apply_patch Spec.rotate_still Spec.shift_still
          Spec.zoom_sampled (fun _ => 1 # 2) unit Spec.small_attack
          [] scale patch_external
          (Spec.fresh_state unit (Spec.constant (4, 4, 1)%nat (1 # 2)))
        = (Raise (ValueError "need at least one array to concatenate"),
           Spec.fresh_state unit (Spec.constant (4, 4, 1)%nat (1 # 2))))
  /\ 0 < AdversarialPatchNumpy.max_iter Spec.small_attack
  /\ AdversarialPatchNumpy.generate Spec.rotate_still Spec.shift_still
       Spec.zoom_sampled (fun _ => 1 # 2) unit (fun images _ => images)
       Spec.small_attack (AdversarialPatchNumpy.ImageBatch []) []
       (Spec.fresh_state unit (Spec.constant (4, 4, 1)%nat (1 # 2)))
     = (Raise (ValueError "need at least one array to concatenate"),
        Spec.fresh_state unit (Spec.constant (4, 4, 1)%nat (1 # 2))).
Proof.
  destruct (entry_points_reject_degenerate_batches Spec.rotate_still
              Spec.shift_still Spec.zoom_sampled (fun _ => 1 # 2) unit
              (fun images _ => images) Spec.small_attack []
              (Spec.fresh_state unit (Spec.constant (4, 4, 1)%nat (1 # 2))))
    as (Hfeatures & Happly & Hgenerate).
  split; [exact Hfeatures|]. split; [exact Happly|].
  split; [reflexivity|]. apply Hgenerate. reflexivity.
Defined.

(** ** What the optimizer does to the patch *)

Section OptimizerFacts.

Import Np AdversarialPatchNumpy Spec.

Variable rotate : ndarray -> Q -> nat * nat -> ndarray.
Variable shift : ndarray -> Q * Q * Q -> ndarray.
Variable zoom : ndarray -> Q * Q * Q -> ndarray.
Variable random_random : nat -> Q.
Variable label : Type.
Variable loss_gradient : list ndarray -> list label -> list ndarray.
Variable self : attack.

#[local] Existing Instance M_bind.

Lemma Qclip_idempotent (q lo hi : Q) :
  (Qclip (Qclip q lo hi) lo hi == Qclip q lo hi)%Q.
Proof.
  unfold Qclip. set (m := Qmax q lo).
  assert (Hm : (lo <= m)%Q) by apply Q.le_max_r.
  destruct (Q.min_spec m hi) as [[H E]|[H E]]; rewrite E.
  - rewrite (Q.max_l m lo Hm). exact E.
  - apply Q.min_r. apply Q.le_max_l.
Qed.

(** An iteration completes only when no full batch is available; it then
    queries no gradient and stores the clipped patch. *)
Lemma completed_iteration_effect (x : list ndarray) (y_target : list label)
    (s s' : state label) (u : unit) :
  generate_iteration rotate shift zoom random_random label loss_gradient
    self x y_target s = (Ok u, s') ->
  ~ (1 <= batch_size self <= Z.of_nat (length x))
  /\ gradient_queries s' = gradient_queries s
  /\ shape (patch s') = shape (patch s)
  /\ forall i j k,
       (item (patch s') i j k
        == Qclip (item (patch s) i j k) (fst (clip_values (estimator self)))
             (snd (clip_values (estimator self))))%Q.
Proof.
  intros Hrun.
  assert (Hbatch : ~ (1 <= batch_size self <= Z.of_nat (length x))).
  { intros HB.
    destruct (iteration_with_full_batch rotate shift zoom random_random label
                loss_gradient self x y_target s HB) as (e & s1 & He & _).
    rewrite He in Hrun. discriminate Hrun. }
  split; [exact Hbatch|].
  unfold generate_iteration in Hrun.
  apply bind_ok in Hrun as (p0 & s0 & Hget & Hrun).
  injection Hget as <- <-.
  apply bind_ok in Hrun as ([[patched masks] records] & s1 & Haug & Hrun).
  destruct (quiet_augment _ _ _ _ _ _ _ _ _ _ _ _ Haug) as [Hq1 Hp1].
  apply bind_ok in Hrun as (nb & s2 & Hdiv & Hrun).
  apply lift_ok in Hdiv as [Hdiv ->].
  assert (Hnb : nb <= 0).
  { unfold int_div in Hdiv.
    destruct (Z.eqb_spec (batch_size self) 0) as [|Hne]; [discriminate Hdiv|].
    injection Hdiv as <-.
    destruct (Z.lt_ge_cases (batch_size self) 0) as [Hneg|Hpos].
    - pose proof (Z.quot_pos (Z.of_nat (length x)) (- batch_size self)
                    ltac:(lia) ltac:(lia)) as Hq.
      rewrite Z.quot_opp_r in Hq by lia. lia.
    - rewrite Z.quot_small; lia. }
  unfold py_range in Hrun. rewrite seqZ_nil in Hrun by exact Hnb.
  apply bind_ok in Hrun as (pg & s3 & Hloop & Hrun).
  injection Hloop as <- <-.
  apply bind_ok in Hrun as (p1 & s4 & Hget & Hrun).
  injection Hget as <- <-.
  apply bind_ok in Hrun as (p2 & s5 & Hin & Hrun).
  apply lift_ok in Hin as [Hin ->].
  unfold set_patch in Hrun. injection Hrun as _ <-. simpl.
  unfold inplace in Hin.
  destruct (broadcast_to_same
              (map_items (fun g => (g * learning_rate self)%Q)
                 (zeros_like (patch s)))) as (b' & Hb & _ & Hitems).
  simpl in Hb. rewrite <- Hp1 in Hb at 2. rewrite Hb in Hin.
  injection Hin as <-. simpl.
  split; [exact Hq1|]. split; [now rewrite Hp1|].
  intros i j k. rewrite Hitems. simpl. rewrite Hp1.
  apply Qclip_comp. ring.
Qed.

(** Any number of completed iterations leaves the query log alone and the
    patch clipped, once. *)
Lemma completed_iterations_effect (ticks : list Z) (x : list ndarray)
    (y_target : list label) (s s' : state label) (u : unit) :
  for_eachM label ticks
    (fun _ _ =>
       generate_iteration rotate shift zoom random_random label loss_gradient
         self x y_target) tt s = (Ok u, s') ->
  gradient_queries s' = gradient_queries s
  /\ shape (patch s') = shape (patch s)
  /\ (ticks = [] -> s' = s)
  /\ (ticks <> [] ->
      ~ (1 <= batch_size self <= Z.of_nat (length x))
      /\ forall i j k,
           (item (patch s') i j k
            == Qclip (item (patch s) i j k) (fst (clip_values (estimator self)))
                 (snd (clip_values (estimator self))))%Q).
Proof.
  revert s. induction ticks as [|t ticks IH]; intros s Hrun.
  - injection Hrun as _ <-.
    split; [reflexivity|]. split; [reflexivity|]. split; [reflexivity|].
    intros Hne. now destruct Hne.
  - simpl in Hrun. apply bind_ok in Hrun as ([] & s1 & Hstep & Hrest).
    apply completed_iteration_effect in Hstep as (Hb & Hq1 & Hs1 & Hi1).
    apply IH in Hrest as (Hq2 & Hs2 & Hnil & Hcons).
    split; [congruence|]. split; [congruence|]. split; [discriminate|].
    intros _. split; [exact Hb|]. intros i j k.
    destruct ticks as [|t' ticks].
    + rewrite (Hnil eq_refl). apply Hi1.
    + destruct (Hcons ltac:(discriminate)) as [_ Hi2].
      rewrite Hi2. rewrite (Qclip_comp _ _ _ _ (Hi1 i j k)).
      apply Qclip_idempotent.
Qed.

Lemma generate_with_full_batch (x : list ndarray) (y_target : list label)
    (s : state label) :
  0 < max_iter self ->
  1 <= batch_size self <= Z.of_nat (length x) ->
  exists e s',
    generate rotate shift zoom random_random label loss_gradient self
      (ImageBatch x) y_target s = (Raise e, s')
    /\ (length (gradient_queries s') <= length (gradient_queries s) + 1)%nat
    /\ patch s' = patch s.
Proof.
  intros Hiter HB.
  destruct (iteration_with_full_batch rotate shift zoom random_random label
              loss_gradient self x y_target s HB) as (e & s1 & He & Hq & Hp).
  exists e, s1. split; [|split; assumption].
  unfold generate. rewrite (py_range_cons _ Hiter).
  apply bind_raise. apply for_each_first_raises. exact He.
Qed.

Lemma generate_returns (x : list ndarray) (y_target : list label)
    (s s' : state label) (p mask : ndarray) :
  generate rotate shift zoom random_random label loss_gradient self
    (ImageBatch x) y_target s = (Ok (p, mask), s') ->
  p = patch s'
  /\ _get_circular_patch_mask self = Ok mask
  /\ gradient_queries s' = gradient_queries s
  /\ shape p = shape (patch s)
  /\ (max_iter self <= 0 -> s' = s)
  /\ (0 < max_iter self ->
      ~ (1 <= batch_size self <= Z.of_nat (length x))
      /\ forall i j k,
           (item p i j k
            == Qclip (item (patch s) i j k) (fst (clip_values (estimator self)))
                 (snd (clip_values (estimator self))))%Q).
Proof.
  unfold generate. intros Hrun.
  apply bind_ok in Hrun as ([] & s1 & Hloop & Hrun).
  apply bind_ok in Hrun as (p1 & s2 & Hget & Hrun).
  injection Hget as <- <-.
  apply bind_ok in Hrun as (m1 & s3 & Hmask & Hrun).
  apply lift_ok in Hmask as [Hmask ->].
  injection Hrun as <- <- <-.
  apply completed_iterations_effect in Hloop as (Hq & Hs & Hnil & Hcons).
  split; [reflexivity|]. split; [exact Hmask|]. split; [exact Hq|].
  split; [exact Hs|]. split.
  - intros Hle. apply Hnil. unfold py_range. now apply seqZ_nil.
  - intros Hpos. apply Hcons. rewrite (py_range_cons _ Hpos). discriminate.
Qed.

End OptimizerFacts.

(** X11. On an attack object built by the constructor, [generate] called
    with at least [batch_size] images never returns a patch: it raises in
    its first iteration, after at most one gradient query, and the patch
    is what it was. *)
Theorem generate_raises_on_full_batch
    (rotate : Np.ndarray -> Q -> nat * nat -> Np.ndarray)
    (shift zoom : Np.ndarray -> Q * Q * Q -> Np.ndarray)
    (random_random : nat -> Q) (label : Type)
    (loss_gradient : list Np.ndarray -> list label -> list Np.ndarray)
    (classifier : AdversarialPatchNumpy.estimator_t) (tgt : Z)
    (rmax smin smax lr : Q) (iters bs : Z)
    (self : AdversarialPatchNumpy.attack) (patch0 : Np.ndarray)
    (x : list Np.ndarray) (y_target : list label)
    (s : AdversarialPatchNumpy.state label) :
  AdversarialPatchNumpy.__init__ classifier tgt rmax smin smax lr iters bs
  = Ok (self, patch0) ->
  bs <= Z.of_nat (length x) ->
  exists e s',
    AdversarialPatchNumpy.generate rotate shift zoom random_random label
      loss_gradient self (AdversarialPatchNumpy.ImageBatch x) y_target s
    = (Raise e, s')
    /\ (length (AdversarialPatchNumpy.gradient_queries s')
        <= length (AdversarialPatchNumpy.gradient_queries s) + 1)%nat
    /\ AdversarialPatchNumpy.patch s' = AdversarialPatchNumpy.patch s.
Proof.
  intros Hinit Hlen.
  destruct (init_facts _ _ _ _ _ _ _ _ _ _ Hinit)
    as ((_ & _ & _ & _ & Hiter & Hbs) & (_ & _ & _ & _ & _ & Emax & Ebs) & _).
  apply generate_with_full_batch.
  - now rewrite Emax.
  - rewrite Ebs. lia.
Qed.

Lemma generate_raises_on_full_batch_witness :
  exists e s',
    AdversarialPatchNumpy.generate Spec.rotate_still Spec.shift_still
      Spec.zoom_sampled (fun _ => 1 # 2) unit (fun images _ => images)
      Spec.small_attack_b1
      (AdversarialPatchNumpy.ImageBatch
         [Spec.constant (4, 4, 1)%nat 0; Spec.constant (4, 4, 1)%nat 1])
      [tt; tt]
      (Spec.fresh_state unit (Spec.constant (4, 4, 1)%nat (1 # 2)))
    = (Raise e, s')
    /\ (length (AdversarialPatchNumpy.gradient_queries s')
        <= length (AdversarialPatchNumpy.gradient_queries
                     (Spec.fresh_state unit (Spec.constant (4, 4, 1)%nat (1 # 2))))
           + 1)%nat
    /\ AdversarialPatchNumpy.patch s'
       = AdversarialPatchNumpy.patch
           (Spec.fresh_state unit (Spec.constant (4, 4, 1)%nat (1 # 2))).
Proof.
  apply (generate_raises_on_full_batch Spec.rotate_still Spec.shift_still
           Spec.zoom_sampled (fun _ => 1 # 2) unit (fun images _ => images)
           Spec.small_classifier 0 (45 # 2) (1 # 10) 1 5 500 1
           Spec.small_attack_b1
           (Spec.constant (4, 4, 1)%nat (1 * ((1 - 0) / 2 + 0)))).
  - reflexivity.
  - simpl. lia.
Defined.

(** X12. Whenever [generate] returns, no gradient was ever queried and the
    optimization had no effect: the returned patch is the stored patch,
    which is the initial patch clipped to the classifier's range (the
    state is untouched when no iteration was to run), and it comes with
    the circular mask.  This only happens when the batch holds fewer
    images than [batch_size] (or [batch_size] is negative). *)
Theorem generate_returns_unoptimized_patch
    (rotate : Np.ndarray -> Q -> nat * nat -> Np.ndarray)
    (shift zoom : Np.ndarray -> Q * Q * Q -> Np.ndarray)
    (random_random : nat -> Q) (label : Type)
    (loss_gradient : list Np.ndarray -> list label -> list Np.ndarray)
    (self : AdversarialPatchNumpy.attack)
    (x : list Np.ndarray) (y_target : list label)
    (s s' : AdversarialPatchNumpy.state label) (p mask : Np.ndarray) :
  AdversarialPatchNumpy.generate rotate shift zoom random_random label
    loss_gradient self (AdversarialPatchNumpy.ImageBatch x) y_target s
  = (Ok (p, mask), s') ->
  p = AdversarialPatchNumpy.patch s'
  /\ AdversarialPatchNumpy._get_circular_patch_mask self = Ok mask
  /\ AdversarialPatchNumpy.gradient_queries s'
     = AdversarialPatchNumpy.gradient_queries s
  /\ Np.shape p = Np.shape (AdversarialPatchNumpy.patch s)
  /\ (AdversarialPatchNumpy.max_iter self <= 0 -> s' = s)
  /\ (0 < AdversarialPatchNumpy.max_iter self ->
      ~ (1 <= AdversarialPatchNumpy.batch_size self <= Z.of_nat (length x))
      /\ forall i j k,
           (Np.item p i j k
            == Np.Qclip (Np.item (AdversarialPatchNumpy.patch s) i j k)
                 (fst (AdversarialPatchNumpy.clip_values
                         (AdversarialPatchNumpy.estimator self)))
                 (snd (AdversarialPatchNumpy.clip_values
                         (AdversarialPatchNumpy.estimator self))))%Q).
Proof. apply generate_returns. Qed.

Lemma generate_returns_unoptimized_patch_witness :
  exists (p mask : Np.ndarray) (s' : AdversarialPatchNumpy.state unit),
    AdversarialPatchNumpy.generate Spec.rotate_still Spec.shift_still
      Spec.zoom_sampled (fun _ => 1 # 2) unit (fun images _ => images)
      Spec.small_attack
      (AdversarialPatchNumpy.ImageBatch [Spec.constant (4, 4, 1)%nat 0]) [tt]
      (Spec.fresh_state unit (Spec.constant (4, 4, 1)%nat (3 # 2)))
    = (Ok (p, mask), s')
    /\ p = AdversarialPatchNumpy.patch s'
    /\ AdversarialPatchNumpy._get_circular_patch_mask Spec.small_attack = Ok mask
    /\ AdversarialPatchNumpy.gradient_queries s'
       = AdversarialPatchNumpy.gradient_queries
           (Spec.fresh_state unit (Spec.constant (4, 4, 1)%nat (3 # 2)))
    /\ Np.shape p
       = Np.shape (AdversarialPatchNumpy.patch
                     (Spec.fresh_state unit (Spec.constant (4, 4, 1)%nat (3 # 2))))
    /\ (AdversarialPatchNumpy.max_iter Spec.small_attack <= 0 ->
        s' = Spec.fresh_state unit (Spec.constant (4, 4, 1)%nat (3 # 2)))
    /\ (0 < AdversarialPatchNumpy.max_iter Spec.small_attack ->
        ~ (1 <= AdversarialPatchNumpy.batch_size Spec.small_attack
           <= Z.of_nat (length [Spec.constant (4, 4, 1)%nat 0]))
        /\ forall i j k,
             (Np.item p i j k
              == Np.Qclip
                   (Np.item (AdversarialPatchNumpy.patch
                               (Spec.fresh_state unit
                                  (Spec.constant (4, 4, 1)%nat (3 # 2)))) i j k)
                   (fst (AdversarialPatchNumpy.clip_values
                           (AdversarialPatchNumpy.estimator Spec.small_attack)))
                   (snd (AdversarialPatchNumpy.clip_values
                           (AdversarialPatchNumpy.estimator Spec.small_attack))))%Q).
Proof.
  assert (Hok : (let '(r, _) :=
                   AdversarialPatchNumpy.generate Spec.rotate_still
                     Spec.shift_still Spec.zoom_sampled (fun _ => 1 # 2) unit
                     (fun images _ => images) Spec.small_attack
                     (AdversarialPatchNumpy.ImageBatch
                        [Spec.constant (4, 4, 1)%nat 0]) [tt]
                     (Spec.fresh_state unit (Spec.constant (4, 4, 1)%nat (3 # 2)))
                 in match r with Ok _ => true | Raise _ => false end) = true)
    by (lazy; reflexivity).
  destruct (AdversarialPatchNumpy.generate _ _ _ _ _ _ _ _ _ _)
    as [[[p mask]|e] s'] eqn:Hrun; [|discriminate Hok].
  exists p, mask, s'. split; [reflexivity|].
  exact (generate_returns_unoptimized_patch Spec.rotate_still Spec.shift_still
           Spec.zoom_sampled (fun _ => 1 # 2) unit (fun images _ => images)
           Spec.small_attack [Spec.constant (4, 4, 1)%nat 0] [tt]
           (Spec.fresh_state unit (Spec.constant (4, 4, 1)%nat (3 # 2)))
           s' p mask Hrun).
Defined.

(** ** Applying the patch to a batch, and the exception of [generate] *)

Section ApplyFacts.

Import Np AdversarialPatchNumpy Spec.

Variable rotate : ndarray -> Q -> nat * nat -> ndarray.
Variable shift : ndarray -> Q * Q * Q -> ndarray.
Variable zoom : ndarray -> Q * Q * Q -> ndarray.
Hypothesis rotate_shape : rotate_shape_law rotate.
Hypothesis shift_shape : shift_shape_law shift.
Hypothesis zoom_shape : zoom_shape_law zoom.

Variable random_random : nat -> Q.
Variable label : Type.
Variable self : attack.
Hypothesis layout : channels_last self.

#[local] Existing Instance M_ret.
#[local] Existing Instance M_bind.

Lemma bind_returns {A B} (m : M label A) (k : A -> M label B)
    (s s1 s2 : state label) (a : A) (b : B) :
  m s = (Ok a, s1) -> k a s1 = (Ok b, s2) ->
  @mbind (M label) (M_bind label) A B k m s = (Ok b, s2).
Proof. intros Hm Hk. unfold mbind, M_bind. now rewrite Hm. Qed.

Lemma binop_same_shape_out (f : Q -> Q -> Q) (a b : ndarray) :
  shape a = shape b ->
  exists c, binop f a b = Ok c
            /\ shape c = shape a
            /\ forall i j k, item c i j k = f (item a i j k) (item b i j k).
Proof.
  intros Hab. unfold binop. rewrite <- Hab.
  destruct (shape a) as [[d0 d1] d2] eqn:Ha.
  unfold bdim. rewrite !Nat.eqb_refl. cbn [mbind result_bind rbind].
  destruct (broadcast_to_same a) as (a' & Ea & _ & Ia). rewrite Ha in Ea.
  destruct (broadcast_to_same b) as (b' & Eb & _ & Ib). rewrite <- Hab in Eb.
  rewrite Ea. cbn [mbind result_bind rbind].
  rewrite Eb. cbn [mbind result_bind rbind].
  eexists. split; [reflexivity|]. split; [reflexivity|].
  intros i j k. simpl. now rewrite Ia, Ib.
Qed.

Lemma concatenate_same_shape (sh : nat * nat * nat) (l : list ndarray) :
  l <> [] -> Forall (fun a => shape a = sh) l -> concatenate l = Ok l.
Proof.
  intros Hne Hall. destruct l as [|a rest]; [congruence|].
  apply Forall_cons in Hall as [Ha Hrest]. unfold concatenate.
  replace (forallb (fun b => bool_decide (shape b = shape a)) rest) with true;
    [reflexivity|].
  symmetry. clear Hne. induction Hrest as [|b rest Hb _ IH]; [reflexivity|].
  simpl. rewrite IH, andb_true_r. apply bool_decide_eq_true. congruence.
Qed.

(** A factor in (0, 1] keeps the shape of an array of patch shape. *)
Lemma scale_shape (x : ndarray) (sc : Q) :
  shape x = patch_shape self -> (0 < sc <= 1)%Q ->
  exists out, _scale zoom self x sc = Ok out /\ shape out = patch_shape self.
Proof.
  intros Hx [Hpos Hle]. destruct (patch_shape self) as [[H W] C] eqn:Hps.
  destruct (Qltb sc 1) eqn:E.
  - apply Qltb_spec in E.
    destruct (scale_below_one zoom zoom_shape self layout x sc H W C Hps Hx Hpos E)
      as (out & Eout & Hsame & _).
    exists out. split; [exact Eout|].
    rewrite Hsame, center_pad_shape, zoom_shape, Hx. unfold zoomed_shape.
    simpl. now rewrite round_axis_unit.
  - apply Qltb_false in E. exists x. split; [|exact Hx].
    apply scale_exactly_one. now apply Qle_antisym.
Qed.

(** With a scale in (0, 1] the sampler returns a patch and a mask of patch
    shape. *)
Lemma sampler_returns (patch : ndarray) (scale : option Q) (s : state label) :
  shape patch = patch_shape self ->
  (0 < match scale with
       | Some o => o
       | None => uniform_at (scale_min self) (scale_max self)
                   (random_random (S (random_calls s)))
       end <= 1)%Q ->
  exists p m t s',
    _random_transformation rotate shift zoom random_random label self
      patch scale s = (Ok (p, m, t), s')
    /\ shape p = patch_shape self /\ shape m = patch_shape self.
Proof.
  intros Hpatch Hsc.
  destruct (patch_shape self) as [[H W] C] eqn:Hps.
  destruct (mask_entries self H W C layout Hps) as (mask & Emask & Hmask & _).
  rewrite <- Hps in *.
  set (angle := (- rotation_max self
                 + (rotation_max self - - rotation_max self)
                   * random_random (random_calls s))%Q).
  set (sc := match scale with
             | Some o => o
             | None => uniform_at (scale_min self) (scale_max self)
                         (random_random (S (random_calls s)))
             end) in *.
  destruct (scale_shape (_rotate rotate self patch angle) sc) as (p1 & Ep1 & Hp1);
    [unfold _rotate; now rewrite rotate_shape|exact Hsc|].
  destruct (scale_shape (_rotate rotate self mask angle) sc) as (m1 & Em1 & Hm1);
    [unfold _rotate; now rewrite rotate_shape|exact Hsc|].
  unfold _random_transformation.
  rewrite (bind_step label (lift label (_get_circular_patch_mask self)) _ s s mask)
    by (unfold lift; now rewrite Emask).
  cbv zeta.
  rewrite (bind_step label (random_uniform random_random label _ _) _ s _ angle eq_refl).
  set (s1 := Build_state label _ _ _).
  assert (Hdraw : exists s2,
            match scale with
            | Some o => mret o
            | None => random_uniform random_random label (scale_min self) (scale_max self)
            end s1 = (Ok sc, s2)).
  { unfold sc. destruct scale; eexists; reflexivity. }
  destruct Hdraw as [s2 Hdraw].
  rewrite (bind_step label _ _ s1 s2 sc Hdraw).
  rewrite (bind_step label (lift label (_scale zoom self _ sc)) _ s2 s2 p1)
    by (unfold lift; now rewrite Ep1).
  rewrite (bind_step label (lift label (_scale zoom self _ sc)) _ s2 s2 m1)
    by (unfold lift; now rewrite Em1).
  destruct (_ && _).
  - rewrite (bind_step label (random_uniform random_random label _ _) _ s2 _ _ eq_refl).
    rewrite (bind_step label (random_uniform random_random label _ _) _ _ _ _ eq_refl).
    unfold _shift. eexists _, _, _, _. split; [reflexivity|].
    rewrite !shift_shape. split; assumption.
  - eexists _, _, _, _. split; [reflexivity|]. split; assumption.
Qed.


(** The loop of the augmentation over the images, from any accumulated
    lists: one blended image, one mask and one record are appended per
    image. *)
Lemma augment_loop_returns (patch : ndarray) (scale : option Q)
    (images : list ndarray) :
  shape patch = patch_shape self ->
  (forall n,
     (0 < match scale with
          | Some o => o
          | None => uniform_at (scale_min self) (scale_max self) (random_random n)
          end <= 1)%Q) ->
  Forall (fun image => shape image = patch_shape self) images ->
  forall (acc : list ndarray * list ndarray * list (gmap string value))
         (s : state label),
    exists news newm newt s',
      for_eachM label images
        (fun image '(patched_images, patch_mask_transformed_list, transformations) =>
           '(patch_transformed, patch_mask_transformed, transformation) ←
             _random_transformation rotate shift zoom random_random label self
               patch scale;
           let inverted_patch_mask_transformed :=
             map_items (fun m => 1 - m)%Q patch_mask_transformed in
           background ← lift label (binop Qmult image inverted_patch_mask_transformed);
           foreground ← lift label (binop Qmult patch_transformed patch_mask_transformed);
           patched_image ← lift label (binop Qplus background foreground);
           mret (patched_images ++ [patched_image],
                 patch_mask_transformed_list ++ [patch_mask_transformed],
                 transformations ++ [transformation]))
        acc s
      = (Ok (acc.1.1 ++ news, acc.1.2 ++ newm, acc.2 ++ newt), s')
      /\ length newt = length images
      /\ Forall3 (blended (patch_shape self)) images news newm.
Proof.
  intros Hpatch Hsc Himages.
  induction Himages as [|image images Himage _ IH]; intros [[a b] c] s.
  - exists [], [], [], s. simpl. rewrite !app_nil_r.
    split; [reflexivity|]. split; [reflexivity|constructor].
  - assert (Hs : (0 < match scale with
                       | Some o => o
                       | None => uniform_at (scale_min self) (scale_max self)
                                   (random_random (S (random_calls s)))
                       end <= 1)%Q)
      by (destruct scale; [apply (Hsc 0%nat)|apply Hsc]).
    destruct (sampler_returns patch scale s Hpatch Hs)
      as (p & m & t & s1 & Es & Hp & Hm).
    destruct (binop_same_shape_out Qmult image (map_items (fun m => 1 - m)%Q m))
      as (bg & Ebg & Hbg & Ibg); [simpl; congruence|].
    destruct (binop_same_shape_out Qmult p m) as (fg & Efg & Hfg & Ifg); [congruence|].
    destruct (binop_same_shape_out Qplus bg fg) as (pim & Epim & Hpim & Ipim);
      [congruence|].
    destruct (IH (a ++ [pim], b ++ [m], c ++ [t]) s1)
      as (news & newm & newt & s' & Eloop & Lt & Hblend).
    exists (pim :: news), (m :: newm), (t :: newt), s'. split; [|split].
    + simpl in Eloop |- *. rewrite <- !app_assoc in Eloop.
      eapply bind_returns; [|exact Eloop].
      eapply bind_returns; [exact Es|]. cbv beta iota zeta.
      eapply bind_returns; [unfold lift; rewrite Ebg; reflexivity|].
      eapply bind_returns; [unfold lift; rewrite Efg; reflexivity|].
      eapply bind_returns; [unfold lift; rewrite Epim; reflexivity|].
      reflexivity.
    + simpl. now rewrite Lt.
    + constructor; [|exact Hblend].
      split; [congruence|]. split; [exact Hm|].
      exists p. split; [exact Hp|]. intros i j k.
      now rewrite Ipim, Ibg, Ifg.
Qed.

Lemma blended_shapes (ps : nat * nat * nat) (images patched masks : list ndarray) :
  Forall3 (blended ps) images patched masks ->
  Forall (fun a => shape a = ps) patched /\ Forall (fun a => shape a = ps) masks.
Proof.
  induction 1 as [|image pim m images patched masks (Hp & Hm & _) _ [IHp IHm]].
  - split; constructor.
  - split; constructor; assumption.
Qed.

Lemma augment_returns (patch : ndarray) (scale : option Q)
    (images : list ndarray) (s : state label) :
  shape patch = patch_shape self ->
  (forall n,
     (0 < match scale with
          | Some o => o
          | None => uniform_at (scale_min self) (scale_max self) (random_random n)
          end <= 1)%Q) ->
  images <> [] ->
  Forall (fun image => shape image = patch_shape self) images ->
  exists patched masks records s',
    _augment_images_with_random_patch rotate shift zoom random_random label self
      images patch scale s = (Ok (patched, masks, records), s')
    /\ length patched = length images
    /\ length masks = length images
    /\ length records = length images
    /\ Forall (fun a => shape a = patch_shape self) patched
    /\ Forall (fun a => shape a = patch_shape self) masks
    /\ Forall3 (blended (patch_shape self)) images patched masks.
Proof.
  intros Hpatch Hsc Hne Himages.
  destruct (augment_loop_returns patch scale images Hpatch Hsc Himages
              ([], [], []) s)
    as (patched & masks & records & s' & Eloop & L3 & Hblend).
  simpl in Eloop.
  pose proof (Forall3_length_lm _ _ _ _ Hblend) as L1.
  pose proof (Forall3_length_lr _ _ _ _ Hblend) as L2.
  destruct (blended_shapes _ _ _ _ Hblend) as [F1 F2].
  assert (Hp : patched <> []).
  { intros ->. destruct images; [congruence|discriminate L1]. }
  assert (Hm : masks <> []).
  { intros ->. destruct images; [congruence|discriminate L2]. }
  exists patched, masks, records, s'.
  split; [|repeat split; solve [assumption|symmetry; assumption]].
  unfold _augment_images_with_random_patch.
  eapply bind_returns; [exact Eloop|]. cbv beta iota.
  eapply bind_returns;
    [unfold lift; rewrite (concatenate_same_shape _ _ Hp F1); reflexivity|].
  eapply bind_returns;
    [unfold lift; rewrite (concatenate_same_shape _ _ Hm F2); reflexivity|].
  reflexivity.
Qed.


Lemma apply_patch_returns (x : list ndarray) (scale : Q)
    (patch_external : option ndarray) (s : state label) :
  (0 < scale <= 1)%Q ->
  x <> [] ->
  Forall (fun image => shape image = patch_shape self) x ->
  shape (match patch_external with Some p => p | None => patch s end)
  = patch_shape self ->
  exists out s',
    apply_patch rotate shift zoom random_random label self x scale
      patch_external s = (Ok out, s')
    /\ length out = length x
    /\ Forall (fun image => shape image = patch_shape self) out
    /\ patch s' = patch s
    /\ gradient_queries s' = gradient_queries s.
Proof.
  intros Hscale Hne Hx Hpatch.
  destruct (augment_returns _ (Some scale) x s Hpatch (fun _ => Hscale) Hne Hx)
    as (patched & masks & records & s' & Eaug & L1 & _ & _ & F1 & _ & _).
  destruct (quiet_augment _ _ _ _ _ _ _ _ _ _ _ _ Eaug) as [Hq Hp].
  exists patched, s'. split; [|repeat split; assumption].
  unfold apply_patch.
  eapply bind_returns; [reflexivity|]. cbv beta zeta.
  eapply bind_returns; [exact Eaug|]. reflexivity.
Qed.


Variable loss_gradient : list ndarray -> list label -> list ndarray.
Hypothesis gradient_shape :
  forall xs ys, map shape (loss_gradient xs ys) = map shape xs.
Hypothesis draws : forall n, (0 <= random_random n <= 1)%Q.

Lemma first_of_batch {A} (a : A) (l : list A) (b : Z) :
  1 <= b <= Z.of_nat (length (a :: l)) ->
  exists rest, batch_slice (a :: l) (0 * b) ((0 + 1) * b) = a :: rest.
Proof.
  intros Hb. unfold batch_slice.
  rewrite slice_indices_inside by lia.
  change (Z.to_nat (0 * b)) with 0%nat. rewrite drop_0.
  replace (Z.to_nat ((0 + 1) * b - 0 * b)) with (S (Z.to_nat (b - 1))) by lia.
  eexists. reflexivity.
Qed.

(** The first iteration on a full batch of images of patch shape stops at
    the lookup of ["shift_h"], after its first gradient query. *)
Lemma iteration_key_error (x : list ndarray) (y_target : list label)
    (s : state label) :
  (0 < scale_min self <= scale_max self)%Q -> (scale_max self <= 1)%Q ->
  1 <= batch_size self <= Z.of_nat (length x) ->
  Forall (fun image => shape image = patch_shape self) x ->
  shape (patch s) = patch_shape self ->
  exists s',
    generate_iteration rotate shift zoom random_random label loss_gradient
      self x y_target s = (Raise (KeyError "shift_h"), s')
    /\ patch s' = patch s
    /\ length (gradient_queries s') = S (length (gradient_queries s)).
Proof.
  intros [Hmin Hminmax] Hmax HB Hx Hpatch.
  assert (Hne : x <> []) by (intros ->; simpl in HB; lia).
  assert (Hsc : forall n,
            (0 < match @None Q with
                 | Some o => o
                 | None => uniform_at (scale_min self) (scale_max self)
                             (random_random n)
                 end <= 1)%Q).
  { intros n.
    destruct (uniform_between (scale_min self) (scale_max self) (random_random n)
                Hminmax (draws n)) as [Hlo Hhi].
    split; [eapply Qlt_le_trans; eassumption|eapply Qle_trans; eassumption]. }
  destruct (augment_returns (patch s) None x s Hpatch Hsc Hne Hx)
    as (patched & masks & records & s1 & Eaug & L1 & L2 & L3 & F1 & F2 & _).
  destruct (quiet_augment _ _ _ _ _ _ _ _ _ _ _ _ Eaug) as [Hq1 Hp1].
  pose proof (augment_records _ _ _ _ _ _ _ _ _ _ _ _ _ _ Eaug) as Hrecords.
  destruct patched as [|p0 patched]; [destruct x; [congruence|discriminate L1]|].
  destruct masks as [|m0 masks]; [destruct x; [congruence|discriminate L2]|].
  destruct records as [|t0 records]; [destruct x; [congruence|discriminate L3]|].
  apply Forall_cons in F1 as [Hp0 _]. apply Forall_cons in F2 as [Hm0 _].
  apply Forall_cons in Hrecords as [Ht0 _].
  destruct (first_of_batch p0 patched (batch_size self)) as [rest Ebatch];
    [rewrite L1; exact HB|].
  set (xs := batch_slice (p0 :: patched) (0 * batch_size self)
               ((0 + 1) * batch_size self)) in *.
  set (ys := batch_slice y_target (0 * batch_size self)
               ((0 + 1) * batch_size self)).
  destruct (loss_gradient xs ys) as [|g gs] eqn:Egrad.
  { pose proof (gradient_shape xs ys) as Hg. rewrite Egrad, Ebatch in Hg.
    discriminate Hg. }
  assert (Hg : shape g = shape m0).
  { pose proof (gradient_shape xs ys) as Hg. rewrite Egrad, Ebatch in Hg.
    injection Hg as Hg _. congruence. }
  set (s2 := {| patch := patch s1; random_calls := random_calls s1;
                gradient_queries := gradient_queries s1 ++ [(xs, ys)] |}).
  exists s2. split; [|split].
  - unfold generate_iteration.
    rewrite (bind_step label (get_patch label) _ s s (patch s) eq_refl).
    rewrite (bind_step label _ _ _ _ _ Eaug). cbv beta iota.
    assert (Hdiv : int_div (Z.of_nat (length x)) (batch_size self)
                   = Ok (Z.of_nat (length x) ÷ batch_size self)).
    { unfold int_div. destruct (Z.eqb_spec (batch_size self) 0); [lia|reflexivity]. }
    assert (Hnb : 0 < Z.of_nat (length x) ÷ batch_size self)
      by (apply Z.quot_str_pos; lia).
    rewrite (bind_step label (lift label _) _ s1 s1 _
               (f_equal (fun r => (r, s1)) Hdiv)).
    rewrite (py_range_cons _ Hnb).
    rewrite (py_range_cons (batch_size self)) by lia.
    apply bind_raise. apply for_each_first_raises.
    fold xs ys.
    rewrite (bind_step label (call_loss_gradient label loss_gradient xs ys) _
               s1 s2 (loss_gradient xs ys) eq_refl).
    apply for_each_first_raises. rewrite Egrad.
    rewrite (bind_step label (lift label (py_index (g :: gs) 0)) _ s2 s2 g eq_refl).
    rewrite (bind_step label (lift label (py_index (m0 :: masks) 0)) _ s2 s2 m0
               eq_refl).
    rewrite (bind_step label (lift label (py_index (t0 :: records) 0)) _ s2 s2 t0
               eq_refl).
    apply bind_raise. unfold lift.
    now rewrite (proj2 (reverse_without_shift_h rotate shift zoom self g m0 t0 Ht0) Hg).
  - exact Hp1.
  - unfold s2. simpl. rewrite length_app, Hq1. simpl. lia.
Qed.

Lemma generate_key_error (x : list ndarray) (y_target : list label)
    (s : state label) :
  (0 < scale_min self <= scale_max self)%Q -> (scale_max self <= 1)%Q ->
  0 < max_iter self ->
  1 <= batch_size self <= Z.of_nat (length x) ->
  Forall (fun image => shape image = patch_shape self) x ->
  shape (patch s) = patch_shape self ->
  exists s',
    generate rotate shift zoom random_random label loss_gradient self
      (ImageBatch x) y_target s = (Raise (KeyError "shift_h"), s')
    /\ patch s' = patch s
    /\ length (gradient_queries s') = S (length (gradient_queries s)).
Proof.
  intros Hmin Hmax Hiter HB Hx Hpatch.
  destruct (iteration_key_error x y_target s Hmin Hmax HB Hx Hpatch)
    as (s' & He & Hp & Hq).
  exists s'. split; [|split; assumption].
  unfold generate. rewrite (py_range_cons _ Hiter).
  apply bind_raise. apply for_each_first_raises. exact He.
Qed.

End ApplyFacts.

(** X13. On a channels-last attack object, with [scipy]'s rotation, shift
    and zoom obeying their shape laws: [apply_patch] with a scale in
    (0, 1], on a non-empty batch of images of the patch's shape, returns
    one patched image per input image, each of that shape, and leaves the
    stored patch and the gradient log alone. *)
Theorem apply_patch_returns_patched_batch
    (rotate : Np.ndarray -> Q -> nat * nat -> Np.ndarray)
    (shift zoom : Np.ndarray -> Q * Q * Q -> Np.ndarray)
    (random_random : nat -> Q) (label : Type)
    (self : AdversarialPatchNumpy.attack)
    (x : list Np.ndarray) (scale : Q) (patch_external : option Np.ndarray)
    (s : AdversarialPatchNumpy.state label) :
  Spec.rotate_shape_law rotate -> Spec.shift_shape_law shift ->
  Spec.zoom_shape_law zoom ->
  Spec.channels_last self ->
  (0 < scale <= 1)%Q ->
  x <> [] ->
  Forall (fun image => Np.shape image = AdversarialPatchNumpy.patch_shape self) x ->
  Np.shape (match patch_external with
            | Some p => p
            | None => AdversarialPatchNumpy.patch s
            end) = AdversarialPatchNumpy.patch_shape self ->
  exists out s',
    AdversarialPatchNumpy.apply_patch rotate shift zoom random_random label self
      x scale patch_external s = (Ok out, s')
    /\ length out = length x
    /\ Forall (fun image =>
                 Np.shape image = AdversarialPatchNumpy.patch_shape self) out
    /\ AdversarialPatchNumpy.patch s' = AdversarialPatchNumpy.patch s
    /\ AdversarialPatchNumpy.gradient_queries s'
       = AdversarialPatchNumpy.gradient_queries s.
Proof.
  intros Hrotate Hshift Hzoom Hlayout. now apply apply_patch_returns.
Qed.

Lemma apply_patch_returns_patched_batch_witness :
  exists out s',
    AdversarialPatchNumpy.apply_patch Spec.rotate_still Spec.shift_still
      Spec.zoom_sampled (fun _ => 1 # 2) unit Spec.small_attack
      [Spec.constant (4, 4, 1)%nat 0] (1 # 2) None
      (Spec.fresh_state unit (Spec.constant (4, 4, 1)%nat (1 # 2)))
    = (Ok out, s')
    /\ length out = length [Spec.constant (4, 4, 1)%nat 0]
    /\ Forall (fun image =>
                 Np.shape image
                 = AdversarialPatchNumpy.patch_shape Spec.small_attack) out
    /\ AdversarialPatchNumpy.patch s'
       = AdversarialPatchNumpy.patch
           (Spec.fresh_state unit (Spec.constant (4, 4, 1)%nat (1 # 2)))
    /\ AdversarialPatchNumpy.gradient_queries s'
       = AdversarialPatchNumpy.gradient_queries
           (Spec.fresh_state unit (Spec.constant (4, 4, 1)%nat (1 # 2))).
Proof.
  apply (apply_patch_returns_patched_batch Spec.rotate_still Spec.shift_still
           Spec.zoom_sampled (fun _ => 1 # 2) unit Spec.small_attack
           [Spec.constant (4, 4, 1)%nat 0] (1 # 2) None
           (Spec.fresh_state unit (Spec.constant (4, 4, 1)%nat (1 # 2)))).
  - intros x angle axes. reflexivity.
  - intros x offsets. reflexivity.
  - exact zoom_sampled_shape.
  - exact small_attack_channels_last.
  - split; [reflexivity|discriminate].
  - discriminate.
  - repeat constructor.
  - reflexivity.
Defined.

(** X14. What a caller of [generate] sees on a channels-last attack
    object with [0 < scale_min <= scale_max <= 1], at least one iteration
    to run and a full batch of images of the patch's shape ([scipy]'s
    functions obeying their shape laws, the draws of [random.random()] in
    [0, 1], the classifier's gradient having the shape of its input):
    [KeyError "shift_h"], raised after exactly one gradient query, with
    the patch unchanged. *)
Theorem generate_raises_key_error
    (rotate : Np.ndarray -> Q -> nat * nat -> Np.ndarray)
    (shift zoom : Np.ndarray -> Q * Q * Q -> Np.ndarray)
    (random_random : nat -> Q) (label : Type)
    (loss_gradient : list Np.ndarray -> list label -> list Np.ndarray)
    (self : AdversarialPatchNumpy.attack)
    (x : list Np.ndarray) (y_target : list label)
    (s : AdversarialPatchNumpy.state label) :
  Spec.rotate_shape_law rotate -> Spec.shift_shape_law shift ->
  Spec.zoom_shape_law zoom ->
  (forall n, (0 <= random_random n <= 1)%Q) ->
  (forall xs ys, map Np.shape (loss_gradient xs ys) = map Np.shape xs) ->
  Spec.channels_last self ->
  (0 < AdversarialPatchNumpy.scale_min self
   <= AdversarialPatchNumpy.scale_max self)%Q ->
  (AdversarialPatchNumpy.scale_max self <= 1)%Q ->
  0 < AdversarialPatchNumpy.max_iter self ->
  1 <= AdversarialPatchNumpy.batch_size self <= Z.of_nat (length x) ->
  Forall (fun image => Np.shape image = AdversarialPatchNumpy.patch_shape self) x ->
  Np.shape (AdversarialPatchNumpy.patch s)
  = AdversarialPatchNumpy.patch_shape self ->
  exists s',
    AdversarialPatchNumpy.generate rotate shift zoom random_random label
      loss_gradient self (AdversarialPatchNumpy.ImageBatch x) y_target s
    = (Raise (KeyError "shift_h"), s')
    /\ AdversarialPatchNumpy.patch s' = AdversarialPatchNumpy.patch s
    /\ length (AdversarialPatchNumpy.gradient_queries s')
       = S (length (AdversarialPatchNumpy.gradient_queries s)).
Proof.
  intros Hrotate Hshift Hzoom Hdraws Hgradient Hlayout.
  now apply generate_key_error.
Qed.

Lemma generate_raises_key_error_witness :
  exists s',
    AdversarialPatchNumpy.generate Spec.rotate_still Spec.shift_still
      Spec.zoom_sampled (fun _ => 1 # 2) unit (fun images _ => images)
      Spec.small_attack_b1
      (AdversarialPatchNumpy.ImageBatch
         [Spec.constant (4, 4, 1)%nat 0; Spec.constant (4, 4, 1)%nat 1])
      [tt; tt]
      (Spec.fresh_state unit (Spec.constant (4, 4, 1)%nat (1 # 2)))
    = (Raise (KeyError "shift_h"), s')
    /\ AdversarialPatchNumpy.patch s'
       = AdversarialPatchNumpy.patch
           (Spec.fresh_state unit (Spec.constant (4, 4, 1)%nat (1 # 2)))
    /\ length (AdversarialPatchNumpy.gradient_queries s')
       = S (length (AdversarialPatchNumpy.gradient_queries
                      (Spec.fresh_state unit
                         (Spec.constant (4, 4, 1)%nat (1 # 2))))).
Proof.
  apply (generate_raises_key_error Spec.rotate_still Spec.shift_still
           Spec.zoom_sampled (fun _ => 1 # 2) unit (fun images _ => images)
           Spec.small_attack_b1
           [Spec.constant (4, 4, 1)%nat 0; Spec.constant (4, 4, 1)%nat 1]
           [tt; tt]
           (Spec.fresh_state unit (Spec.constant (4, 4, 1)%nat (1 # 2)))).
  - intros x angle axes. reflexivity.
  - intros x offsets. reflexivity.
  - exact zoom_sampled_shape.
  - intros n. split; discriminate.
  - intros xs ys. reflexivity.
  - repeat split.
  - split; [reflexivity|discriminate].
  - discriminate.
  - reflexivity.
  - split; [discriminate|]. simpl. lia.
  - repeat constructor.
  - reflexivity.
Defined.



(** ** The loop of [certify], whatever the helper *)

Section CertifyOutcome.

Import DeepZ.

Variable helper : Z -> Z -> list Q -> list (list Q) -> result bool.
Variable prediction : Z.
Variable cent : list Q.
Variable eps : list (list Q).

(** The loop returns only when the helper returned for every class other
    than the prediction. *)
Lemma certify_loop_returned (ks : list Z) (acc out : list bool) :
  for_each ks
    (fun k results =>
       if negb (k =? prediction) then
         r ← helper prediction k cent eps; Ok (results ++ [r])
       else Ok results)
    acc = Ok out ->
  forall k, k ∈ ks -> k <> prediction ->
            exists r, helper prediction k cent eps = Ok r.
Proof.
  revert acc. induction ks as [|k0 ks IH]; intros acc Hrun k Hk Hne.
  - now apply elem_of_nil in Hk.
  - simpl in Hrun.
    destruct (Z.eqb_spec k0 prediction) as [->|Hne0]; simpl in Hrun.
    + apply elem_of_cons in Hk as [->|Hk]; [congruence|]. eapply IH; eassumption.
    + destruct (helper prediction k0 cent eps) as [r|err] eqn:E;
        [|discriminate Hrun].
      simpl in Hrun.
      apply elem_of_cons in Hk as [->|Hk]; [now exists r|]. eapply IH; eassumption.
Qed.

(** The first class whose helper call raises decides the outcome, also
    when an earlier class has already failed the certification. *)
Lemma certify_loop_raises (pre post : list Z) (k : Z) (err : py_error)
    (acc : list bool) :
  (forall j, j ∈ pre -> j <> prediction ->
             exists r, helper prediction j cent eps = Ok r) ->
  k <> prediction ->
  helper prediction k cent eps = Raise err ->
  for_each (pre ++ k :: post)
    (fun k results =>
       if negb (k =? prediction) then
         r ← helper prediction k cent eps; Ok (results ++ [r])
       else Ok results)
    acc = Raise err.
Proof.
  intros Hpre Hne Hk. revert acc.
  induction pre as [|j pre IH]; intros acc; simpl.
  - destruct (Z.eqb_spec k prediction); [congruence|]. simpl. now rewrite Hk.
  - destruct (Z.eqb_spec j prediction) as [->|Hj]; simpl.
    + apply IH. intros i Hi. apply Hpre. now apply list_elem_of_further.
    + destruct (Hpre j ltac:(apply list_elem_of_here) Hj) as [r ->]. simpl.
      apply IH. intros i Hi. apply Hpre. now apply list_elem_of_further.
Qed.

End CertifyOutcome.

(** X16. The outcome of [certify], whatever the per-class helper, once
    the forward pass has returned the final zonotope.  A verdict is
    returned only if the helper returned for every class other than the
    prediction (there is no early exit after a failed class), and it is
    true exactly when every one of these calls returned true.  If the
    helper raises for some class, [certify] raises the exception of the
    first such class. *)
Theorem certify_outcome
    (ndarray : Type)
    (forward : ndarray -> ndarray -> result (list Q * list (list Q)))
    (nb_classes : Z)
    (helper : Z -> Z -> list Q -> list (list Q) -> result bool)
    (cent eps : ndarray) (p : Z) (c : list Q) (e : list (list Q)) :
  forward cent eps = Ok (c, e) ->
  (forall b,
     DeepZ.certify ndarray forward nb_classes helper cent eps p = Ok b ->
     (forall k, 0 <= k < nb_classes -> k <> p -> exists r, helper p k c e = Ok r)
     /\ (b = true <->
         forall k, 0 <= k < nb_classes -> k <> p -> helper p k c e = Ok true))
  /\ (forall k err,
        0 <= k < nb_classes -> k <> p ->
        helper p k c e = Raise err ->
        (forall j, 0 <= j < k -> j <> p -> exists r, helper p j c e = Ok r) ->
        DeepZ.certify ndarray forward nb_classes helper cent eps p = Raise err).
Proof.
  intros Hfw. split.
  - intros b Hrun. unfold DeepZ.certify in Hrun. rewrite Hfw in Hrun.
    cbn [mbind result_bind rbind] in Hrun.
    destruct (for_each (py_range nb_classes) _ []) as [out|err] eqn:Eloop;
      [|discriminate Hrun].
    cbn [rbind] in Hrun. injection Hrun as <-.
    pose proof (certify_loop_returned helper p c e _ _ _ Eloop) as Hall.
    assert (Hall' : forall k, 0 <= k < nb_classes -> k <> p ->
                              exists r, helper p k c e = Ok r).
    { intros k Hk Hne. apply Hall; [|exact Hne]. apply elem_of_seqZ. lia. }
    split; [exact Hall'|].
    set (f := fun k => match helper p k c e with Ok r => r | Raise _ => true end).
    rewrite (certify_loop p f helper c e (py_range nb_classes) []) in Eloop.
    2:{ intros k Hk Hne. destruct (Hall k Hk Hne) as [r Hr].
        unfold f. now rewrite Hr. }
    injection Eloop as <-. simpl. rewrite py_all_true. split.
    + intros H k Hk Hne. destruct (Hall' k Hk Hne) as [r Hr]. rewrite Hr.
      f_equal. replace r with (f k) by (unfold f; now rewrite Hr).
      apply H. apply list_elem_of_fmap. exists k. split; [reflexivity|].
      apply list_elem_of_filter. split; [assumption|]. apply elem_of_seqZ. lia.
    + intros H b Hb. apply list_elem_of_fmap in Hb as [k [-> Hk]].
      apply list_elem_of_filter in Hk as [Hne Hk]. apply elem_of_seqZ in Hk.
      unfold f. rewrite (H k) by (lia || assumption). reflexivity.
  - intros k err Hk Hne Herr Hbefore.
    unfold DeepZ.certify. rewrite Hfw. cbn [mbind result_bind rbind].
    unfold py_range.
    replace nb_classes with (k + (nb_classes - k)) by lia.
    rewrite seqZ_app by lia. rewrite (seqZ_cons (0 + k)) by lia.
    rewrite (certify_loop_raises helper p c e _ _ _ err [] ) ; [reflexivity| |exact Hne|exact Herr].
    intros j Hj. apply elem_of_seqZ in Hj. apply Hbefore. lia.
Qed.

Lemma certify_outcome_witness :
  (forall b,
     DeepZ.certify unit (fun _ _ => Ok ([3; 1]%Q, [[1 # 2; 0]; [0; 1 # 4]]%Q)) 2
       DeepZ.certify_via_subtraction tt tt 0 = Ok b ->
     (forall k, 0 <= k < 2 -> k <> 0 ->
        exists r,
          DeepZ.certify_via_subtraction 0 k [3; 1]%Q
            [[1 # 2; 0]; [0; 1 # 4]]%Q = Ok r)
     /\ (b = true <->
         forall k, 0 <= k < 2 -> k <> 0 ->
           DeepZ.certify_via_subtraction 0 k [3; 1]%Q
             [[1 # 2; 0]; [0; 1 # 4]]%Q = Ok true))
  /\ (forall k err,
        0 <= k < 2 -> k <> 0 ->
        DeepZ.certify_via_subtraction 0 k [3; 1]%Q [[1 # 2; 0]; [0; 1 # 4]]%Q
        = Raise err ->
        (forall j, 0 <= j < k -> j <> 0 ->
           exists r,
             DeepZ.certify_via_subtraction 0 j [3; 1]%Q
               [[1 # 2; 0]; [0; 1 # 4]]%Q = Ok r) ->
        DeepZ.certify unit (fun _ _ => Ok ([3; 1]%Q, [[1 # 2; 0]; [0; 1 # 4]]%Q)) 2
          DeepZ.certify_via_subtraction tt tt 0 = Raise err).
Proof.
  apply (certify_outcome unit
           (fun _ _ => Ok ([3; 1]%Q, [[1 # 2; 0]; [0; 1 # 4]]%Q)) 2
           DeepZ.certify_via_subtraction tt tt 0).
  reflexivity.
Defined.
